(** * TaskBot (bot.py): shorthand parser, scoring, task numbers, undo

    A shallow embedding of the pure helpers and of the command handlers of
    [bot.py], and the properties of them that the specification states.

    Conventions of the embedding.
    - A Python [str] is a [list ascii]; the embedding covers ASCII text
      (code points below 128), where [\s], [\d], [str.upper], [str.strip]
      and [int] are what the definitions below say.
    - [date.today()] is an explicit argument [today].
    - A Python exception is a value [Raise e] of the [result] type.
    - The Supabase table [tasks] is a list of rows in insertion order; the
      per-process dictionary [ctx.bot_data] is a finite map keyed by the
      user id (the key [f"undo_{user_id}"] is injective in the user id). *)

From Stdlib Require Import ZArith List Ascii String Bool Lia Permutation Sorted DecimalString.
From stdpp Require Import base option gmap.
Import ListNotations.

Local Open Scope Z_scope.

(** ** Python values *)

Module Py.

Abbreviation str := (list ascii).

(** A string literal of the source. *)
Definition lit (s : string) : str := list_ascii_of_string s.

(** [APIError] is what the Supabase client raises when the table refuses a
    statement. *)
Inductive exn := ValueError | IndexError | APIError.

Inductive result (A : Type) :=
| Ok (a : A)
| Raise (e : exn).
Arguments Ok {A} a.
Arguments Raise {A} e.

Definition bind {A B} (r : result A) (f : A -> result B) : result B :=
  match r with
  | Ok a => f a
  | Raise e => Raise e
  end.

Definition code (a : ascii) : N := N_of_ascii a.

(** [\s] and [str.isspace] on ASCII: TAB..CR, FS..US and SPACE. *)
Definition is_space (a : ascii) : bool :=
  let n := code a in
  ((9 <=? n) && (n <=? 13) || (28 <=? n) && (n <=? 32))%N.

Definition non_space (a : ascii) : bool := negb (is_space a).

(** [\d] on ASCII. *)
Definition is_digit (a : ascii) : bool :=
  let n := code a in ((48 <=? n) && (n <=? 57))%N.

Definition digit_value (a : ascii) : Z := Z.of_N (code a) - 48.

Definition upper_char (a : ascii) : ascii :=
  let n := code a in
  if ((97 <=? n) && (n <=? 122))%N then ascii_of_N (n - 32) else a.

Definition lower_char (a : ascii) : ascii :=
  let n := code a in
  if ((65 <=? n) && (n <=? 90))%N then ascii_of_N (n + 32) else a.

(** [s.upper()], [s.lower()] *)
Definition upper (s : str) : str := map upper_char s.
Definition lower (s : str) : str := map lower_char s.

Fixpoint drop_while (c : ascii -> bool) (s : str) : str :=
  match s with
  | [] => []
  | a :: t => if c a then drop_while c t else s
  end.

Fixpoint take_while (c : ascii -> bool) (s : str) : str :=
  match s with
  | [] => []
  | a :: t => if c a then a :: take_while c t else []
  end.

Definition lstrip (s : str) : str := drop_while is_space s.
Definition rstrip (s : str) : str := rev (drop_while is_space (rev s)).

(** [s.strip()] *)
Definition strip (s : str) : str := rstrip (lstrip s).

Definition str_eqb (s t : str) : bool :=
  if List.list_eq_dec ascii_dec s t then true else false.

(** [s.split()]: the runs of non-blank characters of [s]; [cur] is the run
    being read. *)
Fixpoint split_from (cur : str) (s : str) : list str :=
  match s with
  | [] => match cur with [] => [] | _ => [cur] end
  | a :: t =>
      if is_space a then
        match cur with
        | [] => split_from [] t
        | _ => cur :: split_from [] t
        end
      else split_from (cur ++ [a]) t
  end.

Definition str_split (s : str) : list str := split_from [] s.

(** [sep.join(l)] *)
Fixpoint join (sep : str) (l : list str) : str :=
  match l with
  | [] => []
  | [x] => x
  | x :: l' => x ++ sep ++ join sep l'
  end.

(** The digits of a decimal literal after its first digit: digits, with
    single underscores between them.  [n] counts the digits read. *)
Fixpoint int_tail (acc : Z) (n : nat) (after_underscore : bool) (s : str)
    : option (Z * nat) :=
  match s with
  | [] => if after_underscore then None else Some (acc, n)
  | a :: t =>
      if is_digit a then int_tail (10 * acc + digit_value a) (S n) false t
      else if Ascii.eqb a "_" && negb after_underscore then int_tail acc n true t
      else None
  end.

Definition int_unsigned (s : str) : option (Z * nat) :=
  match s with
  | a :: t => if is_digit a then int_tail (digit_value a) 1 false t else None
  | [] => None
  end.

(** [sys.get_int_max_str_digits()], at its default. *)
Definition int_max_str_digits : nat := 4300.

(** [int(s)]: blanks around, an optional sign, a decimal literal;
    [ValueError] otherwise, and for more digits than the interpreter
    converts. *)
Definition int (s : str) : result Z :=
  let body := strip s in
  let '(sign, digits) :=
    match body with
    | a :: t =>
        if Ascii.eqb a "-" then (-1, t)
        else if Ascii.eqb a "+" then (1, t)
        else (1, body)
    | [] => (1, body)
    end in
  match int_unsigned digits with
  | Some (v, n) =>
      if (n <=? int_max_str_digits)%nat then Ok (sign * v) else Raise ValueError
  | None => Raise ValueError
  end.

(** [l.sort(key=key, reverse=True)]: stable, so elements with equal keys
    keep their order. *)
Fixpoint insert_desc {A} (key : A -> Z) (x : A) (l : list A) : list A :=
  match l with
  | [] => [x]
  | y :: l' => if key y <=? key x then x :: l else y :: insert_desc key x l'
  end.

Fixpoint sort_desc {A} (key : A -> Z) (l : list A) : list A :=
  match l with
  | [] => []
  | x :: l' => insert_desc key x (sort_desc key l')
  end.

End Py.

Import Py.

(** ** The regular expressions of the source

    The patterns of [bot.py] (and the one [datetime.strptime] builds for
    ["%d%m%y"]) use character classes, concatenation, alternation, groups,
    and the greedy quantifiers [*], [+] and [{n}] on a class.  [re_match] is
    the backtracking matcher of Python's [re] on that fragment: alternatives
    are tried left to right, a greedy quantifier takes as many characters as
    it can and gives them back one at a time. *)

Module Re.

Inductive re :=
| Cls (c : ascii -> bool)
| Cat (r1 r2 : re)
| Alt (r1 r2 : re)
| Star (c : ascii -> bool)
| Plus (c : ascii -> bool)
| Rep (n : nat) (c : ascii -> bool)
| Grp (r : re).

Definition chr (a : ascii) : re := Cls (Ascii.eqb a).

(** A letter under [re.IGNORECASE]. *)
Definition chr_i (a : ascii) : re :=
  Cls (fun b => Ascii.eqb (lower_char b) (lower_char a)).

Definition one_of (l : str) : ascii -> bool :=
  fun b => existsb (Ascii.eqb b) l.

Definition range (lo hi : ascii) : ascii -> bool :=
  fun b => ((code lo <=? code b) && (code b <=? code hi))%N.

Section Matcher.
Context {R : Type}.

Fixpoint star (c : ascii -> bool) (k : str -> option R) (s : str) : option R :=
  match s with
  | a :: t =>
      if c a then
        match star c k t with
        | Some x => Some x
        | None => k s
        end
      else k s
  | [] => k s
  end.

Fixpoint rep (n : nat) (c : ascii -> bool) (k : str -> option R) (s : str) : option R :=
  match n with
  | O => k s
  | S n' =>
      match s with
      | a :: t => if c a then rep n' c k t else None
      | [] => None
      end
  end.

(** The text a group consumed: from [s] up to the remainder [s']. *)
Definition consumed (s s' : str) : str :=
  firstn (length s - length s') s.

Fixpoint re_match (r : re) (s : str) (caps : list str)
    (k : str -> list str -> option R) : option R :=
  match r with
  | Cls c =>
      match s with
      | a :: t => if c a then k t caps else None
      | [] => None
      end
  | Cat r1 r2 => re_match r1 s caps (fun s' caps' => re_match r2 s' caps' k)
  | Alt r1 r2 =>
      match re_match r1 s caps k with
      | Some x => Some x
      | None => re_match r2 s caps k
      end
  | Star c => star c (fun s' => k s' caps) s
  | Plus c =>
      match s with
      | a :: t => if c a then star c (fun s' => k s' caps) t else None
      | [] => None
      end
  | Rep n c => rep n c (fun s' => k s' caps) s
  | Grp r1 => re_match r1 s caps (fun s' caps' => k s' (caps' ++ [consumed s s']))
  end.
End Matcher.

(** A match object: [raw[:m.start()]], the groups, [raw[m.end():]]. *)
Record match_obj := {
  m_pre : str;
  m_groups : list str;
  m_post : str
}.

(** [re.match(r, s)]: the groups and the text after [m.end()]. *)
Definition re_match_at (r : re) (s : str) : option (list str * str) :=
  re_match r s [] (fun s' caps => Some (caps, s')).

(** [re.search(r, pre + s)], scanning start positions from [len(pre)]. *)
Fixpoint re_search_from (r : re) (pre s : str) : option match_obj :=
  match re_match_at r s with
  | Some (caps, post) => Some {| m_pre := pre; m_groups := caps; m_post := post |}
  | None =>
      match s with
      | [] => None
      | a :: t => re_search_from r (pre ++ [a]) t
      end
  end.

Definition re_search (r : re) (s : str) : option match_obj :=
  re_search_from r [] s.

(** [m.group(i)], [i >= 1]. *)
Definition group (m : match_obj) (i : nat) : str :=
  nth (i - 1) (m_groups m) [].

(** [raw[:m.start()] + raw[m.end():]] *)
Definition cut (m : match_obj) : str := m_pre m ++ m_post m.

(** [re.sub(r"\s+", " ", s)]; [in_run] says that the previous character
    belonged to the run being replaced. *)
Fixpoint sub_spaces (in_run : bool) (s : str) : str :=
  match s with
  | [] => []
  | a :: t =>
      if is_space a then
        if in_run then sub_spaces true t else " "%char :: sub_spaces true t
      else a :: sub_spaces false t
  end.

End Re.

Import Re.

(** ** [parse_task] *)

Record parsed := {
  p_title : str;
  p_tag : option str;
  p_project : option str;
  p_priority_str : option str;
  p_date_str : option str
}.

(** [@(\S+)] *)
Definition tag_re : re := Cat (chr "@") (Grp (Plus non_space)).

(** [\|e\s*(\S+)] with [re.IGNORECASE] *)
Definition project_re : re :=
  Cat (chr "|") (Cat (chr_i "e") (Cat (Star is_space) (Grp (Plus non_space)))).

(** [\|p\s*([UuNn])\s*(\d)] *)
Definition priority_re : re :=
  Cat (chr "|") (Cat (chr "p") (Cat (Star is_space)
    (Cat (Grp (Cls (one_of (lit "UuNn")))) (Cat (Star is_space) (Grp (Cls is_digit)))))).

(** [\|f\s*(\d{6})] *)
Definition date_re : re :=
  Cat (chr "|") (Cat (chr "f") (Cat (Star is_space) (Grp (Rep 6 is_digit)))).

Definition parse_task (text : str) : parsed :=
  let raw := strip text in
  let '(tag, raw) :=
    match re_search tag_re raw with
    | Some m => (Some (upper (group m 1)), cut m)
    | None => (None, raw)
    end in
  let '(project, raw) :=
    match re_search project_re raw with
    | Some m => (Some (group m 1), cut m)
    | None => (None, raw)
    end in
  let '(priority_str, raw) :=
    match re_search priority_re raw with
    | Some m => (Some (upper (group m 1) ++ group m 2), cut m)
    | None => (None, raw)
    end in
  let '(date_str, raw) :=
    match re_search date_re raw with
    | Some m => (Some (group m 1), cut m)
    | None => (None, raw)
    end in
  let title := strip (sub_spaces false raw) in
  {| p_title := title; p_tag := tag; p_project := project;
     p_priority_str := priority_str; p_date_str := date_str |}.

(** ** Dates and [datetime.strptime(s, "%d%m%y")] *)

Module Date.

Record date := { year : Z; month : Z; day : Z }.

Definition is_leap (y : Z) : bool :=
  (y mod 4 =? 0) && (negb (y mod 100 =? 0) || (y mod 400 =? 0)).

Definition days_in_month (y m : Z) : Z :=
  if m =? 2 then (if is_leap y then 29 else 28)
  else if (m =? 4) || (m =? 6) || (m =? 9) || (m =? 11) then 30
  else 31.

(** Days of the months before [m] in a common year. *)
Definition days_before_month_common (m : Z) : Z :=
  nth (Z.to_nat (m - 1)) [0; 31; 59; 90; 120; 151; 181; 212; 243; 273; 304; 334] 0.

Definition days_before_month (y m : Z) : Z :=
  days_before_month_common m + (if (2 <? m) && is_leap y then 1 else 0).

Definition days_before_year (y : Z) : Z :=
  let y1 := y - 1 in y1 * 365 + y1 / 4 - y1 / 100 + y1 / 400.

(** [d.toordinal()] *)
Definition toordinal (d : date) : Z :=
  days_before_year (year d) + days_before_month (year d) (month d) + day d.

(** [(d1 - d2).days] *)
Definition days_between (d1 d2 : date) : Z := toordinal d1 - toordinal d2.

(** The regular expression [strptime] compiles ["%d%m%y"] to:
    [(?P<d>3[0-1]|[1-2]\d|0[1-9]|[1-9]| [1-9])(?P<m>1[0-2]|0[1-9]|[1-9])(?P<y>\d\d)] *)
Definition d_re : re :=
  Alt (Cat (chr "3") (Cls (range "0" "1")))
  (Alt (Cat (Cls (range "1" "2")) (Cls is_digit))
  (Alt (Cat (chr "0") (Cls (range "1" "9")))
  (Alt (Cls (range "1" "9"))
       (Cat (chr " ") (Cls (range "1" "9")))))).

Definition m_re : re :=
  Alt (Cat (chr "1") (Cls (range "0" "2")))
  (Alt (Cat (chr "0") (Cls (range "1" "9")))
       (Cls (range "1" "9"))).

Definition y_re : re := Cat (Cls is_digit) (Cls is_digit).

Definition ddmmyy_re : re := Cat (Grp d_re) (Cat (Grp m_re) (Grp y_re)).

(** [int(s)] for a matched group: digits, after leading blanks. *)
Definition int_digits (s : str) : Z :=
  fold_left (fun acc a => 10 * acc + digit_value a) (drop_while is_space s) 0.

(** [datetime.strptime(s, "%d%m%y").date()]: [ValueError] when the text
    does not match, when text remains after the match, or when the day is
    out of range for the month. *)
Definition strptime_ddmmyy (s : str) : result date :=
  match re_match_at ddmmyy_re s with
  | Some ([d; m; y], []) =>
      let yy := int_digits y in
      let year := if yy <=? 68 then 2000 + yy else 1900 + yy in
      let month := int_digits m in
      let day := int_digits d in
      if (1 <=? day) && (day <=? days_in_month year month)
      then Ok {| year := year; month := month; day := day |}
      else Raise ValueError
  | _ => Raise ValueError
  end.

End Date.

Import Date.

(** ** Scoring *)

(** [TAG_VALUES] *)
Definition TAG_VALUES : list (str * Z) :=
  [(lit "FGR", 3); (lit "CETS", 3); (lit "CS", 2)].

(** [d.get(k, default)] on a dictionary given by its items. *)
Fixpoint dict_get (d : list (str * Z)) (k : str) (default : Z) : Z :=
  match d with
  | [] => default
  | (k', v) :: d' => if str_eqb k' k then v else dict_get d' k default
  end.

Definition calc_date_value (today : date) (date_str : option str) : Z :=
  match date_str with
  | None => 0
  | Some [] => 0
  | Some s =>
      match strptime_ddmmyy s with
      | Ok d =>
          let delta := days_between d today in
          if delta <=? 0 then 3
          else if delta <=? 3 then 3
          else if delta <=? 15 then 2
          else 1
      | Raise _ => 0
      end
  end.

(** [int(c)] for a one-character string. *)
Definition int_char (c : ascii) : result Z :=
  if is_digit c then Ok (digit_value c) else Raise ValueError.

Definition calc_priority_value (priority_str : option str) : result Z :=
  match priority_str with
  | None => Ok 0
  | Some [] => Ok 0
  | Some (c0 :: rest) =>
      let urgency := if Ascii.eqb c0 "U" then 1 else -1 in
      match rest with
      | [] => Raise IndexError
      | c1 :: _ => bind (int_char c1) (fun num => Ok (urgency + num))
      end
  end.

Definition calc_total_score (today : date)
    (tag priority_str date_str : option str) : result Z :=
  let tag_val :=
    match tag with
    | None => 0
    | Some [] => 0
    | Some t => dict_get TAG_VALUES t 0
    end in
  bind (calc_priority_value priority_str) (fun pv =>
  Ok (tag_val + pv + calc_date_value today date_str)).

(** ** The [tasks] table *)

Module Store.

Record row := {
  row_id : Z;            (* column [id] *)
  user_id : Z;
  task_id : Z;
  title : str;
  tag : option str;
  project : option str;
  priority_str : option str;
  date_str : option str;
  done : bool
}.

(** The dictionary the client returns for a row; [get_tasks] adds the key
    ["_score"] to it. *)
Record rowdict := {
  d_row : row;
  d_score : option Z
}.

(** The record [handle_message] inserts: a row without [id]. *)
Record new_row := {
  n_user_id : Z;
  n_task_id : Z;
  n_title : str;
  n_tag : option str;
  n_project : option str;
  n_priority_str : option str;
  n_date_str : option str;
  n_done : bool
}.

(** The table: its rows in insertion order, and the value the identity
    column [id] gives to the next row inserted without one. *)
Record table := {
  rows : list row;
  next_id : Z
}.

Definition fetched (r : row) : rowdict := {| d_row := r; d_score := None |}.

(** [sb.table("tasks").select(...)... .execute().data] with the filter [p] *)
Definition sb_select (p : row -> bool) (t : table) : list rowdict :=
  map fetched (List.filter p (rows t)).

(** [.update(...).eq("id", rid).execute()] *)
Definition sb_update (f : row -> row) (rid : Z) (t : table) : table :=
  {| rows := map (fun r => if row_id r =? rid then f r else r) (rows t);
     next_id := next_id t |}.

(** [.delete().eq("id", rid).execute()] *)
Definition sb_delete (rid : Z) (t : table) : table :=
  {| rows := List.filter (fun r => negb (row_id r =? rid)) (rows t);
     next_id := next_id t |}.

(** [.insert(record).execute()] for a record without [id]: the new row. *)
Definition sb_insert_new (n : new_row) (t : table) : table * row :=
  let r := {| row_id := next_id t; user_id := n_user_id n; task_id := n_task_id n;
              title := n_title n; tag := n_tag n; project := n_project n;
              priority_str := n_priority_str n; date_str := n_date_str n;
              done := n_done n |} in
  ({| rows := rows t ++ [r]; next_id := next_id t + 1 |}, r).

(** [.insert(data).execute()] for a dictionary of a row: refused when the
    dictionary has a key that is no column, or an [id] already in use. *)
Definition sb_insert (d : rowdict) (t : table) : result table :=
  match d_score d with
  | Some _ => Raise APIError
  | None =>
      if existsb (fun r => row_id r =? row_id (d_row d)) (rows t)
      then Raise APIError
      else Ok {| rows := rows t ++ [d_row d]; next_id := next_id t |}
  end.

(** The five columns [/edit] can write. *)
Inductive db_field := Title | Tag | Project | Priority_str | Date_str.

(** [row[db_field]] *)
Definition get_field (f : db_field) (r : row) : option str :=
  match f with
  | Title => Some (title r)
  | Tag => tag r
  | Project => project r
  | Priority_str => priority_str r
  | Date_str => date_str r
  end.

Definition set_title (v : str) (r : row) : row :=
  {| row_id := row_id r; user_id := user_id r; task_id := task_id r;
     title := v; tag := tag r; project := project r;
     priority_str := priority_str r; date_str := date_str r; done := done r |}.

Definition set_tag (v : option str) (r : row) : row :=
  {| row_id := row_id r; user_id := user_id r; task_id := task_id r;
     title := title r; tag := v; project := project r;
     priority_str := priority_str r; date_str := date_str r; done := done r |}.

Definition set_project (v : option str) (r : row) : row :=
  {| row_id := row_id r; user_id := user_id r; task_id := task_id r;
     title := title r; tag := tag r; project := v;
     priority_str := priority_str r; date_str := date_str r; done := done r |}.

Definition set_priority_str (v : option str) (r : row) : row :=
  {| row_id := row_id r; user_id := user_id r; task_id := task_id r;
     title := title r; tag := tag r; project := project r;
     priority_str := v; date_str := date_str r; done := done r |}.

Definition set_date_str (v : option str) (r : row) : row :=
  {| row_id := row_id r; user_id := user_id r; task_id := task_id r;
     title := title r; tag := tag r; project := project r;
     priority_str := priority_str r; date_str := v; done := done r |}.

Definition set_done (v : bool) (r : row) : row :=
  {| row_id := row_id r; user_id := user_id r; task_id := task_id r;
     title := title r; tag := tag r; project := project r;
     priority_str := priority_str r; date_str := date_str r; done := v |}.

(** The update [{db_field: v}].  The title column holds text: the handlers
    write a [str] to it, or the title read from the row before. *)
Definition set_field (f : db_field) (v : option str) (r : row) : row :=
  match f with
  | Title => match v with Some s => set_title s r | None => r end
  | Tag => set_tag v r
  | Project => set_project v r
  | Priority_str => set_priority_str v r
  | Date_str => set_date_str v r
  end.

End Store.

Import Store.

(** ** Task numbers and listing *)

(** [range(a, b)] *)
Definition py_range (a b : Z) : list Z :=
  map (fun k => a + Z.of_nat k) (seq 0 (Z.to_nat (b - a))).

Definition eq_user_id (uid : Z) (r : row) : bool := user_id r =? uid.
Definition eq_task_id (tid : Z) (r : row) : bool := task_id r =? tid.
Definition eq_done (b : bool) (r : row) : bool := Bool.eqb (done r) b.

(** [.eq("tag", v)]: a NULL tag equals nothing. *)
Definition eq_tag (v : str) (r : row) : bool :=
  match tag r with
  | Some t => str_eqb t v
  | None => false
  end.

Definition next_available_id (db : table) (uid : Z) : Z :=
  let rows := sb_select (eq_user_id uid) db in
  let used : gset Z := list_to_set (map (fun d => task_id (d_row d)) rows) in
  match find (fun i => bool_decide (i ∉ used)) (py_range 1 100) with
  | Some i => i
  | None => 99
  end.

(** [x["_score"]], for a dictionary that has the key. *)
Definition score_key (d : rowdict) : Z :=
  match d_score d with
  | Some v => v
  | None => 0
  end.

(** The loop that stores the score of each fetched row. *)
Fixpoint score_rows (today : date) (l : list rowdict) : result (list rowdict) :=
  match l with
  | [] => Ok []
  | d :: l' =>
      let r := d_row d in
      bind (calc_total_score today (tag r) (priority_str r) (date_str r)) (fun sc =>
      bind (score_rows today l') (fun l'' =>
      Ok ({| d_row := r; d_score := Some sc |} :: l'')))
  end.

Section Handlers.

(** What the store's [ilike] decides: pattern, then column value. *)
Variable ilike : str -> str -> bool.

Definition ilike_project (pat : str) (r : row) : bool :=
  match project r with
  | Some p => ilike pat p
  | None => false
  end.

Definition get_tasks (today : date) (db : table) (uid : Z)
    (tag project : option str) : result (list rowdict) :=
  let q1 r := eq_user_id uid r && eq_done false r in
  let q2 r :=
    match tag with
    | Some ((_ :: _) as t) => q1 r && eq_tag (upper t) r
    | _ => q1 r
    end in
  let q3 r :=
    match project with
    | Some ((_ :: _) as p) => q2 r && ilike_project (lit "%" ++ p ++ lit "%") r
    | _ => q2 r
    end in
  let rows := sb_select q3 db in
  bind (score_rows today rows) (fun rows =>
  Ok (sort_desc score_key rows)).

(** ** The handlers *)

(** What [ctx.bot_data["undo_<user>"]] holds. *)
Inductive undo :=
| UCreate (row_id : Z)
| UDone (row_id : Z)
| UDoneAll (task_ids : list Z)
| UDelete (data : rowdict)
| UEdit (row_id : Z) (field : db_field) (old_value : option str).

Record state := {
  db : table;
  bot_data : gmap Z undo
}.

(** The texts of [reply_text], by message. *)
Inductive reply :=
| UsageDone                       (* Uso: /done ID *)
| UsageDel                        (* Uso: /del ID *)
| UsageEdit                       (* Uso: /edit ID campo valor ... *)
| IdNotNumber                     (* ID debe ser un numero. *)
| NotFound (task_id : Z)          (* Tarea #<task_id> no encontrada. *)
| NoPending                       (* No hay tareas pendientes. *)
| AllCompleted (n : nat)          (* <n> tareas completadas. *)
| Completed (title : str)         (* <title> completada. *)
| Deleted (title : str)           (* <title> eliminada. *)
| BadField (field : str)          (* Campo '<field>' no valido. ... *)
| Updated (task_id : Z) (field value : str)
                                  (* Tarea #<task_id> actualizada: ... *)
| NothingToUndo                   (* Nada que deshacer. *)
| TaskRestored                    (* Tarea restaurada. *)
| AllRestored (n : nat)           (* <n> tareas restauradas. *)
| Restored (title : str)          (* <title> restaurada. *)
| EditReverted                    (* Edicion revertida. *)
| TitleRequired                   (* La tarea necesita un titulo. *)
| Created (task_id : Z) (p : parsed).
                                  (* #<task_id> <title> @tag ... *)

(** How a handler ends: with a reply, without one, or in an exception. *)
Inductive outcome :=
| Replied (r : reply)
| Silent
| Raised (e : exn).

Definition set_db (st : state) (t : table) : state :=
  {| db := t; bot_data := bot_data st |}.

(** [ctx.bot_data[f"undo_{user_id}"] = u] *)
Definition set_undo (st : state) (uid : Z) (u : undo) : state :=
  {| db := db st; bot_data := <[uid := u]> (bot_data st) |}.

(** [.eq("user_id", user_id).eq("task_id", task_id).eq("done", False)] *)
Definition active_task (uid tid : Z) (r : row) : bool :=
  eq_user_id uid r && eq_task_id tid r && eq_done false r.

Definition mark_done (b : bool) (t : table) (rid : Z) : table :=
  sb_update (set_done b) rid t.

Definition cmd_done (today : date) (uid : Z) (args : list str) (st : state)
    : state * outcome :=
  match args with
  | [] => (st, Replied UsageDone)
  | a0 :: _ =>
      if str_eqb (lower a0) (lit "all") then
        match get_tasks today (db st) uid None None with
        | Raise e => (st, Raised e)
        | Ok [] => (st, Replied NoPending)
        | Ok tasks =>
            let ids := map (fun t => row_id (d_row t)) tasks in
            let st1 := set_db st (fold_left (mark_done true) ids (db st)) in
            (set_undo st1 uid (UDoneAll ids), Replied (AllCompleted (length tasks)))
        end
      else
        match int a0 with
        | Raise _ => (st, Replied IdNotNumber)
        | Ok task_id =>
            match sb_select (active_task uid task_id) (db st) with
            | [] => (st, Replied (NotFound task_id))
            | row0 :: _ =>
                let rid := row_id (d_row row0) in
                let st1 := set_db st (mark_done true (db st) rid) in
                (set_undo st1 uid (UDone rid), Replied (Completed (title (d_row row0))))
            end
        end
  end.

Definition cmd_del (uid : Z) (args : list str) (st : state) : state * outcome :=
  match args with
  | [] => (st, Replied UsageDel)
  | a0 :: _ =>
      match int a0 with
      | Raise _ => (st, Replied IdNotNumber)
      | Ok task_id =>
          match sb_select (active_task uid task_id) (db st) with
          | [] => (st, Replied (NotFound task_id))
          | row0 :: _ =>
              let st1 := set_db st (sb_delete (row_id (d_row row0)) (db st)) in
              (set_undo st1 uid (UDelete row0), Replied (Deleted (title (d_row row0))))
          end
      end
  end.

Definition field_map : list (str * db_field) :=
  [(lit "title", Title); (lit "tag", Tag); (lit "project", Project);
   (lit "priority", Priority_str); (lit "date", Date_str)].

(** [field_map[field]] when [field in field_map] *)
Fixpoint field_lookup (m : list (str * db_field)) (field : str) : option db_field :=
  match m with
  | [] => None
  | (k, v) :: m' => if str_eqb k field then Some v else field_lookup m' field
  end.

Definition cmd_edit (uid : Z) (args : list str) (st : state) : state * outcome :=
  match args with
  | a0 :: a1 :: ((_ :: _) as rest) =>
      match int a0 with
      | Raise _ => (st, Replied IdNotNumber)
      | Ok task_id =>
          let field := lower a1 in
          let value := join (lit " ") rest in
          match sb_select (active_task uid task_id) (db st) with
          | [] => (st, Replied (NotFound task_id))
          | row0 :: _ =>
              match field_lookup field_map field with
              | None => (st, Replied (BadField field))
              | Some db_field =>
                  let stored := if str_eqb field (lit "tag") then upper value else value in
                  let rid := row_id (d_row row0) in
                  let st1 := set_undo st uid
                               (UEdit rid db_field (get_field db_field (d_row row0))) in
                  let st2 := set_db st1
                               (sb_update (set_field db_field (Some stored)) rid (db st1)) in
                  (st2, Replied (Updated task_id field value))
              end
          end
      end
  | _ => (st, Replied UsageEdit)
  end.

(** The statement [data.pop("_score", None)] stands in the source one
    column to the left of its neighbours; it is read here as the second
    statement of the [delete] branch. *)
Definition cmd_undo (uid : Z) (st : state) : state * outcome :=
  match bot_data st !! uid with
  | None => (st, Replied NothingToUndo)
  | Some u =>
      let st1 := {| db := db st; bot_data := delete uid (bot_data st) |} in
      match u with
      | UDone rid =>
          (set_db st1 (mark_done false (db st1) rid), Replied TaskRestored)
      | UDoneAll ids =>
          (set_db st1 (fold_left (mark_done false) ids (db st1)),
           Replied (AllRestored (length ids)))
      | UDelete data =>
          let data := {| d_row := d_row data; d_score := None |} in
          match sb_insert data (db st1) with
          | Ok t => (set_db st1 t, Replied (Restored (title (d_row data))))
          | Raise e => (st1, Raised e)
          end
      | UEdit rid field old_value =>
          (set_db st1 (sb_update (set_field field old_value) rid (db st1)),
           Replied EditReverted)
      | UCreate _ => (st1, Silent)
      end
  end.

Definition handle_message (today : date) (uid : Z) (message_text : str)
    (st : state) : state * outcome :=
  let text := strip message_text in
  match text with
  | [] => (st, Silent)
  | _ =>
      let p := parse_task text in
      match p_title p with
      | [] => (st, Replied TitleRequired)
      | _ =>
          let task_id := next_available_id (db st) uid in
          let record := {| n_user_id := uid; n_task_id := task_id;
                           n_title := p_title p; n_tag := p_tag p;
                           n_project := p_project p;
                           n_priority_str := p_priority_str p;
                           n_date_str := p_date_str p; n_done := false |} in
          let '(t, inserted) := sb_insert_new record (db st) in
          let st1 := set_undo (set_db st t) uid (UCreate (row_id inserted)) in
          match calc_total_score today (p_tag p) (p_priority_str p) (p_date_str p) with
          | Raise e => (st1, Raised e)
          | Ok _ => (st1, Replied (Created task_id p))
          end
      end
  end.

End Handlers.

(** ** What the specification says, in its own words *)

(** The numbers of the owner's rows, and of the owner's active rows. *)
Definition owner_number (t : table) (uid n : Z) : Prop :=
  exists r, In r (rows t) /\ user_id r = uid /\ task_id r = n.

Definition active_number (t : table) (uid n : Z) : Prop :=
  exists r, In r (rows t) /\ user_id r = uid /\ done r = false /\ task_id r = n.

(** [n] is the number the specification gives to a new task when the
    numbers in [used] are taken: the smallest of 1..99 not in [used], and
    99 when all of them are. *)
Definition smallest_free (used : Z -> Prop) (n : Z) : Prop :=
  1 <= n <= 99 /\
  (forall j, 1 <= j < n -> used j) /\
  (~ used n \/ (n = 99 /\ forall j, 1 <= j <= 99 -> used j)).

(** A priority code: [U] or [N], then a digit. *)
Definition priority_code (p : str) : Prop :=
  exists c d, p = [c; d] /\ (c = "U"%char \/ c = "N"%char) /\ is_digit d = true.

(** The three summands of the score, as the specification words them. *)
Definition tag_weight (tag : option str) (w : Z) : Prop :=
  (tag = Some (lit "FGR") -> w = 3) /\
  (tag = Some (lit "CETS") -> w = 3) /\
  (tag = Some (lit "CS") -> w = 2) /\
  (tag <> Some (lit "FGR") -> tag <> Some (lit "CETS") -> tag <> Some (lit "CS") ->
   w = 0).

Definition priority_value (priority : option str) (v : Z) : Prop :=
  (priority = None -> v = 0) /\
  (forall d, priority = Some ["U"%char; d] -> v = 1 + digit_value d) /\
  (forall d, priority = Some ["N"%char; d] -> v = -1 + digit_value d).

Definition date_value (today : date) (due : option str) (v : Z) : Prop :=
  (due = None -> v = 0) /\
  (forall s e, due = Some s -> strptime_ddmmyy s = Raise e -> v = 0) /\
  (forall s d, due = Some s -> strptime_ddmmyy s = Ok d ->
     let delta := days_between d today in
     (delta <= 3 -> v = 3) /\
     (3 < delta <= 15 -> v = 2) /\
     (15 < delta -> v = 1)).

(** ** Example data *)

Definition task (i uid n : Z) (t : string) (tg pr du : option string) (d : bool) : row :=
  {| row_id := i; user_id := uid; task_id := n; title := lit t;
     tag := option_map lit tg; project := None;
     priority_str := option_map lit pr; date_str := option_map lit du; done := d |}.

(** Owner 7 has one task, number 1, and it is completed. *)
Definition one_completed : table :=
  {| rows := [task 1 7 1 "Lavar ropa" None None None true]; next_id := 2 |}.

(** Owner 7 has the active tasks 1 and 3. *)
Definition one_and_three : table :=
  {| rows := [task 1 7 1 "Lavar ropa" None None None false;
              task 3 7 3 "Llamar doctor" None None None false];
     next_id := 4 |}.

Definition feb_10_2026 : date := {| year := 2026; month := 2; day := 10 |}.

(** ** The token grammar *)

Definition all (c : ascii -> bool) (s : str) : Prop := Forall (fun a => c a = true) s.

(** A token, with the value the parser stores for it. *)
Definition tag_token (tok value : str) : Prop :=
  exists run, tok = "@"%char :: run /\ run <> [] /\ all non_space run /\
    value = upper run.

Definition project_token (tok value : str) : Prop :=
  exists e ws run, tok = "|"%char :: e :: ws ++ run /\
    (e = "e"%char \/ e = "E"%char) /\ all is_space ws /\
    run <> [] /\ all non_space run /\ value = run.

Definition priority_token (tok value : str) : Prop :=
  exists ws1 l ws2 d, tok = "|"%char :: "p"%char :: ws1 ++ l :: ws2 ++ [d] /\
    all is_space ws1 /\ In l (lit "UuNn") /\ all is_space ws2 /\
    is_digit d = true /\ value = [upper_char l; d].

Definition date_token (tok value : str) : Prop :=
  exists ws ds, tok = "|"%char :: "f"%char :: ws ++ ds /\
    all is_space ws /\ length ds = 6%nat /\ all is_digit ds /\ value = ds.

(** The priority token as the specification words it: no blank between
    the letter and the digit. *)
Definition priority_token_spec (tok value : str) : Prop :=
  exists ws l d, tok = "|"%char :: "p"%char :: ws ++ [l; d] /\
    all is_space ws /\ In l (lit "UuNn") /\ is_digit d = true /\
    value = [upper_char l; d].

(** A run of non-blank characters ends where [post] starts. *)
Definition run_ends (post : str) : Prop :=
  match post with
  | [] => True
  | a :: _ => is_space a = true
  end.

Definition anywhere (post : str) : Prop := True.

(** One extraction step: from [raw], the leftmost token of the kind is
    taken out and gives the field; without a token, [raw] stays. *)
Definition extracts (token : str -> str -> Prop) (follow : str -> Prop)
    (raw : str) (field : option str) (raw' : str) : Prop :=
  match field with
  | Some v =>
      exists pre tok post,
        raw = pre ++ tok ++ post /\ token tok v /\ follow post /\
        raw' = pre ++ post /\
        (forall pre' tok' v' post', raw = pre' ++ tok' ++ post' -> token tok' v' ->
           (length pre <= length pre')%nat)
  | None =>
      raw' = raw /\
      (forall pre tok v post, raw = pre ++ tok ++ post -> ~ token tok v)
  end.

(** The value [parse_task] stores, from the groups of the match. *)
Definition tag_value (g : list str) : str := upper (nth 0 g []).
Definition project_value (g : list str) : str := nth 0 g [].
Definition priority_value_of (g : list str) : str := upper (nth 0 g []) ++ nth 1 g [].
Definition date_value_of (g : list str) : str := nth 0 g [].

(** What a parse of [text] is: the four tokens are taken out one after the
    other, each from what the ones before left, and the title is the rest,
    blanks collapsed and trimmed: its words, with one space between them.  [priority_tok] is the grammar of the
    priority token. *)
Definition parse_of (priority_tok : str -> str -> Prop) (text : str) (p : parsed) : Prop :=
  exists r1 r2 r3 r4,
    extracts tag_token run_ends (strip text) (p_tag p) r1 /\
    extracts project_token run_ends r1 (p_project p) r2 /\
    extracts priority_tok anywhere r2 (p_priority_str p) r3 /\
    extracts date_token anywhere r3 (p_date_str p) r4 /\
    p_title p = strip (sub_spaces false r4) /\
    p_title p = join (lit " ") (str_split r4).

(** The line of the help text and its parse. *)
Definition help_line : str := lit "Revisar doc @FGR |e Sellout |pU2 |f150226".

Definition help_line_parsed : parsed :=
  {| p_title := lit "Revisar doc"; p_tag := Some (lit "FGR");
     p_project := Some (lit "Sellout"); p_priority_str := Some (lit "U2");
     p_date_str := Some (lit "150226") |}.

(** ** Sessions *)

(** What a user sends: a text that is no command, or one of the commands
    with its arguments. *)
Inductive command :=
| Text (message_text : str)
| Done (args : list str)
| Del (args : list str)
| Edit (args : list str)
| Undo.

Section Sessions.
Variable ilike : str -> str -> bool.
Variable today : date.

Definition handle (uid : Z) (c : command) (st : state) : state * outcome :=
  match c with
  | Text t => handle_message today uid t st
  | Done args => cmd_done ilike today uid args st
  | Del args => cmd_del uid args st
  | Edit args => cmd_edit uid args st
  | Undo => cmd_undo uid st
  end.

(** The state after the updates of [l], each with its sender. *)
Definition session (l : list (Z * command)) (st : state) : state :=
  fold_left (fun s uc => fst (handle (fst uc) (snd uc) s)) l st.
End Sessions.

(** No task of the owner has the number and is active. *)
Definition unresolved (t : table) (uid n : Z) : Prop :=
  forall r, In r (rows t) -> user_id r = uid -> task_id r = n -> done r = true.

(** An empty table and no pending undo. *)
Definition start : state :=
  {| db := {| rows := []; next_id := 1 |}; bot_data := ∅ |}.

Definition no_ilike (pat s : str) : bool := false.

(** ** Listing *)

(** The total score of a row on the day [today]. *)
Definition row_score (today : date) (r : row) : result Z :=
  calc_total_score today (tag r) (priority_str r) (date_str r).

(** Priorities whose value [calc_priority_value] computes: none, or a
    text whose second character is a digit. *)
Definition scorable (p : option str) : Prop :=
  p = None \/ p = Some [] \/
  exists c d rest, p = Some (c :: d :: rest) /\ is_digit d = true.

(** [d] is the row [r] with its score under the key ["_score"]. *)
Definition scored (today : date) (r d : rowdict) : Prop :=
  d_row d = d_row r /\ row_score today (d_row r) = Ok (score_key d) /\
  d_score d = Some (score_key d).

(** [a] stands before [b] in [l]. *)
Definition before {A} (a b : A) (l : list A) : Prop :=
  exists l1 l2 l3, l = l1 ++ a :: l2 ++ b :: l3.

(** Owner 7 wrote a task that scores 0 and then one that scores 8 on
    10 February 2026. *)
Definition two_tasks : table :=
  {| rows := [task 1 7 1 "Lavar ropa" None (Some "N1"%string) None false;
              task 2 7 2 "Revisar doc" (Some "FGR"%string) (Some "U2"%string)
                (Some "150226"%string) false];
     next_id := 3 |}.

(** Owner 7 has the active tasks 1 and 3, and nothing to undo. *)
Definition session_one_and_three : state :=
  {| db := one_and_three; bot_data := ∅ |}.

(** Owner 7 wrote one task, with the shorthand of the help text. *)
Definition after_lavar_ropa : state :=
  fst (handle_message feb_10_2026 7 (lit "Lavar ropa |pU2") start).

(** ** The order of the four steps *)

Inductive matcher := MTag | MProject | MPriority | MDate.

Definition matcher_eqb (k k' : matcher) : bool :=
  match k, k' with
  | MTag, MTag | MProject, MProject | MPriority, MPriority | MDate, MDate => true
  | _, _ => false
  end.

(** One step of [parse_task]; the title field holds the working text
    [raw]. *)
Definition apply_matcher (acc : parsed) (k : matcher) : parsed :=
  let raw := p_title acc in
  match k with
  | MTag =>
      match re_search tag_re raw with
      | Some m =>
          {| p_title := cut m; p_tag := Some (upper (group m 1));
             p_project := p_project acc; p_priority_str := p_priority_str acc;
             p_date_str := p_date_str acc |}
      | None => acc
      end
  | MProject =>
      match re_search project_re raw with
      | Some m =>
          {| p_title := cut m; p_tag := p_tag acc;
             p_project := Some (group m 1); p_priority_str := p_priority_str acc;
             p_date_str := p_date_str acc |}
      | None => acc
      end
  | MPriority =>
      match re_search priority_re raw with
      | Some m =>
          {| p_title := cut m; p_tag := p_tag acc;
             p_project := p_project acc;
             p_priority_str := Some (upper (group m 1) ++ group m 2);
             p_date_str := p_date_str acc |}
      | None => acc
      end
  | MDate =>
      match re_search date_re raw with
      | Some m =>
          {| p_title := cut m; p_tag := p_tag acc;
             p_project := p_project acc; p_priority_str := p_priority_str acc;
             p_date_str := Some (group m 1) |}
      | None => acc
      end
  end.

(** [parse_task] with its four steps taken in the order [order]. *)
Definition parse_in_order (order : list matcher) (text : str) : parsed :=
  let acc := fold_left apply_matcher order
               {| p_title := strip text; p_tag := None; p_project := None;
                  p_priority_str := None; p_date_str := None |} in
  {| p_title := strip (sub_spaces false (p_title acc)); p_tag := p_tag acc;
     p_project := p_project acc; p_priority_str := p_priority_str acc;
     p_date_str := p_date_str acc |}.

(** The order of the source. *)
Definition source_order : list matcher := [MTag; MProject; MPriority; MDate].

Definition pattern (k : matcher) : re :=
  match k with
  | MTag => tag_re
  | MProject => project_re
  | MPriority => priority_re
  | MDate => date_re
  end.

Definition value_of (k : matcher) : list str -> str :=
  match k with
  | MTag => tag_value
  | MProject => project_value
  | MPriority => priority_value_of
  | MDate => date_value_of
  end.

(** ** Lines of complete tokens *)

(** The characters that start a marker. *)
Definition marker (a : ascii) : bool := Ascii.eqb a "@" || Ascii.eqb a "|".

Definition plain (s : str) : Prop := all (fun a => negb (marker a)) s.

(** A line, cut into stretches without marker characters and tokens with
    their kinds and values. *)
Inductive piece :=
| Plain (s : str)
| Token (k : matcher) (tok value : str).

Definition token_of (k : matcher) : str -> str -> Prop :=
  match k with
  | MTag => tag_token
  | MProject => project_token
  | MPriority => priority_token
  | MDate => date_token
  end.

(** What must follow a token of the kind: a run ends at a blank or at the
    end of the line. *)
Definition follows (k : matcher) (post : str) : Prop :=
  match k with
  | MTag | MProject => run_ends post
  | MPriority | MDate => True
  end.

Fixpoint text_of (l : list piece) : str :=
  match l with
  | [] => []
  | Plain s :: l' => s ++ text_of l'
  | Token _ tok _ :: l' => tok ++ text_of l'
  end.

(** Every token is complete, holds no marker character after its first
    character, and ends where its run ends. *)
Fixpoint well_formed (l : list piece) : Prop :=
  match l with
  | [] => True
  | Plain s :: l' => plain s /\ well_formed l'
  | Token k tok v :: l' =>
      token_of k tok v /\ plain (tl tok) /\ follows k (text_of l') /\ well_formed l'
  end.

(** The help line in pieces. *)
Definition help_line_pieces : list piece :=
  [Plain (lit "Revisar doc "); Token MTag (lit "@FGR") (lit "FGR");
   Plain (lit " "); Token MProject (lit "|e Sellout") (lit "Sellout");
   Plain (lit " "); Token MPriority (lit "|pU2") (lit "U2");
   Plain (lit " "); Token MDate (lit "|f150226") (lit "150226")].

(** The value of the first token of the kind, and the line without it. *)
Fixpoint find_token (k : matcher) (l : list piece) : option str :=
  match l with
  | [] => None
  | Plain _ :: l' => find_token k l'
  | Token k' _ v :: l' => if matcher_eqb k k' then Some v else find_token k l'
  end.

Fixpoint remove_token (k : matcher) (l : list piece) : list piece :=
  match l with
  | [] => []
  | Plain s :: l' => Plain s :: remove_token k l'
  | Token k' tok v :: l' =>
      if matcher_eqb k k' then l' else Token k' tok v :: remove_token k l'
  end.

(** No match of the pattern starts inside [s], whatever follows [s]. *)
Definition quiet (r : re) (s : str) : Prop :=
  forall s1 s2 rest, s = s1 ++ s2 -> s2 <> [] -> re_match_at r (s2 ++ rest) = None.

(** The line without the first token of each kind in [ks]. *)
Definition removes (ks : list matcher) (l : list piece) : list piece :=
  fold_left (fun l' k => remove_token k l') ks l.

(** The steps of [ks] done on the line [l]: the fields found, and in the
    title field the text that is left. *)
Definition steps_on (ks : list matcher) (l : list piece) : parsed :=
  let field k := if existsb (matcher_eqb k) ks then find_token k l else None in
  {| p_title := text_of (removes ks l);
     p_tag := field MTag; p_project := field MProject;
     p_priority_str := field MPriority; p_date_str := field MDate |}.

(** The four steps, last to first. *)
Definition reverse_order : list matcher := [MDate; MPriority; MProject; MTag].

(** ** Lines whose tokens do not interfere *)

(** No match of the pattern starts inside [s] when [rest] follows [s]. *)
Definition silent (r : re) (s rest : str) : Prop :=
  forall s1 s2, s = s1 ++ s2 -> s2 <> [] -> re_match_at r (s2 ++ rest) = None.

(** A line in pieces: stretches and complete tokens such that, in the line
    and in what is left of it once tokens were taken out, no pattern matches
    from inside a stretch or from inside a token of another kind, and every
    token is followed by what its kind needs.  A stretch may hold [@] and
    [|] where they start no token. *)
Fixpoint orderly (l : list piece) : Prop :=
  match l with
  | [] => True
  | Plain s :: l' =>
      (forall k ks, silent (pattern k) s (text_of (removes ks l'))) /\ orderly l'
  | Token k tok v :: l' =>
      token_of k tok v /\
      (forall k' ks, matcher_eqb k' k = false ->
         silent (pattern k') tok (text_of (removes ks l'))) /\
      (forall ks, follows k (text_of (removes ks l'))) /\
      orderly l'
  end.

(** ** Consistent states *)

(** The rows of an owner, in the order of the table. *)
Definition owner_rows (uid : Z) (t : table) : list row :=
  List.filter (eq_user_id uid) (rows t).

(** The columns no handler writes after the insert of a row. *)
Definition key (r : row) : Z * Z * Z := (row_id r, user_id r, task_id r).

(** The row an update [f] of the row with the id [rid] leaves for [r]. *)
Definition updated (f : row -> row) (rid : Z) (r : row) : row :=
  if row_id r =? rid then f r else r.

(** [f] writes none of the key columns. *)
Definition keeps (f : row -> row) : Prop := forall r, key (f r) = key r.

(** The table holds a row with the id [rid], and it is a row of [uid]. *)
Definition has_id (t : table) (rid uid : Z) : Prop :=
  exists r, In r (rows t) /\ row_id r = rid /\ user_id r = uid.

(** Ids are unique and were issued by the identity column; task numbers
    are in 1..99, and two rows of one owner share none below 99. *)
Record table_ok (t : table) : Prop := {
  ids_unique : List.NoDup (map row_id (rows t));
  ids_issued : forall r, In r (rows t) -> row_id r < next_id t;
  numbers_in_range : forall r, In r (rows t) -> 1 <= task_id r <= 99;
  numbers_unique : forall r1 r2, In r1 (rows t) -> In r2 (rows t) ->
    user_id r1 = user_id r2 -> task_id r1 = task_id r2 -> task_id r1 < 99 ->
    row_id r1 = row_id r2
}.

(** What the undo slot of [uid] may hold beside the table [t]: the id of
    one of the owner's rows, or a deleted row of the owner whose id is in no
    row, and whose number, below 99, is on no row of the owner. *)
Definition slot_ok (t : table) (uid : Z) (u : undo) : Prop :=
  match u with
  | UCreate rid => has_id t rid uid
  | UDone rid => has_id t rid uid
  | UEdit rid _ _ => has_id t rid uid
  | UDoneAll ids => forall rid, In rid ids -> has_id t rid uid
  | UDelete d =>
      user_id (d_row d) = uid /\
      row_id (d_row d) < next_id t /\
      (forall r, In r (rows t) -> row_id r <> row_id (d_row d)) /\
      1 <= task_id (d_row d) <= 99 /\
      (task_id (d_row d) < 99 ->
       forall r, In r (rows t) -> user_id r = uid -> task_id r <> task_id (d_row d))
  end.

(** The table is in order, every undo slot fits it, and two owners hold no
    deleted row under one id. *)
Record consistent (st : state) : Prop := {
  table_consistent : table_ok (db st);
  slots_consistent : forall uid u, bot_data st !! uid = Some u -> slot_ok (db st) uid u;
  deleted_distinct : forall u1 u2 d1 d2, u1 <> u2 ->
    bot_data st !! u1 = Some (UDelete d1) -> bot_data st !! u2 = Some (UDelete d2) ->
    row_id (d_row d1) <> row_id (d_row d2)
}.

(** The replies that refuse a command. *)
Definition refusal (o : outcome) : Prop :=
  match o with
  | Replied r =>
      match r with
      | UsageDone | UsageDel | UsageEdit | IdNotNumber | NotFound _ | NoPending
      | BadField _ | NothingToUndo | TitleRequired => True
      | _ => False
      end
  | Silent => False
  | Raised _ => False
  end.

(** ** Texts a pattern accepts *)


(** ** Showing dates and tasks *)

(** The character of a decimal digit. *)
Definition digit_char (n : Z) : ascii := ascii_of_N (48 + Z.to_N n).

(** A number below 100 as [strftime] writes it for [%d], [%m] and [%y]. *)
Definition two_digits (n : Z) : str := [digit_char (n / 10); digit_char (n mod 10)].

(** [d.strftime("%d/%m/%y")] *)
Definition strftime_dmy (d : date) : str :=
  two_digits (day d) ++ lit "/" ++ two_digits (month d) ++ lit "/"
    ++ two_digits (year d mod 100).

Definition format_date (date_str : option str) : str :=
  match date_str with
  | None => []
  | Some [] => []
  | Some s =>
      match strptime_ddmmyy s with
      | Ok d => strftime_dmy d
      | Raise _ => s
      end
  end.


(** [str(n)] *)
Definition str_of_int (n : Z) : str := lit (NilEmpty.string_of_int (Z.to_int n)).

(** [enumerate(l, i)] *)
Fixpoint enumerate {A} (i : Z) (l : list A) : list (Z * A) :=
  match l with
  | [] => []
  | x :: l' => (i, x) :: enumerate (i + 1) l'
  end.

(** [s.startswith(p)] *)
Definition startswith (p s : str) : bool := str_eqb (firstn (length p) s) p.

(** The truth value of [t.get(key)] and of an optional argument: false for
    [None] and for the empty text. *)
Definition truthy (o : option str) : bool :=
  match o with
  | Some (_ :: _) => true
  | _ => false
  end.

Definition or_empty (o : option str) : str :=
  match o with
  | Some s => s
  | None => []
  end.

Section Listing.

Variable ilike : str -> str -> bool.

(** The texts of the characters U+1F4C5 (calendar), U+1F4ED (mailbox),
    U+1F4CB (clipboard) and U+2014 (dash), which are no ASCII. *)
Variable calendar : str.
Variable mailbox : str.
Variable clipboard : str.
Variable dash : str.

Definition format_task (t : rowdict) (idx : Z) : str :=
  let r := d_row t in
  let parts := [str_of_int idx ++ lit ". " ++ title r] in
  let parts :=
    if truthy (tag r) then parts ++ [lit "@" ++ or_empty (tag r)] else parts in
  let parts :=
    if truthy (project r) then parts ++ [lit "|e " ++ or_empty (project r)] else parts in
  let parts :=
    if truthy (priority_str r) then parts ++ [lit "|p " ++ or_empty (priority_str r)]
    else parts in
  let parts :=
    if truthy (date_str r) then parts ++ [calendar ++ format_date (date_str r)]
    else parts in
  join (lit " ") parts.

(** The text [cmd_show] replies with; the handler writes nothing. *)
Definition cmd_show (today : date) (uid : Z) (args : list str) (t : table)
    : result str :=
  let '(tag, project) :=
    match args with
    | [] => (None, None)
    | _ =>
        let text := join (lit " ") args in
        if startswith (lit "@") text then (Some (skipn 1 text), None)
        else if startswith (lit "p ") (lower text)
             then (None, Some (strip (skipn 2 text)))
        else (None, Some text)
    end in
  bind (get_tasks ilike today t uid tag project) (fun tasks =>
  match tasks with
  | [] =>
      let label :=
        if truthy tag then lit " con @" ++ upper (or_empty tag)
        else if truthy project then lit " en proyecto '" ++ or_empty project ++ lit "'"
        else [] in
      Ok (mailbox ++ lit " No hay tareas" ++ label ++ lit ".")
  | _ =>
      let header := clipboard ++ lit " *Tareas*" in
      let header :=
        if truthy tag then header ++ lit " @" ++ upper (or_empty tag) else header in
      let header :=
        if truthy project then header ++ lit " " ++ dash ++ lit " " ++ or_empty project
        else header in
      let lines :=
        [header; []] ++ map (fun it => format_task (snd it) (fst it)) (enumerate 1 tasks) in
      Ok (join ["010"%char] lines)
  end).

End Listing.

(** The row with another task number, and the table with the numbers
    [number] gives to its rows. *)
Definition set_task_id (n : Z) (r : row) : row :=
  {| row_id := row_id r; user_id := user_id r; task_id := n;
     title := title r; tag := tag r; project := project r;
     priority_str := priority_str r; date_str := date_str r; done := done r |}.

Definition renumber (number : row -> Z) (t : table) : table :=
  {| rows := map (fun r => set_task_id (number r) r) (rows t); next_id := next_id t |}.

(** A fetched row with the number [number] gives to it. *)
Definition renumbered (number : row -> Z) (d : rowdict) : rowdict :=
  {| d_row := set_task_id (number (d_row d)) (d_row d); d_score := d_score d |}.

(** * Properties *)

#[local] Arguments Ascii.eqb : simpl never.
#[local] Arguments lower_char : simpl never.

(** * Character classes *)

Lemma digit_non_space (a : ascii) : is_digit a = true -> is_space a = false.
Proof.
  destruct a as [b0 b1 b2 b3 b4 b5 b6 b7].
  destruct b0, b1, b2, b3, b4, b5, b6, b7; vm_compute;
    intros H; solve [reflexivity | discriminate H].
Qed.

Lemma one_of_In (l : str) (a : ascii) : one_of l a = true <-> In a l.
Proof.
  unfold one_of. rewrite existsb_exists. split.
  - intros (x & Hx & He). apply Ascii.eqb_eq in He. now subst.
  - intros H. exists a. split; [exact H | apply Ascii.eqb_refl].
Qed.

Lemma letter_non_space (a : ascii) : In a (lit "UuNn") -> is_space a = false.
Proof. simpl. intros [<-|[<-|[<-|[<-|[]]]]]; reflexivity. Qed.

(** * Runs *)

Lemma take_drop_while (c : ascii -> bool) (s : str) :
  take_while c s ++ drop_while c s = s.
Proof. induction s as [|a s IH]; simpl; [reflexivity|]. destruct (c a); simpl; congruence. Qed.

Lemma all_take_while (c : ascii -> bool) (s : str) : all c (take_while c s).
Proof.
  induction s as [|a s IH]; simpl; [constructor|].
  destruct (c a) eqn:E; constructor; assumption.
Qed.

Lemma drop_while_head (c : ascii -> bool) (s : str) :
  match drop_while c s with
  | [] => True
  | a :: _ => c a = false
  end.
Proof. induction s as [|a s IH]; simpl; [exact I|]. destruct (c a) eqn:E; [exact IH | exact E]. Qed.

Lemma drop_while_all (c : ascii -> bool) (ws rest : str) :
  all c ws -> drop_while c (ws ++ rest) = drop_while c rest.
Proof. induction 1 as [|a ws Ha _ IH]; simpl; [reflexivity|]. now rewrite Ha. Qed.

Lemma take_while_all (c : ascii -> bool) (ws rest : str) :
  all c ws -> take_while c (ws ++ rest) = ws ++ take_while c rest.
Proof. induction 1 as [|a ws Ha _ IH]; simpl; [reflexivity|]. rewrite Ha. now f_equal. Qed.

Lemma drop_while_stop (c : ascii -> bool) (a : ascii) (s : str) :
  c a = false -> drop_while c (a :: s) = a :: s.
Proof. intros H. simpl. now rewrite H. Qed.

Lemma consumed_app (x y : str) : consumed (x ++ y) y = x.
Proof.
  unfold consumed. rewrite length_app.
  replace (length x + length y - length y)%nat with (length x) by lia.
  rewrite firstn_app, firstn_all, Nat.sub_diag. simpl. apply app_nil_r.
Qed.

Lemma consumed_cons (a : ascii) (x y : str) : consumed (a :: x ++ y) y = a :: x.
Proof. apply (consumed_app (a :: x) y). Qed.

(** * The greedy quantifiers never need to give characters back here *)

Lemma star_greedy {R} (c : ascii -> bool) (k : str -> option R) (s : str) (x : R) :
  k (drop_while c s) = Some x -> star c k s = Some x.
Proof.
  induction s as [|a s IH]; simpl; [auto|].
  destruct (c a); [|auto]. intros H. now rewrite (IH H).
Qed.

Lemma star_disjoint {R} (c : ascii -> bool) (k : str -> option R) (s : str) :
  (forall a t, c a = true -> k (a :: t) = None) ->
  star c k s = k (drop_while c s).
Proof.
  intros Hk. induction s as [|a s IH]; simpl; [reflexivity|].
  destruct (c a) eqn:E; [|reflexivity].
  rewrite IH. destruct (k (drop_while c s)) eqn:E'; [reflexivity|]. now apply Hk.
Qed.

Lemma rep_spec {R} (n : nat) (c : ascii -> bool) (k : str -> option R) (s : str) :
  rep n c k s =
  if (n <=? length (take_while c (firstn n s)))%nat then k (skipn n s) else None.
Proof.
  revert s. induction n as [|n IH]; intros s; simpl; [reflexivity|].
  destruct s as [|a s]; simpl; [reflexivity|].
  destruct (c a); simpl; [apply IH | reflexivity].
Qed.

(** * [re.search] takes the leftmost start *)

Lemma re_search_from_spec (r : re) (pre s : str) :
  match re_search_from r pre s with
  | Some m =>
      exists skipped rest,
        s = skipped ++ rest /\ m_pre m = pre ++ skipped /\
        re_match_at r rest = Some (m_groups m, m_post m) /\
        forall s1 s2, s = s1 ++ s2 -> (length s1 < length skipped)%nat ->
          re_match_at r s2 = None
  | None => forall s1 s2, s = s1 ++ s2 -> re_match_at r s2 = None
  end.
Proof.
  revert pre. induction s as [|a s IH]; intros pre; simpl.
  - destruct (re_match_at r []) as [[caps post]|] eqn:E.
    + exists [], []. simpl. rewrite app_nil_r. repeat split; auto. intros; lia.
    + intros s1 s2 H. symmetry in H. apply app_eq_nil in H as [-> ->]. exact E.
  - destruct (re_match_at r (a :: s)) as [[caps post]|] eqn:E.
    + exists [], (a :: s). simpl. rewrite app_nil_r. repeat split; auto. intros; lia.
    + specialize (IH (pre ++ [a])). destruct (re_search_from r (pre ++ [a]) s) as [m|].
      * destruct IH as (sk & rest & -> & Hp & Hm & Hl).
        exists (a :: sk), rest. simpl. rewrite Hp, <- app_assoc. repeat split; auto.
        intros [|b s1] s2 H Hlen; simpl in *.
        -- now subst s2.
        -- injection H as -> H. apply (Hl s1 s2 H). lia.
      * intros [|b s1] s2 H; simpl in *.
        -- now subst s2.
        -- injection H as -> H. now apply (IH s1 s2).
Qed.

Lemma consumed_take (c : ascii -> bool) (b : ascii) (t : str) :
  consumed (b :: t) (drop_while c t) = b :: take_while c t.
Proof. rewrite <- (take_drop_while c t) at 1. apply consumed_cons. Qed.

Lemma consumed_skipn (n : nat) (s : str) : consumed s (skipn n s) = firstn n s.
Proof.
  unfold consumed. rewrite length_skipn.
  destruct (Nat.le_gt_cases n (length s)) as [H|H].
  - f_equal. lia.
  - rewrite (firstn_all2 (n:=n)) by lia. apply firstn_all2. lia.
Qed.

Lemma space_not_non_space (a : ascii) : is_space a = true -> non_space a = false.
Proof. unfold non_space. now intros ->. Qed.

(** * The four patterns, in closed form *)


Lemma tag_match_eq (s : str) :
  re_match_at tag_re s =
  match s with
  | a :: b :: t =>
      if Ascii.eqb "@" a && non_space b
      then Some ([b :: take_while non_space t], drop_while non_space t)
      else None
  | _ => None
  end.
Proof.
  unfold re_match_at, tag_re, chr. simpl.
  destruct s as [|a [|b t]]; [reflexivity | now destruct (Ascii.eqb "@" a) |].
  destruct (Ascii.eqb "@" a); [|reflexivity]. simpl.
  destruct (non_space b); [|reflexivity].
  erewrite star_greedy; [|reflexivity]. now rewrite consumed_take.
Qed.

Lemma project_match_eq (s : str) :
  re_match_at project_re s =
  match s with
  | a :: e :: t =>
      if Ascii.eqb "|" a && Ascii.eqb (lower_char e) "e" then
        match drop_while is_space t with
        | b :: t' =>
            if non_space b
            then Some ([b :: take_while non_space t'], drop_while non_space t')
            else None
        | [] => None
        end
      else None
  | _ => None
  end.
Proof.
  unfold re_match_at, project_re, chr, chr_i. simpl.
  destruct s as [|a [|e t]]; [reflexivity | now destruct (Ascii.eqb "|" a) |].
  destruct (Ascii.eqb "|" a); [|reflexivity]. simpl.
  change (lower_char "e") with "e"%char.
  destruct (Ascii.eqb (lower_char e) "e"); [|reflexivity].
  rewrite star_disjoint.
  - destruct (drop_while is_space t) as [|b t']; [reflexivity|].
    destruct (non_space b); [|reflexivity].
    erewrite star_greedy; [|reflexivity]. now rewrite consumed_take.
  - intros a' t' Ha. now rewrite (space_not_non_space a' Ha).
Qed.

Lemma priority_match_eq (s : str) :
  re_match_at priority_re s =
  match s with
  | a :: p :: t =>
      if Ascii.eqb "|" a && Ascii.eqb "p" p then
        match drop_while is_space t with
        | l :: t1 =>
            if one_of (lit "UuNn") l then
              match drop_while is_space t1 with
              | d :: t2 => if is_digit d then Some ([[l]; [d]], t2) else None
              | [] => None
              end
            else None
        | [] => None
        end
      else None
  | _ => None
  end.
Proof.
  unfold re_match_at, priority_re, chr. simpl.
  destruct s as [|a [|p t]]; [reflexivity | now destruct (Ascii.eqb "|" a) |].
  destruct (Ascii.eqb "|" a); [|reflexivity]. simpl.
  destruct (Ascii.eqb "p" p); [|reflexivity].
  rewrite star_disjoint.
  - destruct (drop_while is_space t) as [|l t1]; [reflexivity|].
    match goal with |- context [if ?b then star _ _ _ else None] => destruct b end;
      [|reflexivity].
    rewrite star_disjoint.
    + destruct (drop_while is_space t1) as [|d t2]; [reflexivity|].
      destruct (is_digit d); [|reflexivity].
      change (l :: t1) with ([l] ++ t1). change (d :: t2) with ([d] ++ t2).
      now rewrite !consumed_app.
    + intros a' t' Ha. destruct (is_digit a') eqn:Hd; [|reflexivity].
      apply digit_non_space in Hd. congruence.
  - intros a' t' Ha.
    match goal with |- (if ?b then _ else None) = None => destruct b eqn:Hl end;
      [|reflexivity].
    apply (proj1 (one_of_In (lit "UuNn") a')), letter_non_space in Hl. congruence.
Qed.

Lemma date_match_eq (s : str) :
  re_match_at date_re s =
  match s with
  | a :: f :: t =>
      if Ascii.eqb "|" a && Ascii.eqb "f" f then
        let t' := drop_while is_space t in
        if (6 <=? length (take_while is_digit (firstn 6 t')))%nat
        then Some ([firstn 6 t'], skipn 6 t')
        else None
      else None
  | _ => None
  end.
Proof.
  unfold re_match_at, date_re, chr. cbn [re_match].
  destruct s as [|a [|f t]]; [reflexivity | now destruct (Ascii.eqb "|" a) |].
  destruct (Ascii.eqb "|" a); [|reflexivity]. cbn [andb].
  destruct (Ascii.eqb "f" f); [|reflexivity].
  rewrite star_disjoint.
  - cbv beta zeta. rewrite rep_spec.
    destruct (6 <=? _)%nat; [|reflexivity].
    now rewrite consumed_skipn.
  - intros a' t' Ha. rewrite rep_spec.
    assert (Hd : is_digit a' = false).
    { destruct (is_digit a') eqn:Hd; [|reflexivity]. apply digit_non_space in Hd. congruence. }
    simpl. now rewrite Hd.
Qed.

(** * From a pattern to an extraction step *)

Section Extraction.
Variables (r : re) (value : list str -> str).
Variables (token : str -> str -> Prop) (follow : str -> Prop).

Hypothesis sound : forall s g post,
  re_match_at r s = Some (g, post) ->
  exists tok, s = tok ++ post /\ token tok (value g) /\ follow post.

Hypothesis complete : forall tok v post,
  token tok v -> re_match_at r (tok ++ post) <> None.

Lemma search_extracts (raw : str) :
  match re_search r raw with
  | Some m => extracts token follow raw (Some (value (m_groups m))) (cut m)
  | None => extracts token follow raw None raw
  end.
Proof.
  unfold re_search. pose proof (re_search_from_spec r [] raw) as H.
  destruct (re_search_from r [] raw) as [m|].
  - destruct H as (sk & rest & -> & Hp & Hm & Hl). simpl in Hp.
    destruct (sound _ _ _ Hm) as (tok & -> & Ht & Hf).
    exists sk, tok, (m_post m). unfold cut. rewrite Hp. repeat split; auto.
    intros pre' tok' v' post' He Ht'.
    destruct (Nat.le_gt_cases (length sk) (length pre')) as [Hle|Hgt]; [exact Hle|].
    exfalso. apply (complete tok' v' post' Ht'). now apply (Hl pre').
  - split; [reflexivity|]. intros pre tok v post He Ht.
    apply (complete tok v post Ht). now apply (H pre).
Qed.
End Extraction.

Lemma lower_e (e : ascii) :
  Ascii.eqb (lower_char e) "e" = true <-> e = "e"%char \/ e = "E"%char.
Proof.
  split.
  - destruct e as [b0 b1 b2 b3 b4 b5 b6 b7].
    destruct b0, b1, b2, b3, b4, b5, b6, b7; vm_compute; intros H;
      solve [discriminate H | left; reflexivity | right; reflexivity].
  - intros [-> | ->]; reflexivity.
Qed.

Lemma all_cons_inv (c : ascii -> bool) (a : ascii) (s : str) :
  all c (a :: s) -> c a = true /\ all c s.
Proof. intros H. inversion H; subst. auto. Qed.

Lemma non_space_is_space (a : ascii) : non_space a = false -> is_space a = true.
Proof. unfold non_space. now destruct (is_space a). Qed.

Lemma non_space_true (a : ascii) : non_space a = true -> is_space a = false.
Proof. unfold non_space. now destruct (is_space a). Qed.

Lemma run_ends_drop (t : str) : run_ends (drop_while non_space t).
Proof.
  pose proof (drop_while_head non_space t) as H. unfold run_ends.
  destruct (drop_while non_space t); [exact I | now apply non_space_is_space].
Qed.

Lemma drop_spaces_run (ws : str) (b : ascii) (rest : str) :
  all is_space ws -> is_space b = false -> drop_while is_space (ws ++ b :: rest) = b :: rest.
Proof. intros Hws Hb. rewrite drop_while_all by exact Hws. now apply drop_while_stop. Qed.

Lemma drop_while_split (c : ascii -> bool) (t : str) (b : ascii) (t' : str) :
  drop_while c t = b :: t' -> t = take_while c t ++ b :: t'.
Proof. intros H. rewrite <- H. symmetry. apply take_drop_while. Qed.

(** ** [@(\S+)] *)

Lemma tag_sound (s : str) (g : list str) (post : str) :
  re_match_at tag_re s = Some (g, post) ->
  exists tok, s = tok ++ post /\ tag_token tok (tag_value g) /\ run_ends post.
Proof.
  rewrite tag_match_eq. destruct s as [|a [|b t]]; try discriminate.
  destruct (Ascii.eqb "@" a) eqn:Ea; [|discriminate].
  destruct (non_space b) eqn:Eb; [|discriminate]. simpl. intros [= <- <-].
  apply Ascii.eqb_eq in Ea. subst a.
  exists ("@"%char :: b :: take_while non_space t). split; [|split].
  - simpl. now rewrite take_drop_while.
  - exists (b :: take_while non_space t). repeat split; [discriminate|].
    constructor; [exact Eb | apply all_take_while].
  - apply run_ends_drop.
Qed.

Lemma tag_complete (tok v post : str) :
  tag_token tok v -> re_match_at tag_re (tok ++ post) <> None.
Proof.
  intros (run & -> & Hne & Hrun & _). rewrite tag_match_eq.
  destruct run as [|b run]; [contradiction|].
  apply all_cons_inv in Hrun as [Hb _]. simpl. now rewrite Hb.
Qed.

(** ** [\|e\s*(\S+)] *)

Lemma project_sound (s : str) (g : list str) (post : str) :
  re_match_at project_re s = Some (g, post) ->
  exists tok, s = tok ++ post /\ project_token tok (project_value g) /\ run_ends post.
Proof.
  rewrite project_match_eq. destruct s as [|a [|e t]]; try discriminate.
  destruct (Ascii.eqb "|" a) eqn:Ea; [|discriminate].
  destruct (Ascii.eqb (lower_char e) "e") eqn:Ee; [|discriminate]. simpl.
  destruct (drop_while is_space t) as [|b t'] eqn:Et; [discriminate|].
  destruct (non_space b) eqn:Eb; [|discriminate]. intros [= <- <-].
  apply Ascii.eqb_eq in Ea. subst a. apply lower_e in Ee.
  apply drop_while_split in Et.
  exists ("|"%char :: e :: take_while is_space t ++ b :: take_while non_space t').
  split; [|split].
  - simpl. rewrite <- app_assoc. simpl. rewrite take_drop_while. now rewrite <- Et.
  - exists e, (take_while is_space t), (b :: take_while non_space t').
    repeat split; auto using all_take_while; try discriminate.
    constructor; [exact Eb | apply all_take_while].
  - apply run_ends_drop.
Qed.

Lemma project_complete (tok v post : str) :
  project_token tok v -> re_match_at project_re (tok ++ post) <> None.
Proof.
  intros (e & ws & run & -> & He & Hws & Hne & Hrun & _). rewrite project_match_eq.
  destruct run as [|b run]; [contradiction|].
  apply all_cons_inv in Hrun as [Hb _]. apply lower_e in He.
  simpl. rewrite He, <- app_assoc. simpl.
  rewrite drop_spaces_run by auto using non_space_true. now rewrite Hb.
Qed.

(** ** [\|p\s*([UuNn])\s*(\d)] *)

Lemma priority_sound (s : str) (g : list str) (post : str) :
  re_match_at priority_re s = Some (g, post) ->
  exists tok, s = tok ++ post /\ priority_token tok (priority_value_of g) /\ anywhere post.
Proof.
  rewrite priority_match_eq. destruct s as [|a [|p t]]; try discriminate.
  destruct (Ascii.eqb "|" a) eqn:Ea; [|discriminate].
  destruct (Ascii.eqb "p" p) eqn:Ep; [|discriminate]. simpl andb. cbv iota.
  destruct (drop_while is_space t) as [|l t1] eqn:Et; [discriminate|].
  destruct (one_of (lit "UuNn") l) eqn:El; [|discriminate].
  destruct (drop_while is_space t1) as [|d t2] eqn:Et1; [discriminate|].
  destruct (is_digit d) eqn:Ed; [|discriminate]. intros [= <- <-].
  apply Ascii.eqb_eq in Ea, Ep. subst a p. apply one_of_In in El.
  apply drop_while_split in Et, Et1.
  exists ("|"%char :: "p"%char :: take_while is_space t ++ l :: take_while is_space t1 ++ [d]).
  split; [|split; [|exact I]].
  - simpl. rewrite <- app_assoc. simpl. rewrite <- app_assoc. simpl.
    now rewrite <- Et1, <- Et.
  - exists (take_while is_space t), l, (take_while is_space t1), d.
    repeat split; auto using all_take_while.
Qed.

Lemma priority_complete (tok v post : str) :
  priority_token tok v -> re_match_at priority_re (tok ++ post) <> None.
Proof.
  intros (ws1 & l & ws2 & d & -> & H1 & Hl & H2 & Hd & _). rewrite priority_match_eq.
  cbn -[one_of lit]. rewrite <- app_assoc. cbn -[one_of lit].
  rewrite <- app_assoc. cbn -[one_of lit].
  rewrite drop_spaces_run by auto using letter_non_space.
  rewrite (proj2 (one_of_In (lit "UuNn") l) Hl).
  rewrite drop_spaces_run by auto using digit_non_space.
  now rewrite Hd.
Qed.

(** ** [\|f\s*(\d{6})] *)

Lemma take_while_length (c : ascii -> bool) (s : str) :
  (length (take_while c s) <= length s)%nat.
Proof. induction s as [|a s IH]; simpl; [lia|]. destruct (c a); simpl; lia. Qed.

Lemma take_while_full (c : ascii -> bool) (s : str) :
  (length s <= length (take_while c s))%nat -> all c s.
Proof.
  induction s as [|a s IH]; simpl; [constructor|].
  destruct (c a) eqn:E; simpl; [|lia]. intros H. constructor; [exact E | apply IH; lia].
Qed.

Lemma take_while_id (c : ascii -> bool) (s : str) : all c s -> take_while c s = s.
Proof. induction 1 as [|a s Ha _ IH]; simpl; [reflexivity|]. rewrite Ha. now f_equal. Qed.

Lemma date_sound (s : str) (g : list str) (post : str) :
  re_match_at date_re s = Some (g, post) ->
  exists tok, s = tok ++ post /\ date_token tok (date_value_of g) /\ anywhere post.
Proof.
  rewrite date_match_eq. destruct s as [|a [|f t]]; try discriminate.
  destruct (Ascii.eqb "|" a) eqn:Ea; [|discriminate].
  destruct (Ascii.eqb "f" f) eqn:Ef; [|discriminate]. simpl andb. cbv iota zeta.
  destruct (6 <=? _)%nat eqn:E6; [|discriminate]. intros [= <- <-].
  apply Ascii.eqb_eq in Ea, Ef. subst a f. apply Nat.leb_le in E6.
  set (t' := drop_while is_space t) in *.
  pose proof (take_while_length is_digit (firstn 6 t')) as Hl.
  pose proof (firstn_le_length 6 t') as Hl'.
  exists ("|"%char :: "f"%char :: take_while is_space t ++ firstn 6 t').
  split; [|split; [|exact I]].
  - simpl. rewrite <- app_assoc, firstn_skipn. subst t'. now rewrite take_drop_while.
  - exists (take_while is_space t), (firstn 6 t').
    repeat split; auto using all_take_while; [lia|].
    apply take_while_full. lia.
Qed.

Lemma date_complete (tok v post : str) :
  date_token tok v -> re_match_at date_re (tok ++ post) <> None.
Proof.
  intros (ws & ds & -> & Hws & Hlen & Hds & _). rewrite date_match_eq.
  simpl. rewrite <- app_assoc.
  destruct ds as [|d ds]; [discriminate Hlen|].
  pose proof (all_cons_inv _ _ _ Hds) as [Hd _]. simpl app.
  rewrite drop_spaces_run by auto using digit_non_space.
  change (d :: ds ++ post) with ((d :: ds) ++ post).
  assert (Hf : firstn 6 ((d :: ds) ++ post) = d :: ds).
  { rewrite <- Hlen, firstn_app, Nat.sub_diag, firstn_all. apply app_nil_r. }
  rewrite Hf, take_while_id, Hlen by exact Hds. discriminate.
Qed.

(** * The title: blanks collapsed and trimmed *)

Lemma drop_while_snoc (c : ascii -> bool) (s : str) (a : ascii) :
  drop_while c (s ++ [a]) =
  match drop_while c s with
  | [] => if c a then [] else [a]
  | y => y ++ [a]
  end.
Proof.
  induction s as [|b s IH]; simpl; [reflexivity|].
  destruct (c b); [exact IH | reflexivity].
Qed.

Lemma rstrip_snoc (s : str) (a : ascii) :
  rstrip (s ++ [a]) = if is_space a then rstrip s else s ++ [a].
Proof.
  unfold rstrip. rewrite rev_app_distr. simpl.
  destruct (is_space a); [reflexivity|].
  change (rev (a :: rev s)) with (rev (rev s) ++ [a]). now rewrite List.rev_involutive.
Qed.

Lemma rstrip_run (cur : str) : cur <> [] -> all non_space cur -> rstrip cur = cur.
Proof.
  intros Hne Hc. destruct cur as [|x cur _] using rev_ind; [contradiction|].
  rewrite rstrip_snoc. apply List.Forall_app in Hc as [_ Hx].
  apply all_cons_inv in Hx as [Hx _]. now rewrite (non_space_true x Hx).
Qed.

Lemma rstrip_app (pre y : str) :
  Exists (fun a => is_space a = false) y -> rstrip (pre ++ y) = pre ++ rstrip y.
Proof.
  induction y as [|b y IH] using rev_ind; intros H.
  - inversion H.
  - rewrite app_assoc, !rstrip_snoc. destruct (is_space b) eqn:Eb.
    + apply IH. apply List.Exists_app in H as [H|H]; [exact H|].
      inversion H as [? ? Hb|? ? Hn]; subst; [congruence | inversion Hn].
    + now rewrite app_assoc.
Qed.

Lemma split_from_run (cur s : str) : cur <> [] -> split_from cur s <> [].
Proof.
  revert cur. induction s as [|a s IH]; intros cur Hne; simpl.
  - destruct cur; [contradiction | discriminate].
  - destruct (is_space a).
    + destruct cur; [contradiction | discriminate].
    + apply IH. now destruct cur.
Qed.

Lemma join_cons (sep x : str) (l : list str) :
  l <> [] -> join sep (x :: l) = x ++ sep ++ join sep l.
Proof. destruct l; [contradiction | reflexivity]. Qed.

Lemma sub_spaces_words (s : str) :
  forall cur, cur <> [] -> all non_space cur ->
    rstrip (cur ++ sub_spaces false s) = join (lit " ") (split_from cur s) /\
    rstrip (cur ++ " "%char :: sub_spaces true s)
    = join (lit " ") (cur :: split_from [] s).
Proof.
  induction s as [|a s IH]; intros cur Hne Hc.
  - simpl. rewrite app_nil_r. split.
    + rewrite rstrip_run by assumption. now destruct cur.
    + rewrite rstrip_snoc. simpl. now apply rstrip_run.
  - cbn [sub_spaces split_from]. change ([] ++ [a]) with [a].
    destruct (is_space a) eqn:Ea.
    + destruct (IH cur Hne Hc) as [_ H2]. split; [|exact H2].
      rewrite H2. now destruct cur.
    + assert (Hc' : all non_space (cur ++ [a])).
      { apply List.Forall_app. split; [exact Hc|]. constructor; [|constructor].
        unfold non_space. now rewrite Ea. }
      split.
      * change (cur ++ a :: sub_spaces false s) with (cur ++ [a] ++ sub_spaces false s).
        rewrite app_assoc. apply IH; [now destruct cur | exact Hc'].
      * change (cur ++ " "%char :: a :: sub_spaces false s)
          with (cur ++ [" "%char] ++ ([a] ++ sub_spaces false s)).
        rewrite app_assoc, rstrip_app by (simpl; now constructor).
        destruct (IH [a]) as [H1 _]; [discriminate | |].
        { constructor; [|constructor]. unfold non_space. now rewrite Ea. }
        rewrite H1, join_cons by (apply split_from_run; discriminate).
        now rewrite <- app_assoc.
Qed.

Lemma sub_spaces_lstrip (s : str) :
  lstrip (sub_spaces false s) = sub_spaces false (lstrip s) /\
  lstrip (sub_spaces true s) = sub_spaces false (lstrip s).
Proof.
  unfold lstrip. induction s as [|a s [IH1 IH2]]; [auto|].
  cbn [sub_spaces drop_while]. destruct (is_space a) eqn:Ea.
  - cbn [drop_while]. change (is_space " ") with true. cbv iota. auto.
  - cbn [sub_spaces drop_while]. now rewrite Ea.
Qed.

Lemma split_lstrip (s : str) : str_split (lstrip s) = str_split s.
Proof.
  unfold str_split, lstrip. induction s as [|a s IH]; [reflexivity|].
  cbn [drop_while split_from]. destruct (is_space a) eqn:Ea; [exact IH|].
  cbn [split_from]. now rewrite Ea.
Qed.

Lemma title_words (s : str) :
  strip (sub_spaces false s) = join (lit " ") (str_split s).
Proof.
  unfold strip. rewrite (proj1 (sub_spaces_lstrip s)), <- split_lstrip.
  pose proof (drop_while_head is_space s) as Hh. unfold lstrip.
  destruct (drop_while is_space s) as [|b t]; [reflexivity|].
  cbn [sub_spaces]. rewrite Hh.
  assert (Hb : all non_space [b]).
  { constructor; [|constructor]. unfold non_space. now rewrite Hh. }
  destruct (sub_spaces_words t [b] ltac:(discriminate) Hb) as [H1 _].
  change ([b] ++ sub_spaces false t) with (b :: sub_spaces false t) in H1.
  rewrite H1. unfold str_split. cbn [split_from]. now rewrite Hh.
Qed.

Lemma parse_task_parse_of (text : str) :
  parse_of priority_token text (parse_task text).
Proof.
  unfold parse_of, parse_task.
  pose proof (search_extracts tag_re tag_value tag_token run_ends
                tag_sound tag_complete (strip text)) as H1.
  destruct (re_search tag_re (strip text)) as [m1|];
    [set (r1 := cut m1) in * | set (r1 := strip text) in * ].
  all: pose proof (search_extracts project_re project_value project_token run_ends
                     project_sound project_complete r1) as H2;
       destruct (re_search project_re r1) as [m2|];
       [set (r2 := cut m2) in * | set (r2 := r1) in * ].
  all: pose proof (search_extracts priority_re priority_value_of priority_token anywhere
                     priority_sound priority_complete r2) as H3;
       destruct (re_search priority_re r2) as [m3|];
       [set (r3 := cut m3) in * | set (r3 := r2) in * ].
  all: pose proof (search_extracts date_re date_value_of date_token anywhere
                     date_sound date_complete r3) as H4;
       destruct (re_search date_re r3) as [m4|];
       [exists r1, r2, r3, (cut m4) | exists r1, r2, r3, r3].
  all: split; [exact H1|]; split; [exact H2|]; split; [exact H3|];
       split; [exact H4|]; split; [reflexivity | apply title_words].
Qed.

(** C3 (as amended).  For every line, [parse_task] takes out at most one
    tag, project, priority and due-date token, each the leftmost of its kind
    in what the tokens before it left, the priority token admitting blanks
    between [|p], the letter and the digit; the title is the rest with its
    blanks collapsed and trimmed.  In particular the line of the help text
    parses to title "Revisar doc", tag FGR, project Sellout, priority U2,
    date 150226. *)
Theorem parse_task_grammar (text : str) :
  parse_of priority_token text (parse_task text) /\
  (text = help_line -> parse_task text = help_line_parsed).
Proof.
  split; [apply parse_task_parse_of | intros ->; vm_compute; reflexivity].
Qed.

(** C3, as the claim states it, fails: in ["a |pU 2"] a blank stands between
    the letter and the digit, so the line has no priority token of the
    claim's grammar, and [parse_task] gives it the priority U2. *)
Lemma parse_task_blank_in_priority :
  ~ parse_of priority_token_spec (lit "a |pU 2") (parse_task (lit "a |pU 2")).
Proof.
  intros (r1 & r2 & r3 & r4 & H1 & H2 & H3 & _).
  change (parse_task (lit "a |pU 2")) with
    {| p_title := lit "a"; p_tag := None; p_project := None;
       p_priority_str := Some (lit "U2"); p_date_str := None |} in *.
  simpl in H1, H2, H3. destruct H1 as [-> _]. destruct H2 as [-> _].
  destruct H3 as (pre & tok & post & He & Htok & _).
  destruct Htok as (ws & l & d & -> & Hws & _ & Hd & _).
  change (strip (lit "a |pU 2")) with (lit "a |pU 2") in He.
  do 3 (destruct pre as [|? pre]; [try discriminate He | injection He as <- He]).
  - injection He as He.
    destruct ws as [|w ws].
    + injection He as <- <- _. discriminate Hd.
    + injection He as <- _. apply all_cons_inv in Hws as [Hw _]. discriminate Hw.
  - repeat (destruct pre as [|? pre]; [discriminate He | injection He as <- He]).
    destruct pre; discriminate He.
Qed.

(** * What the parser stores as a priority *)

Lemma upper_letter (l : ascii) :
  In l (lit "UuNn") -> upper_char l = "U"%char \/ upper_char l = "N"%char.
Proof. simpl. intros [<-|[<-|[<-|[<-|[]]]]]; vm_compute; auto. Qed.

Lemma parse_task_priority_code (text p : str) :
  p_priority_str (parse_task text) = Some p -> priority_code p.
Proof.
  intros Hp. destruct (parse_task_parse_of text) as (r1 & r2 & r3 & r4 & _ & _ & H & _).
  rewrite Hp in H. destruct H as (pre & tok & post & _ & Ht & _).
  destruct Ht as (ws1 & l & ws2 & d & _ & _ & Hl & _ & Hd & ->).
  exists (upper_char l), d. split; [reflexivity|]. split; [now apply upper_letter | exact Hd].
Qed.

(** C7 fails on the code: the digit 7 is taken as a magnitude. *)
Lemma parse_task_any_digit :
  parse_task (lit "Tarea |pU7") =
  {| p_title := lit "Tarea"; p_tag := None; p_project := None;
     p_priority_str := Some (lit "U7"); p_date_str := None |}.
Proof. vm_compute. reflexivity. Qed.

(** * Task numbers *)

Lemma find_py_range (f : Z -> bool) (a : Z) (n s : nat) :
  match find f (map (fun k => a + Z.of_nat k) (seq s n)) with
  | Some i =>
      a + Z.of_nat s <= i < a + Z.of_nat (s + n) /\ f i = true /\
      forall j, a + Z.of_nat s <= j < i -> f j = false
  | None => forall j, a + Z.of_nat s <= j < a + Z.of_nat (s + n) -> f j = false
  end.
Proof.
  revert s. induction n as [|n IH]; intros s; simpl.
  - intros j Hj. lia.
  - destruct (f (a + Z.of_nat s)) eqn:Hf.
    + split; [lia|]. split; [exact Hf|]. intros j Hj. lia.
    + specialize (IH (S s)). destruct (find _ _) as [i|].
      * destruct IH as (Hr & Hi & Hlt). split; [lia|]. split; [exact Hi|].
        intros j Hj. destruct (Z.eq_dec j (a + Z.of_nat s)) as [->|Hne]; [exact Hf|].
        apply Hlt. lia.
      * intros j Hj. destruct (Z.eq_dec j (a + Z.of_nat s)) as [->|Hne]; [exact Hf|].
        apply IH. lia.
Qed.

Lemma used_owner_number (t : table) (uid i : Z) :
  i ∈ (list_to_set (map (fun d => task_id (d_row d)) (sb_select (eq_user_id uid) t)) : gset Z)
  <-> owner_number t uid i.
Proof.
  rewrite elem_of_list_to_set, list_elem_of_In, in_map_iff. unfold sb_select, owner_number.
  split.
  - intros (d & <- & Hd). apply in_map_iff in Hd as (r & <- & Hr).
    apply List.filter_In in Hr as (Hr & Hu). exists r. simpl.
    unfold eq_user_id in Hu. apply Z.eqb_eq in Hu. auto.
  - intros (r & Hr & Hu & Ht). exists (fetched r). split; [exact Ht|].
    apply in_map, List.filter_In. split; [exact Hr|]. unfold eq_user_id. now apply Z.eqb_eq.
Qed.

Lemma next_available_id_smallest (t : table) (uid : Z) :
  smallest_free (owner_number t uid) (next_available_id t uid).
Proof.
  unfold next_available_id, py_range, smallest_free.
  set (used := list_to_set _ : gset Z).
  pose proof (find_py_range (fun i => bool_decide (i ∉ used)) 1 99 0) as H.
  change (Z.to_nat (100 - 1)) with 99%nat.
  destruct (find _ _) as [i|].
  - destruct H as (Hr & Hi & Hlt). apply bool_decide_eq_true in Hi.
    split; [lia|]. split.
    + intros j Hj. specialize (Hlt j ltac:(lia)).
      apply bool_decide_eq_false in Hlt. apply used_owner_number.
      destruct (decide (j ∈ used)); [assumption | contradiction].
    + left. intros Hu. apply Hi. now apply used_owner_number.
  - assert (Hall : forall j, 1 <= j <= 99 -> owner_number t uid j).
    { intros j Hj. specialize (H j ltac:(lia)). apply bool_decide_eq_false in H.
      apply used_owner_number. destruct (decide (j ∈ used)); [assumption | contradiction]. }
    split; [lia|]. split.
    + intros j Hj. apply Hall. lia.
    + right. split; [reflexivity | exact Hall].
Qed.

Lemma smallest_free_1_3 (used : Z -> Prop) (n : Z) :
  (forall k, used k <-> k = 1 \/ k = 3) -> smallest_free used n -> n = 2.
Proof.
  intros Hu (Hr & Hlt & Hn).
  assert (H2 : ~ used 2) by (rewrite Hu; lia).
  assert (Hle : n <= 2).
  { destruct (Z_le_gt_dec n 2) as [H|H]; [exact H|]. exfalso. apply H2, Hlt. lia. }
  assert (H1 : n <> 1).
  { intros ->. destruct Hn as [Hn|[Hn _]]; [|lia]. apply Hn, Hu. now left. }
  lia.
Qed.

(** What the code does: the number [next_available_id] gives is the
    smallest of 1..99 that no row of the owner carries, completed rows
    included, and 99 when every one of them is carried; it is 2 for an
    owner whose rows carry exactly the numbers 1 and 3.  A number is free
    again once its row is deleted, not once its task is completed. *)
Theorem next_available_id_smallest_unused (t : table) (uid : Z) :
  smallest_free (owner_number t uid) (next_available_id t uid) /\
  ((forall k, owner_number t uid k <-> k = 1 \/ k = 3) -> next_available_id t uid = 2).
Proof.
  split; [apply next_available_id_smallest|].
  intros H. apply (smallest_free_1_3 _ _ H), next_available_id_smallest.
Qed.

Example next_available_id_one_and_three : next_available_id one_and_three 7 = 2.
Proof. vm_compute. reflexivity. Qed.

(** C1 fails on the code: [next_available_id] selects the numbers of all
    rows of the owner, without the filter on [done] of the other selects;
    for an owner whose only task, number 1, is completed, no active task
    uses 1, and the new task gets 2. *)
Lemma next_available_id_skips_completed :
  ~ smallest_free (active_number one_completed 7) (next_available_id one_completed 7).
Proof.
  change (next_available_id one_completed 7) with 2.
  intros (_ & Hlt & _). destruct (Hlt 1 ltac:(lia)) as (r & Hr & _ & Hd & _).
  simpl in Hr. destruct Hr as [<-|[]]. discriminate Hd.
Qed.

(** * Scoring *)

Lemma str_eqb_eq (s t : str) : str_eqb s t = true <-> s = t.
Proof. unfold str_eqb. destruct (List.list_eq_dec ascii_dec s t); split; congruence. Qed.

Lemma tag_weight_dict (tag : option str) :
  tag_weight tag
    match tag with
    | None => 0
    | Some [] => 0
    | Some t => dict_get TAG_VALUES t 0
    end.
Proof.
  unfold tag_weight. destruct tag as [t|].
  - assert (Hd : match t with [] => 0 | _ :: _ => dict_get TAG_VALUES t 0 end
                 = dict_get TAG_VALUES t 0) by (destruct t; reflexivity).
    rewrite Hd. clear Hd. unfold TAG_VALUES, dict_get.
    repeat split.
    + intros [= ->]. reflexivity.
    + intros [= ->]. reflexivity.
    + intros [= ->]. reflexivity.
    + intros H1 H2 H3.
      destruct (str_eqb (lit "FGR") t) eqn:E1; [apply str_eqb_eq in E1; congruence|].
      destruct (str_eqb (lit "CETS") t) eqn:E2; [apply str_eqb_eq in E2; congruence|].
      destruct (str_eqb (lit "CS") t) eqn:E3; [apply str_eqb_eq in E3; congruence|].
      reflexivity.
  - repeat split; intros; congruence.
Qed.

Lemma calc_priority_value_code (p : str) :
  priority_code p ->
  exists v, calc_priority_value (Some p) = Ok v /\ priority_value (Some p) v.
Proof.
  intros (c & d & -> & Hc & Hd). unfold calc_priority_value, int_char, bind.
  rewrite Hd. eexists. split; [reflexivity|].
  unfold priority_value. split; [discriminate|].
  destruct Hc as [-> | ->]; split; intros d' [= <-]; reflexivity || discriminate.
Qed.

Lemma date_value_calc (today : date) (due : option str) :
  date_value today due (calc_date_value today due).
Proof.
  unfold date_value, calc_date_value. destruct due as [s|].
  - split; [discriminate|]. split.
    + intros s' e [= <-] He. destruct s; [reflexivity|]. now rewrite He.
    + intros s' d [= <-] Hd. destruct s as [|a s]; [discriminate Hd|].
      rewrite Hd. cbv zeta.
      destruct (Z.leb_spec (days_between d today) 0);
      destruct (Z.leb_spec (days_between d today) 3);
      destruct (Z.leb_spec (days_between d today) 15); lia.
  - split; [reflexivity|]. split; intros; discriminate.
Qed.

(** C2.  For every tag, priority code (absent, or [U] or [N] and a digit),
    due code and day, the total score is the sum of the tag weight, the
    priority value and the date value as the specification defines them;
    in particular it is 8 for FGR, U2, 150226 on 10 February 2026. *)
Theorem calc_total_score_sum (today : date) (tag priority due : option str) :
  (priority = None \/ exists p, priority = Some p /\ priority_code p) ->
  (exists w pv dv,
     calc_total_score today tag priority due = Ok (w + pv + dv) /\
     tag_weight tag w /\ priority_value priority pv /\ date_value today due dv) /\
  (today = feb_10_2026 -> tag = Some (lit "FGR") -> priority = Some (lit "U2") ->
   due = Some (lit "150226") -> calc_total_score today tag priority due = Ok 8).
Proof.
  intros Hp. split; [|intros -> -> -> ->; vm_compute; reflexivity].
  unfold calc_total_score.
  assert (Hpv : exists pv, calc_priority_value priority = Ok pv /\ priority_value priority pv).
  { destruct Hp as [-> | (p & -> & Hp)].
    - exists 0. split; [reflexivity|]. repeat split; intros; discriminate.
    - now apply calc_priority_value_code. }
  destruct Hpv as (pv & -> & Hpv). simpl.
  eexists _, pv, _. split; [reflexivity|].
  split; [apply tag_weight_dict|]. split; [exact Hpv | apply date_value_calc].
Qed.

Lemma priority_code_U2 :
  Some (lit "U2") = None \/ exists p, Some (lit "U2") = Some p /\ priority_code p.
Proof.
  right. exists (lit "U2"). split; [reflexivity|].
  exists "U"%char, "2"%char. split; [reflexivity|]. split; [left; reflexivity | reflexivity].
Defined.

(** C2 at FGR, U2, 150226 on 10 February 2026. *)
Lemma calc_total_score_sum_witness :
  (Some (lit "U2") = None \/ exists p, Some (lit "U2") = Some p /\ priority_code p) /\
  ((exists w pv dv,
     calc_total_score feb_10_2026 (Some (lit "FGR")) (Some (lit "U2")) (Some (lit "150226"))
       = Ok (w + pv + dv) /\
     tag_weight (Some (lit "FGR")) w /\ priority_value (Some (lit "U2")) pv /\
     date_value feb_10_2026 (Some (lit "150226")) dv) /\
   (feb_10_2026 = feb_10_2026 -> Some (lit "FGR") = Some (lit "FGR") ->
    Some (lit "U2") = Some (lit "U2") -> Some (lit "150226") = Some (lit "150226") ->
    calc_total_score feb_10_2026 (Some (lit "FGR")) (Some (lit "U2")) (Some (lit "150226"))
      = Ok 8)).
Proof.
  split; [exact priority_code_U2|].
  exact (calc_total_score_sum feb_10_2026 (Some (lit "FGR")) (Some (lit "U2"))
           (Some (lit "150226")) priority_code_U2).
Defined.

(** * Undo *)

Lemma set_undo_other (st : state) (uid v : Z) (u : undo) :
  v <> uid -> bot_data (set_undo st v u) !! uid = bot_data st !! uid.
Proof. intros H. unfold set_undo. simpl. now apply lookup_insert_ne. Qed.

Lemma handle_other_slot ilike today (uid v : Z) (c : command) (st : state) :
  v <> uid ->
  bot_data (fst (handle ilike today v c st)) !! uid = bot_data st !! uid.
Proof.
  intros Hv. destruct c as [t|args|args|args|]; simpl.
  - unfold handle_message. destruct (strip t); [reflexivity|].
    destruct (p_title _); [reflexivity|].
    destruct (sb_insert_new _ _) as [t' ins].
    destruct (calc_total_score _ _ _ _); simpl; now rewrite lookup_insert_ne.
  - unfold cmd_done. destruct args as [|a0 args]; [reflexivity|].
    destruct (str_eqb _ _).
    + destruct (get_tasks _ _ _ _ _ _) as [[|d l]|e]; try reflexivity.
      simpl. now rewrite lookup_insert_ne.
    + destruct (int a0); [|reflexivity].
      destruct (sb_select _ _); [reflexivity|]. simpl. now rewrite lookup_insert_ne.
  - unfold cmd_del. destruct args as [|a0 args]; [reflexivity|].
    destruct (int a0); [|reflexivity].
    destruct (sb_select _ _); [reflexivity|]. simpl. now rewrite lookup_insert_ne.
  - unfold cmd_edit. destruct args as [|a0 [|a1 [|a2 rest]]]; try reflexivity.
    destruct (int a0); [|reflexivity].
    destruct (sb_select _ _); [reflexivity|].
    destruct (field_lookup _ _); [|reflexivity]. simpl. now rewrite lookup_insert_ne.
  - unfold cmd_undo. destruct (bot_data st !! v) as [u|]; [|reflexivity].
    assert (Hd : delete v (bot_data st) !! uid = bot_data st !! uid)
      by now apply lookup_delete_ne.
    destruct u; simpl; try exact Hd.
    destruct (sb_insert _ _); simpl; exact Hd.
Qed.

Lemma session_other_slot ilike today (uid : Z) (l : list (Z * command)) (st : state) :
  Forall (fun uc => fst uc <> uid) l ->
  bot_data (session ilike today l st) !! uid = bot_data st !! uid.
Proof.
  intros H. revert st. induction H as [|[v c] l Hv _ IH]; intros st; [reflexivity|].
  simpl. rewrite IH. now apply handle_other_slot.
Qed.

Lemma cmd_undo_empty (uid : Z) (st : state) :
  bot_data st !! uid = None -> cmd_undo uid st = (st, Replied NothingToUndo).
Proof. intros H. unfold cmd_undo. now rewrite H. Qed.

Lemma cmd_undo_consumes (uid : Z) (st : state) :
  bot_data (fst (cmd_undo uid st)) !! uid = None.
Proof.
  unfold cmd_undo. destruct (bot_data st !! uid) as [u|] eqn:E; [|exact E].
  assert (Hd : delete uid (bot_data st) !! uid = None) by apply lookup_delete_eq.
  destruct u; simpl; try exact Hd.
  destruct (sb_insert _ _); simpl; exact Hd.
Qed.

(** C5.  An undo on an empty slot changes nothing and replies that there
    is nothing to undo; any undo leaves the owner's slot empty, so the
    owner's next undo, whatever other owners did in between, is that same
    no-op. *)
Theorem undo_is_one_shot ilike today (uid : Z) (st : state)
    (others : list (Z * command)) :
  Forall (fun uc => fst uc <> uid) others ->
  (bot_data st !! uid = None -> cmd_undo uid st = (st, Replied NothingToUndo)) /\
  let st1 := fst (cmd_undo uid st) in
  let st2 := session ilike today others st1 in
  bot_data st1 !! uid = None /\
  cmd_undo uid st2 = (st2, Replied NothingToUndo).
Proof.
  intros Ho. split; [apply cmd_undo_empty|]. cbv zeta.
  split; [apply cmd_undo_consumes|].
  apply cmd_undo_empty. rewrite session_other_slot by exact Ho.
  apply cmd_undo_consumes.
Qed.

(** * Edit *)

Lemma filter_none {A} (p : A -> bool) (l : list A) :
  (forall x, In x l -> p x = false) -> List.filter p l = [].
Proof.
  induction l as [|x l IH]; intros H; [reflexivity|]. simpl.
  rewrite (H x (or_introl eq_refl)). apply IH. intros y Hy. apply H. now right.
Qed.

Lemma unresolved_select (t : table) (uid n : Z) :
  unresolved t uid n -> sb_select (active_task uid n) t = [].
Proof.
  intros H. unfold sb_select. rewrite filter_none; [reflexivity|].
  intros r Hr. destruct (active_task uid n r) eqn:E; [|reflexivity].
  unfold active_task, eq_user_id, eq_task_id, eq_done in E.
  apply andb_true_iff in E as [E Ed]. apply andb_true_iff in E as [Eu Et].
  apply Z.eqb_eq in Eu, Et. apply eqb_prop in Ed.
  rewrite (H r Hr Eu Et) in Ed. discriminate Ed.
Qed.

(** C8.  An edit whose task number resolves to no active task of the owner
    replies not-found and leaves the table and every undo slot as they
    were. *)
Theorem cmd_edit_not_found (uid : Z) (st : state) (a0 a1 a2 : str) (rest : list str)
    (n : Z) :
  int a0 = Ok n ->
  unresolved (db st) uid n ->
  cmd_edit uid (a0 :: a1 :: a2 :: rest) st = (st, Replied (NotFound n)).
Proof.
  intros Hn Hu. unfold cmd_edit. rewrite Hn, (unresolved_select _ _ _ Hu). reflexivity.
Qed.

(** * Delete, then undo *)

Lemma filter_head {A} (p : A -> bool) (l : list A) (x : A) :
  In x l -> p x = true ->
  exists y l', List.filter p l = y :: l' /\ In y l /\ p y = true.
Proof.
  intros Hx Hp.
  assert (Hin : In x (List.filter p l)) by (apply List.filter_In; auto).
  destruct (List.filter p l) as [|y l'] eqn:E; [destruct Hin|].
  exists y, l'. split; [reflexivity|].
  assert (Hy : In y (List.filter p l)) by (rewrite E; now left).
  now apply List.filter_In in Hy.
Qed.

Lemma active_task_true (uid n : Z) (r : row) :
  active_task uid n r = true <-> user_id r = uid /\ task_id r = n /\ done r = false.
Proof.
  unfold active_task, eq_user_id, eq_task_id, eq_done.
  rewrite !andb_true_iff, !Z.eqb_eq. destruct (done r); simpl; intuition congruence.
Qed.

Lemma sb_delete_gone (rid : Z) (t : table) :
  existsb (fun r => row_id r =? rid) (rows (sb_delete rid t)) = false.
Proof.
  unfold sb_delete. simpl. induction (rows t) as [|r l IH]; [reflexivity|]. simpl.
  destruct (row_id r =? rid) eqn:E; simpl; [exact IH|]. now rewrite E.
Qed.

Lemma sb_delete_not_In (d : row) (t : table) : ~ In d (rows (sb_delete (row_id d) t)).
Proof.
  unfold sb_delete. simpl. intros H. apply List.filter_In in H as [_ H].
  now rewrite Z.eqb_refl in H.
Qed.

(** C4.  Deleting an active task and undoing at once puts the deleted
    record back: the same row, so the same title, tag, project, priority
    code, due code and task number. *)
Theorem delete_then_undo_restores (uid : Z) (st : state) (a0 : str) (args : list str)
    (n : Z) (r : row) :
  int a0 = Ok n ->
  In r (rows (db st)) -> user_id r = uid -> task_id r = n -> done r = false ->
  let del := cmd_del uid (a0 :: args) st in
  let und := cmd_undo uid (fst del) in
  exists d,
    In d (rows (db st)) /\ user_id d = uid /\ task_id d = n /\ done d = false /\
    snd del = Replied (Deleted (title d)) /\
    ~ In d (rows (db (fst del))) /\
    snd und = Replied (Restored (title d)) /\
    In d (rows (db (fst und))) /\
    bot_data (fst und) !! uid = None.
Proof.
  intros Hn Hr Hu Ht Hd del und.
  destruct (filter_head (active_task uid n) (rows (db st)) r Hr) as (d & l' & Hf & Hin & Hp).
  { apply active_task_true. auto. }
  apply active_task_true in Hp as (Hdu & Hdt & Hdd).
  exists d. repeat (split; [assumption|]).
  subst del und. unfold cmd_del. rewrite Hn. unfold sb_select. rewrite Hf. simpl.
  split; [reflexivity|]. split; [apply sb_delete_not_In|].
  unfold cmd_undo. simpl. rewrite lookup_insert_eq. unfold sb_insert. simpl.
  pose proof (sb_delete_gone (row_id d) (db st)) as Hg. unfold sb_delete in Hg.
  simpl in Hg. rewrite Hg. simpl.
  split; [reflexivity|]. split; [apply in_or_app; right; now left|].
  apply lookup_delete_eq.
Qed.

(** * The sort *)

Section Sort.
Context {A : Type} (key : A -> Z).

Let ge (a b : A) : Prop := key b <= key a.

Lemma insert_desc_perm (x : A) (l : list A) :
  Permutation (x :: l) (insert_desc key x l).
Proof.
  induction l as [|y l IH]; simpl; [reflexivity|].
  destruct (key y <=? key x); [reflexivity|].
  rewrite perm_swap. now apply perm_skip.
Qed.

Lemma sort_desc_perm (l : list A) : Permutation l (sort_desc key l).
Proof.
  induction l as [|x l IH]; simpl; [reflexivity|].
  rewrite <- insert_desc_perm. now apply perm_skip.
Qed.

Lemma insert_desc_sorted (x : A) (l : list A) :
  StronglySorted ge l -> StronglySorted ge (insert_desc key x l).
Proof.
  induction 1 as [|y l Hs IH Hy]; simpl.
  - constructor; constructor.
  - destruct (Z.leb_spec (key y) (key x)) as [Hle|Hgt].
    + constructor; [now constructor|]. constructor; [exact Hle|].
      eapply List.Forall_impl; [|exact Hy]. intros z Hz. unfold ge in *. lia.
    + constructor; [exact IH|].
      eapply Permutation_Forall; [apply insert_desc_perm|].
      constructor; [unfold ge; lia | exact Hy].
Qed.

Lemma sort_desc_sorted (l : list A) : StronglySorted ge (sort_desc key l).
Proof.
  induction l as [|x l IH]; simpl; [constructor | now apply insert_desc_sorted].
Qed.

Lemma insert_desc_stable (k : Z) (x : A) (l : list A) :
  List.filter (fun y => key y =? k) (insert_desc key x l) =
  List.filter (fun y => key y =? k) (x :: l).
Proof.
  induction l as [|y l IH]; [reflexivity|]. simpl insert_desc.
  destruct (Z.leb_spec (key y) (key x)) as [Hle|Hgt]; [reflexivity|].
  simpl in *. rewrite IH.
  destruct (Z.eqb_spec (key y) k), (Z.eqb_spec (key x) k); try reflexivity. lia.
Qed.

Lemma sort_desc_stable (k : Z) (l : list A) :
  List.filter (fun y => key y =? k) (sort_desc key l) =
  List.filter (fun y => key y =? k) l.
Proof.
  induction l as [|x l IH]; [reflexivity|]. simpl sort_desc.
  rewrite insert_desc_stable. simpl. now rewrite IH.
Qed.

Lemma sorted_suffix (l1 l2 : list A) :
  StronglySorted ge (l1 ++ l2) -> StronglySorted ge l2.
Proof.
  induction l1 as [|x l1 IH]; simpl; [auto|].
  intros H. apply IH. now inversion H.
Qed.

Lemma sorted_before (l : list A) (a b : A) :
  StronglySorted ge l -> In a l -> In b l -> key b < key a -> before a b l.
Proof.
  intros Hs Ha Hb Hlt. apply in_split in Ha as (l1 & rest & ->).
  apply in_app_or in Hb as [Hb|[->|Hb]].
  - exfalso. apply in_split in Hb as (l0 & l2 & ->).
    rewrite <- app_assoc in Hs. simpl in Hs.
    apply sorted_suffix in Hs. inversion Hs as [|? ? _ Hall]; subst.
    rewrite List.Forall_forall in Hall. specialize (Hall a).
    unfold ge in Hall. assert (key a <= key b); [|lia].
    apply Hall. apply in_or_app. right. now left.
  - lia.
  - apply in_split in Hb as (l2 & l3 & ->). now exists l1, l2, l3.
Qed.
End Sort.

(** * Listing *)

Lemma scorable_value (p : option str) :
  scorable p -> exists v, calc_priority_value p = Ok v.
Proof.
  intros [-> | [-> | (c & d & rest & -> & Hd)]]; simpl; eauto.
  unfold int_char. rewrite Hd. simpl. eauto.
Qed.

Lemma scorable_row_score (today : date) (r : row) :
  scorable (priority_str r) -> exists v, row_score today r = Ok v.
Proof.
  intros H. unfold row_score, calc_total_score.
  destruct (scorable_value _ H) as (v & ->). simpl. eauto.
Qed.

Lemma score_rows_scored (today : date) (l : list rowdict) :
  Forall (fun d => scorable (priority_str (d_row d))) l ->
  exists l', score_rows today l = Ok l' /\ Forall2 (scored today) l l'.
Proof.
  induction 1 as [|d l Hd _ (l' & Hl' & IH)]; simpl.
  - exists []. split; [reflexivity | constructor].
  - destruct (scorable_row_score today (d_row d) Hd) as (v & Hv).
    unfold row_score in Hv. rewrite Hv, Hl'. simpl.
    eexists. split; [reflexivity|]. constructor; [|exact IH].
    unfold scored, row_score. simpl. auto.
Qed.

(** Where the listing returns: when every active row of the owner has a
    priority that can be scored, [get_tasks] returns the rows the store
    returned, each with its total score, in descending order of score, rows
    of equal score in the store's order; so a row scoring 8 stands before a
    row scoring 0. *)
Theorem get_tasks_sorted ilike (today : date) (t : table) (uid : Z)
    (tg pj : option str) :
  (forall r, In r (rows t) -> user_id r = uid -> done r = false ->
     scorable (priority_str r)) ->
  exists returned with_scores listing,
    (exists q, returned = sb_select q t /\
       (forall r, q r = true -> user_id r = uid /\ done r = false) /\
       (tg = None -> pj = None ->
        forall r, user_id r = uid -> done r = false -> q r = true)) /\
    Forall2 (scored today) returned with_scores /\
    get_tasks ilike today t uid tg pj = Ok listing /\
    Permutation with_scores listing /\
    StronglySorted (fun a b => score_key b <= score_key a) listing /\
    (forall k, List.filter (fun d => score_key d =? k) listing =
               List.filter (fun d => score_key d =? k) with_scores) /\
    (forall a b, In a listing -> In b listing -> score_key a = 8 -> score_key b = 0 ->
       before a b listing).
Proof.
  intros Hs.
  set (q1 := fun r => eq_user_id uid r && eq_done false r).
  set (q2 := fun r => match tg with
                      | Some ((_ :: _) as t0) => q1 r && eq_tag (upper t0) r
                      | _ => q1 r
                      end).
  set (q3 := fun r => match pj with
                      | Some ((_ :: _) as p) => q2 r && ilike_project ilike (lit "%" ++ p ++ lit "%") r
                      | _ => q2 r
                      end).
  assert (H1 : forall r, q1 r = true <-> user_id r = uid /\ done r = false).
  { intros r. unfold q1, eq_user_id, eq_done. rewrite andb_true_iff, Z.eqb_eq.
    destruct (done r); simpl; intuition congruence. }
  assert (H2 : forall r, q2 r = true -> q1 r = true).
  { intros r. unfold q2. destruct tg as [[|? ?]|]; auto.
    rewrite andb_true_iff. tauto. }
  assert (H3 : forall r, q3 r = true -> q2 r = true).
  { intros r. unfold q3. destruct pj as [[|? ?]|]; auto.
    rewrite andb_true_iff. tauto. }
  assert (Hsc : Forall (fun d => scorable (priority_str (d_row d))) (sb_select q3 t)).
  { unfold sb_select. apply List.Forall_forall. intros d Hd.
    apply in_map_iff in Hd as (r & <- & Hr). apply List.filter_In in Hr as [Hr Hq].
    apply H3, H2, H1 in Hq as [Hu Hd]. simpl. now apply Hs. }
  destruct (score_rows_scored today _ Hsc) as (ws & Hws & Hf).
  exists (sb_select q3 t), ws, (sort_desc score_key ws).
  split; [|split; [exact Hf|]].
  { exists q3. split; [reflexivity|]. split.
    - intros r Hq. now apply H1, H2, H3.
    - intros -> -> r Hu Hd. unfold q3, q2. apply H1. auto. }
  change (get_tasks ilike today t uid tg pj) with
    (bind (score_rows today (sb_select q3 t)) (fun rows => Ok (sort_desc score_key rows))).
  rewrite Hws. simpl. split; [reflexivity|].
  split; [apply sort_desc_perm|]. split; [apply sort_desc_sorted|].
  split; [intros k; apply sort_desc_stable|].
  intros a b Ha Hb Ka Kb. apply (sorted_before score_key); auto using sort_desc_sorted.
  lia.
Qed.

Example get_tasks_two_tasks :
  option_map (map score_key)
    match get_tasks no_ilike feb_10_2026 two_tasks 7 None None with
    | Ok l => Some l
    | Raise _ => None
    end = Some [8; 0].
Proof. vm_compute. reflexivity. Qed.

(** * Scores of stored records *)

Lemma priority_code_scorable (p : str) : priority_code p -> scorable (Some p).
Proof. intros (c & d & -> & _ & Hd). right. right. exists c, d, []. auto. Qed.

Lemma handle_message_no_raise (today : date) (uid : Z) (text : str) (st : state) (e : exn) :
  snd (handle_message today uid text st) <> Raised e.
Proof.
  unfold handle_message. destruct (strip text) as [|a s] eqn:Es; [discriminate|].
  set (p := parse_task (a :: s)). destruct (p_title p); [discriminate|].
  destruct (sb_insert_new _ _) as [t ins].
  assert (Hs : scorable (p_priority_str p)).
  { destruct (p_priority_str p) as [c|] eqn:Ep; [|now left].
    apply priority_code_scorable. now apply (parse_task_priority_code (a :: s)). }
  unfold calc_total_score. destruct (scorable_value _ Hs) as (v & ->). discriminate.
Qed.

Lemma calc_priority_value_word :
  calc_priority_value (Some (lit "high")) = Raise ValueError /\
  calc_priority_value (Some (lit "U")) = Raise IndexError.
Proof. split; reflexivity. Qed.

(** C10 fails on the code: [/edit 1 priority high] is accepted, and the
    listing of the owner's tasks then raises [ValueError]. *)
Lemma edit_priority_breaks_listing ilike :
  let ed := cmd_edit 7 [lit "1"; lit "priority"; lit "high"] after_lavar_ropa in
  option_map (map score_key)
    match get_tasks ilike feb_10_2026 (db after_lavar_ropa) 7 None None with
    | Ok l => Some l
    | Raise _ => None
    end = Some [3] /\
  snd ed = Replied (Updated 1 (lit "priority") (lit "high")) /\
  get_tasks ilike feb_10_2026 (db (fst ed)) 7 None None = Raise ValueError.
Proof. vm_compute. auto. Qed.

(** C9 fails on the code: the owner 7 has two active tasks, listed with the
    scores 8 and 0 in this order; after [/edit 1 priority high] the store
    still returns the two tasks, and the listing raises [ValueError] where
    the claim has them in descending order of score. *)
Lemma get_tasks_raises_after_edit ilike :
  let st := {| db := two_tasks; bot_data := ∅ |} in
  let ed := cmd_edit 7 [lit "1"; lit "priority"; lit "high"] st in
  option_map (map score_key)
    match get_tasks ilike feb_10_2026 two_tasks 7 None None with
    | Ok l => Some l
    | Raise _ => None
    end = Some [8; 0] /\
  snd ed = Replied (Updated 1 (lit "priority") (lit "high")) /\
  map (fun d => title (d_row d))
    (sb_select (fun r => eq_user_id 7 r && eq_done false r) (db (fst ed)))
  = [lit "Lavar ropa"; lit "Revisar doc"] /\
  get_tasks ilike feb_10_2026 (db (fst ed)) 7 None None = Raise ValueError.
Proof. vm_compute. auto. Qed.

(** The filters of the listing: the tag is compared in upper case. *)
Example get_tasks_tag_filter :
  option_map (map (fun d => title (d_row d)))
    match get_tasks no_ilike feb_10_2026 two_tasks 7 (Some (lit "fgr")) None with
    | Ok l => Some l
    | Raise _ => None
    end = Some [lit "Revisar doc"].
Proof. vm_compute. reflexivity. Qed.


(** * The theorems at concrete inputs *)

Lemma numbers_one_and_three (k : Z) : owner_number one_and_three 7 k <-> k = 1 \/ k = 3.
Proof.
  unfold owner_number. simpl. split.
  - intros (r & [<-|[<-|[]]] & _ & <-); simpl; auto.
  - intros [-> | ->]; eexists; split; [left; reflexivity | | right; left; reflexivity | ];
      simpl; auto.
Defined.

(** The number of a new task for an owner with the tasks 1 and 3. *)
Lemma next_available_id_smallest_unused_witness :
  smallest_free (owner_number one_and_three 7) (next_available_id one_and_three 7) /\
  ((forall k, owner_number one_and_three 7 k <-> k = 1 \/ k = 3) ->
   next_available_id one_and_three 7 = 2).
Proof. exact (next_available_id_smallest_unused one_and_three 7). Defined.

Lemma others_not_7 :
  Forall (fun uc : Z * command => fst uc <> 7) [(8, Text (lit "Llamar doctor @CS"))].
Proof. constructor; [simpl; lia | constructor]. Defined.

(** C5 at an owner who just wrote a task, with another owner writing in
    between. *)
Lemma undo_is_one_shot_witness :
  Forall (fun uc : Z * command => fst uc <> 7) [(8, Text (lit "Llamar doctor @CS"))] /\
  ((bot_data after_lavar_ropa !! 7 = None ->
    cmd_undo 7 after_lavar_ropa = (after_lavar_ropa, Replied NothingToUndo)) /\
   let st1 := fst (cmd_undo 7 after_lavar_ropa) in
   let st2 := session no_ilike feb_10_2026 [(8, Text (lit "Llamar doctor @CS"))] st1 in
   bot_data st1 !! 7 = None /\
   cmd_undo 7 st2 = (st2, Replied NothingToUndo)).
Proof.
  split; [exact others_not_7|].
  exact (undo_is_one_shot no_ilike feb_10_2026 7 after_lavar_ropa
           [(8, Text (lit "Llamar doctor @CS"))] others_not_7).
Defined.

Lemma unresolved_2 : unresolved (db session_one_and_three) 7 2.
Proof. intros r [<-|[<-|[]]] _ H; simpl in H; lia. Defined.

(** C8 at the number 2 of an owner with the tasks 1 and 3. *)
Lemma cmd_edit_not_found_witness :
  int (lit "2") = Ok 2 /\
  unresolved (db session_one_and_three) 7 2 /\
  cmd_edit 7 [lit "2"; lit "title"; lit "Planchar"] session_one_and_three
    = (session_one_and_three, Replied (NotFound 2)).
Proof.
  split; [reflexivity|]. split; [exact unresolved_2|].
  exact (cmd_edit_not_found 7 session_one_and_three (lit "2") (lit "title")
           (lit "Planchar") [] 2 eq_refl unresolved_2).
Defined.

(** C4 at task 3 of an owner with the tasks 1 and 3. *)
Lemma delete_then_undo_restores_witness :
  let r := task 3 7 3 "Llamar doctor" None None None false in
  int (lit "3") = Ok 3 /\
  In r (rows (db session_one_and_three)) /\ user_id r = 7 /\ task_id r = 3 /\
  done r = false /\
  let del := cmd_del 7 [lit "3"] session_one_and_three in
  let und := cmd_undo 7 (fst del) in
  exists d,
    In d (rows (db session_one_and_three)) /\ user_id d = 7 /\ task_id d = 3 /\
    done d = false /\
    snd del = Replied (Deleted (title d)) /\
    ~ In d (rows (db (fst del))) /\
    snd und = Replied (Restored (title d)) /\
    In d (rows (db (fst und))) /\
    bot_data (fst und) !! 7 = None.
Proof.
  intros r. split; [reflexivity|].
  assert (Hin : In r (rows (db session_one_and_three))) by (simpl; auto).
  split; [exact Hin|]. do 3 (split; [reflexivity|]).
  exact (delete_then_undo_restores 7 session_one_and_three (lit "3") [] 3 r
           eq_refl Hin eq_refl eq_refl eq_refl).
Defined.

Lemma two_tasks_scorable (r : row) :
  In r (rows two_tasks) -> user_id r = 7 -> done r = false -> scorable (priority_str r).
Proof.
  intros [<-|[<-|[]]] _ _; right; right.
  - exists "N"%char, "1"%char, []. split; reflexivity.
  - exists "U"%char, "2"%char, []. split; reflexivity.
Defined.

(** The listing of an owner with a task scoring 0 and a task scoring 8. *)
Lemma get_tasks_sorted_witness :
  (forall r, In r (rows two_tasks) -> user_id r = 7 -> done r = false ->
     scorable (priority_str r)) /\
  exists returned with_scores listing,
    (exists q, returned = sb_select q two_tasks /\
       (forall r, q r = true -> user_id r = 7 /\ done r = false) /\
       (@None str = None -> @None str = None ->
        forall r, user_id r = 7 -> done r = false -> q r = true)) /\
    Forall2 (scored feb_10_2026) returned with_scores /\
    get_tasks no_ilike feb_10_2026 two_tasks 7 None None = Ok listing /\
    Permutation with_scores listing /\
    StronglySorted (fun a b => score_key b <= score_key a) listing /\
    (forall k, List.filter (fun d => score_key d =? k) listing =
               List.filter (fun d => score_key d =? k) with_scores) /\
    (forall a b, In a listing -> In b listing -> score_key a = 8 -> score_key b = 0 ->
       before a b listing).
Proof.
  split; [exact two_tasks_scorable|].
  exact (get_tasks_sorted no_ilike feb_10_2026 two_tasks 7 None None two_tasks_scorable).
Defined.

(** * The order of the four steps *)

Lemma parse_task_source_order (text : str) :
  parse_task text = parse_in_order source_order text.
Proof.
  unfold parse_task, parse_in_order, source_order, apply_matcher. cbn [fold_left p_title].
  destruct (re_search tag_re (strip text)) as [m1|]; cbv beta iota zeta; cbn [p_title];
    match goal with |- context [re_search project_re ?r] =>
      destruct (re_search project_re r) as [m2|] end;
    cbv beta iota zeta; cbn [p_title];
    match goal with |- context [re_search priority_re ?r] =>
      destruct (re_search priority_re r) as [m3|] end;
    cbv beta iota zeta; cbn [p_title];
    match goal with |- context [re_search date_re ?r] =>
      destruct (re_search date_re r) as [m4|] end;
    reflexivity.
Qed.

(** C6, as the claim states it, fails: on ["|e@x y"] the project step taken
    before the tag step finds the project "@x" and no tag, while the order
    of the source finds the tag X and the project "y". *)
Lemma parse_in_order_project_first :
  parse_in_order [MProject; MTag; MPriority; MDate] (lit "|e@x y")
  <> parse_task (lit "|e@x y").
Proof. vm_compute. discriminate. Qed.

(** ** Where a pattern can match *)

Lemma marker_false (a : ascii) :
  marker a = false -> Ascii.eqb "@" a = false /\ Ascii.eqb "|" a = false.
Proof.
  unfold marker. rewrite orb_false_iff, (Ascii.eqb_sym a "@"), (Ascii.eqb_sym a "|").
  auto.
Qed.

Lemma no_match_plain (k : matcher) (a : ascii) (s : str) :
  marker a = false -> re_match_at (pattern k) (a :: s) = None.
Proof.
  intros H. apply marker_false in H as [H1 H2].
  destruct k; simpl pattern.
  - rewrite tag_match_eq. destruct s; [reflexivity|]. now rewrite H1.
  - rewrite project_match_eq. destruct s; [reflexivity|]. now rewrite H2.
  - rewrite priority_match_eq. destruct s; [reflexivity|]. now rewrite H2.
  - rewrite date_match_eq. destruct s; [reflexivity|]. now rewrite H2.
Qed.

Lemma no_match_empty (k : matcher) : re_match_at (pattern k) [] = None.
Proof. destruct k; reflexivity. Qed.

Lemma plain_tail (s1 s2 : str) : plain (s1 ++ s2) -> plain s2.
Proof. unfold plain, all. rewrite List.Forall_app. tauto. Qed.

Lemma plain_head (a : ascii) (s : str) : plain (a :: s) -> marker a = false.
Proof. intros H. apply all_cons_inv in H as [H _]. now apply negb_true_iff. Qed.

Lemma quiet_plain (k : matcher) (s : str) : plain s -> quiet (pattern k) s.
Proof.
  intros Hp s1 s2 rest -> Hne. apply plain_tail in Hp.
  destruct s2 as [|a s2]; [contradiction|]. simpl.
  apply no_match_plain. now apply plain_head in Hp.
Qed.

Lemma quiet_nil (r : re) : quiet r [].
Proof.
  intros s1 s2 rest H Hne. symmetry in H. apply app_eq_nil in H as [_ ->]. contradiction.
Qed.

Lemma quiet_cons (r : re) (a : ascii) (s : str) :
  (forall rest, re_match_at r (a :: s ++ rest) = None) -> quiet r s -> quiet r (a :: s).
Proof.
  intros Ha Hs s1 s2 rest He Hne. destruct s1 as [|b s1]; simpl in He.
  - subst s2. apply Ha.
  - injection He as -> He. now apply (Hs s1 s2).
Qed.

(** A token starts with the marker of its kind. *)
Lemma token_start (k : matcher) (tok v : str) :
  token_of k tok v ->
  exists a b t, tok = a :: b :: t /\
    match k with
    | MTag => a = "@"%char
    | MProject => a = "|"%char /\ (b = "e"%char \/ b = "E"%char)
    | MPriority => a = "|"%char /\ b = "p"%char
    | MDate => a = "|"%char /\ b = "f"%char
    end.
Proof.
  destruct k; simpl.
  - intros (run & -> & Hne & _). destruct run as [|b run]; [contradiction|]. eauto.
  - intros (e & ws & run & -> & He & _). eauto 6.
  - intros (ws1 & l & ws2 & d & -> & _). eauto 6.
  - intros (ws & ds & -> & _). eauto 6.
Qed.

Lemma no_match_other (k k' : matcher) (tok v rest : str) :
  matcher_eqb k k' = false -> token_of k' tok v ->
  re_match_at (pattern k) (tok ++ rest) = None.
Proof.
  intros Hk Ht. destruct (token_start k' tok v Ht) as (a & b & t & -> & Hs).
  destruct k, k'; try discriminate Hk; simpl pattern; simpl app;
    rewrite ?tag_match_eq, ?project_match_eq, ?priority_match_eq, ?date_match_eq;
    repeat match goal with
           | H : _ /\ _ |- _ => destruct H
           | H : _ \/ _ |- _ => destruct H
           end; subst; reflexivity.
Qed.

Lemma quiet_token (k k' : matcher) (tok v : str) :
  matcher_eqb k k' = false -> token_of k' tok v -> plain (tl tok) ->
  quiet (pattern k) tok.
Proof.
  intros Hk Ht Hp. pose proof (no_match_other k k' tok v) as Hn.
  destruct tok as [|a t]; [apply quiet_nil|]. simpl in Hp.
  apply quiet_cons.
  - intros rest. apply (Hn rest Hk Ht).
  - now apply quiet_plain.
Qed.

(** ** A complete token is matched whole *)

Lemma run_ends_take (post : str) : run_ends post -> take_while non_space post = [].
Proof.
  destruct post as [|a post]; [reflexivity|]. simpl. intros H.
  now rewrite (space_not_non_space a H).
Qed.

Lemma run_ends_drop_id (post : str) : run_ends post -> drop_while non_space post = post.
Proof.
  destruct post as [|a post]; [reflexivity|]. simpl. intros H.
  now rewrite (space_not_non_space a H).
Qed.

Lemma run_then_post (run post : str) :
  all non_space run -> run_ends post ->
  take_while non_space (run ++ post) = run /\ drop_while non_space (run ++ post) = post.
Proof.
  intros Hr Hp. rewrite take_while_all, drop_while_all by exact Hr.
  rewrite run_ends_take, run_ends_drop_id by exact Hp. now rewrite app_nil_r.
Qed.

Lemma match_token (k : matcher) (tok v post : str) :
  token_of k tok v -> follows k post ->
  exists g, re_match_at (pattern k) (tok ++ post) = Some (g, post) /\ value_of k g = v.
Proof.
  destruct k; simpl.
  - intros (run & -> & Hne & Hrun & ->) Hp. rewrite tag_match_eq.
    destruct run as [|b run]; [contradiction|].
    apply all_cons_inv in Hrun as [Hb Hrun]. simpl. rewrite Hb.
    destruct (run_then_post run post Hrun Hp) as [-> ->].
    eexists. split; reflexivity.
  - intros (e & ws & run & -> & He & Hws & Hne & Hrun & ->) Hp.
    rewrite project_match_eq. destruct run as [|b run]; [contradiction|].
    apply all_cons_inv in Hrun as [Hb Hrun]. apply lower_e in He.
    simpl. rewrite He, <- app_assoc. simpl.
    rewrite drop_spaces_run by auto using non_space_true. rewrite Hb.
    destruct (run_then_post run post Hrun Hp) as [-> ->].
    eexists. split; reflexivity.
  - intros (ws1 & l & ws2 & d & -> & H1 & Hl & H2 & Hd & ->) _.
    rewrite priority_match_eq.
    cbn -[one_of lit]. rewrite <- app_assoc. cbn -[one_of lit].
    rewrite <- app_assoc. cbn -[one_of lit].
    rewrite drop_spaces_run by auto using letter_non_space.
    rewrite (proj2 (one_of_In (lit "UuNn") l) Hl).
    rewrite drop_spaces_run by auto using digit_non_space.
    rewrite Hd. eexists. split; reflexivity.
  - intros (ws & ds & -> & Hws & Hlen & Hds & ->) _. rewrite date_match_eq.
    simpl. rewrite <- app_assoc.
    destruct ds as [|d ds]; [discriminate Hlen|].
    pose proof (all_cons_inv _ _ _ Hds) as [Hd _]. simpl app.
    rewrite drop_spaces_run by auto using digit_non_space.
    change (d :: ds ++ post) with ((d :: ds) ++ post).
    assert (Hf : firstn 6 ((d :: ds) ++ post) = d :: ds).
    { rewrite <- Hlen, firstn_app, Nat.sub_diag, firstn_all. apply app_nil_r. }
    assert (Hk : skipn 6 ((d :: ds) ++ post) = post).
    { rewrite <- Hlen, skipn_app, Nat.sub_diag, skipn_all. reflexivity. }
    rewrite Hf, Hk, take_while_id, Hlen by exact Hds.
    eexists. split; reflexivity.
Qed.

(** ** The search on a line of complete tokens *)

Lemma silent_nil (r : re) (rest : str) : silent r [] rest.
Proof.
  intros s1 s2 H Hne. symmetry in H. apply app_eq_nil in H as [_ ->]. contradiction.
Qed.

Lemma silent_tail (r : re) (a : ascii) (s rest : str) :
  silent r (a :: s) rest -> silent r s rest.
Proof. intros H s1 s2 -> Hne. now apply (H (a :: s1) s2). Qed.

Lemma silent_cons (r : re) (a : ascii) (s rest : str) :
  re_match_at r (a :: s ++ rest) = None -> silent r s rest -> silent r (a :: s) rest.
Proof.
  intros Ha Hs s1 s2 He Hne. destruct s1 as [|b s1]; simpl in He.
  - subst s2. exact Ha.
  - injection He as -> He. now apply (Hs s1 s2).
Qed.

Lemma silent_app (r : re) (s s' rest : str) :
  silent r s (s' ++ rest) -> silent r s' rest -> silent r (s ++ s') rest.
Proof.
  intros H H' s1 s2 He Hne.
  apply app_eq_app in He as (x & [[-> ->] | [-> ->]]).
  - destruct x as [|a x].
    + simpl. apply (H' [] s'); [reflexivity|]. simpl in Hne. exact Hne.
    + rewrite <- app_assoc. apply (H s1 (a :: x)); [reflexivity | discriminate].
  - apply (H' x s2); [reflexivity | exact Hne].
Qed.

Lemma quiet_silent (r : re) (s rest : str) : quiet r s -> silent r s rest.
Proof. intros H s1 s2 He Hne. now apply (H s1 s2 rest). Qed.

Lemma search_from_found (r : re) (acc pre rest : str) (g : list str) (post : str) :
  silent r pre rest -> re_match_at r rest = Some (g, post) ->
  re_search_from r acc (pre ++ rest)
  = Some {| m_pre := acc ++ pre; m_groups := g; m_post := post |}.
Proof.
  revert acc. induction pre as [|a pre IH]; intros acc Hq Hm.
  - simpl. rewrite app_nil_r. destruct rest; simpl; now rewrite Hm.
  - simpl. pose proof (Hq [] (a :: pre) eq_refl ltac:(discriminate)) as Hn.
    simpl in Hn. rewrite Hn.
    rewrite (IH (acc ++ [a])) by eauto using silent_tail.
    now rewrite <- app_assoc.
Qed.

Lemma search_from_silent (r : re) (acc s : str) :
  silent r s [] -> re_match_at r [] = None -> re_search_from r acc s = None.
Proof.
  intros Hq He. revert acc. induction s as [|a s IH]; intros acc; simpl.
  - now rewrite He.
  - pose proof (Hq [] (a :: s) eq_refl ltac:(discriminate)) as Hn.
    simpl in Hn. rewrite app_nil_r in Hn. rewrite Hn.
    apply IH. eauto using silent_tail.
Qed.

Lemma matcher_eqb_eq (k k' : matcher) : matcher_eqb k k' = true <-> k = k'.
Proof. destruct k, k'; simpl; split; congruence. Qed.

Lemma matcher_eqb_refl (k : matcher) : matcher_eqb k k = true.
Proof. now destruct k. Qed.

Lemma matcher_eqb_sym (k k' : matcher) : matcher_eqb k k' = matcher_eqb k' k.
Proof. now destruct k, k'. Qed.

Lemma search_pieces (k : matcher) (l : list piece) (pre0 : str) :
  orderly l -> silent (pattern k) pre0 (text_of l) ->
  match re_search_from (pattern k) [] (pre0 ++ text_of l) with
  | Some m =>
      find_token k l = Some (value_of k (m_groups m)) /\
      cut m = pre0 ++ text_of (remove_token k l)
  | None => find_token k l = None
  end.
Proof.
  revert pre0. induction l as [|[s|k' tok v] l IH]; intros pre0 Hwf Hq.
  - simpl. rewrite app_nil_r, search_from_silent; auto using no_match_empty.
  - destruct Hwf as [Hs Hwf]. simpl in Hq |- *. rewrite app_assoc.
    specialize (IH (pre0 ++ s) Hwf (silent_app _ _ _ _ Hq (Hs k []))).
    destruct (re_search_from _ _ _) as [m|]; [|exact IH].
    destruct IH as [-> ->]. now rewrite <- app_assoc.
  - destruct Hwf as (Ht & Hp & Hf & Hwf). simpl in Hq |- *.
    destruct (matcher_eqb k k') eqn:Ek.
    + apply matcher_eqb_eq in Ek. subst k'.
      destruct (match_token k tok v (text_of l) Ht (Hf [])) as (g & Hm & Hv).
      rewrite (search_from_found _ [] pre0 _ g (text_of l) Hq Hm).
      unfold cut. simpl. now rewrite Hv.
    + rewrite app_assoc.
      specialize (IH (pre0 ++ tok) Hwf (silent_app _ _ _ _ Hq (Hp k [] Ek))).
      destruct (re_search_from _ _ _) as [m|]; [|exact IH].
      destruct IH as [-> ->]. now rewrite <- app_assoc.
Qed.

Lemma remove_token_absent (k : matcher) (l : list piece) :
  find_token k l = None -> remove_token k l = l.
Proof.
  induction l as [|[s|k' tok v] l IH]; simpl; [reflexivity | |].
  - intros H. now rewrite IH.
  - destruct (matcher_eqb k k'); [discriminate|]. intros H. now rewrite IH.
Qed.

Lemma token_not_blank (k : matcher) (tok v rest : str) :
  token_of k tok v -> ~ run_ends (tok ++ rest).
Proof.
  intros Ht. destruct (token_start k tok v Ht) as (a & b & t & -> & Hs). simpl.
  destruct k; repeat match goal with H : _ /\ _ |- _ => destruct H end;
    subst; discriminate.
Qed.

Lemma run_ends_remove (k : matcher) (l : list piece) :
  well_formed l -> run_ends (text_of l) -> run_ends (text_of (remove_token k l)).
Proof.
  induction l as [|[s|k' tok v] l IH]; simpl; [auto | |].
  - intros [_ Hwf] H. destruct s as [|a s]; simpl in *; [now apply IH | exact H].
  - intros (Ht & _) H. now apply (token_not_blank k' tok v) in H.
Qed.

Lemma follows_remove (k' k : matcher) (l : list piece) :
  well_formed l -> follows k' (text_of l) -> follows k' (text_of (remove_token k l)).
Proof. destruct k'; simpl; auto using run_ends_remove. Qed.

Lemma well_formed_remove (k : matcher) (l : list piece) :
  well_formed l -> well_formed (remove_token k l).
Proof.
  induction l as [|[s|k' tok v] l IH]; simpl; [auto | |].
  - intros [Hs Hwf]. auto.
  - intros (Ht & Hp & Hf & Hwf). destruct (matcher_eqb k k'); [exact Hwf|].
    simpl. auto using follows_remove.
Qed.

Lemma find_token_remove (k k' : matcher) (l : list piece) :
  matcher_eqb k k' = false -> find_token k (remove_token k' l) = find_token k l.
Proof.
  intros Hk. induction l as [|[s|k2 tok v] l IH]; simpl; [reflexivity | exact IH |].
  destruct (matcher_eqb k' k2) eqn:E2.
  - apply matcher_eqb_eq in E2. subst k2. now rewrite Hk.
  - simpl. now rewrite IH.
Qed.

Lemma remove_token_comm (k k' : matcher) (l : list piece) :
  remove_token k (remove_token k' l) = remove_token k' (remove_token k l).
Proof.
  induction l as [|[s|k2 tok v] l IH]; simpl; [reflexivity | now rewrite IH |].
  destruct (matcher_eqb k' k2) eqn:E', (matcher_eqb k k2) eqn:E; simpl;
    rewrite ?E, ?E'; try reflexivity.
  - apply matcher_eqb_eq in E, E'. congruence.
  - now rewrite IH.
Qed.

(** ** The steps on a line of complete tokens, in any order *)

Lemma follows_removes (k : matcher) (ks : list matcher) (l : list piece) :
  well_formed l -> follows k (text_of l) -> follows k (text_of (removes ks l)).
Proof.
  revert l. induction ks as [|k' ks IH]; intros l Hwf H; simpl; [exact H|].
  apply IH; auto using well_formed_remove, follows_remove.
Qed.

(** A line of complete tokens between stretches without [@] and [|] is
    one whose tokens do not interfere. *)
Lemma well_formed_orderly (l : list piece) : well_formed l -> orderly l.
Proof.
  induction l as [|[s|k tok v] l IH]; simpl; [auto | |].
  - intros [Hs Hwf]. split; [|auto]. intros k ks. now apply quiet_silent, quiet_plain.
  - intros (Ht & Hp & Hf & Hwf). split; [exact Ht|]. split; [|split; [|auto]].
    + intros k' ks Ek. apply quiet_silent. now apply (quiet_token k' k tok v).
    + intros ks. now apply follows_removes.
Qed.

Lemma orderly_remove (k : matcher) (l : list piece) : orderly l -> orderly (remove_token k l).
Proof.
  induction l as [|[s|k' tok v] l IH]; simpl; [auto | |].
  - intros [Hs Hwf]. split; [|auto]. intros k0 ks. apply (Hs k0 (k :: ks)).
  - intros (Ht & Hp & Hf & Hwf). destruct (matcher_eqb k k'); [exact Hwf|].
    simpl. split; [exact Ht|]. split; [|split; [|auto]].
    + intros k0 ks E. apply (Hp k0 (k :: ks) E).
    + intros ks. apply (Hf (k :: ks)).
Qed.

Lemma orderly_removes (ks : list matcher) (l : list piece) :
  orderly l -> orderly (removes ks l).
Proof.
  revert l. induction ks as [|k ks IH]; intros l H; simpl; [exact H|].
  apply IH. now apply orderly_remove.
Qed.

Lemma find_token_removes (k : matcher) (ks : list matcher) (l : list piece) :
  existsb (matcher_eqb k) ks = false -> find_token k (removes ks l) = find_token k l.
Proof.
  revert l. induction ks as [|k' ks IH]; intros l H; simpl in *; [reflexivity|].
  apply orb_false_iff in H as [Hk H]. rewrite IH by exact H.
  now apply find_token_remove.
Qed.

Lemma existsb_snoc (k k' : matcher) (ks : list matcher) :
  existsb (matcher_eqb k) (ks ++ [k']) = existsb (matcher_eqb k) ks || matcher_eqb k k'.
Proof. rewrite existsb_app. simpl. now rewrite orb_false_r. Qed.

Lemma removes_snoc (k : matcher) (ks : list matcher) (l : list piece) :
  removes (ks ++ [k]) l = remove_token k (removes ks l).
Proof. unfold removes. now rewrite fold_left_app. Qed.

Lemma step_on (ks : list matcher) (k : matcher) (l : list piece) :
  existsb (matcher_eqb k) ks = false -> orderly l ->
  apply_matcher (steps_on ks l) k = steps_on (ks ++ [k]) l.
Proof.
  intros Hk Hwf.
  pose proof (search_pieces k (removes ks l) [] (orderly_removes ks l Hwf)
                (silent_nil _ _)) as Hs.
  simpl app in Hs. rewrite (find_token_removes k ks l Hk) in Hs.
  unfold steps_on.
  rewrite removes_snoc, !existsb_snoc.
  unfold apply_matcher. cbn [p_title p_tag p_project p_priority_str p_date_str].
  unfold re_search.
  destruct k; simpl pattern in Hs; simpl value_of in Hs; simpl in Hk;
    (destruct (re_search_from _ [] (text_of (removes ks l))) as [m|];
     simpl matcher_eqb; rewrite ?orb_false_r, ?orb_true_r, ?Hk;
     [ destruct Hs as [Hv Hc]; rewrite Hc, Hv; reflexivity
     | rewrite Hs, remove_token_absent
         by (rewrite find_token_removes by exact Hk; exact Hs);
       reflexivity ]).
Qed.

Lemma fold_steps (ks : list matcher) (l : list piece) :
  List.NoDup ks -> orderly l ->
  fold_left apply_matcher ks (steps_on [] l) = steps_on ks l.
Proof.
  intros Hnd Hwf. induction ks as [|k ks IH] using rev_ind; [reflexivity|].
  apply NoDup_remove in Hnd as [Hnd Hk]. rewrite app_nil_r in Hnd, Hk.
  rewrite fold_left_app. simpl. rewrite IH by exact Hnd. apply step_on; [|exact Hwf].
  destruct (existsb (matcher_eqb k) ks) eqn:E; [|reflexivity].
  apply existsb_exists in E as (k' & Hin & Ek). apply matcher_eqb_eq in Ek.
  subst k'. contradiction.
Qed.

Lemma existsb_perm (k : matcher) (ks ks' : list matcher) :
  Permutation ks ks' -> existsb (matcher_eqb k) ks = existsb (matcher_eqb k) ks'.
Proof.
  induction 1 as [|x ks ks' _ IH|x y ks|ks ks1 ks2 _ IH1 _ IH2]; simpl.
  - reflexivity.
  - now rewrite IH.
  - now rewrite !orb_assoc, (orb_comm (matcher_eqb k y)).
  - congruence.
Qed.

Lemma removes_perm (ks ks' : list matcher) :
  Permutation ks ks' -> forall l, removes ks l = removes ks' l.
Proof.
  induction 1 as [|x ks ks' _ IH|x y ks|ks ks1 ks2 _ IH1 _ IH2]; intros l; simpl.
  - reflexivity.
  - apply IH.
  - now rewrite remove_token_comm.
  - now rewrite IH1.
Qed.

Lemma steps_on_perm (ks ks' : list matcher) (l : list piece) :
  Permutation ks ks' -> steps_on ks l = steps_on ks' l.
Proof.
  intros H. unfold steps_on.
  rewrite (removes_perm ks ks' H l).
  now rewrite !(existsb_perm _ ks ks' H).
Qed.

Lemma source_order_NoDup : List.NoDup source_order.
Proof. repeat constructor; simpl; intuition discriminate. Qed.

Lemma parse_in_order_steps (order : list matcher) (text : str) (l : list piece) :
  strip text = text_of l -> orderly l -> List.NoDup order ->
  parse_in_order order text =
  let acc := steps_on order l in
  {| p_title := strip (sub_spaces false (p_title acc)); p_tag := p_tag acc;
     p_project := p_project acc; p_priority_str := p_priority_str acc;
     p_date_str := p_date_str acc |}.
Proof.
  intros Ht Hwf Hnd. unfold parse_in_order. rewrite Ht.
  change {| p_title := text_of l; p_tag := None; p_project := None;
            p_priority_str := None; p_date_str := None |} with (steps_on [] l).
  now rewrite fold_steps.
Qed.

(** C6 (as amended).  For every line that, trimmed, can be cut into
    stretches and complete tokens that do not interfere (in the line and in
    what is left of it once tokens were taken out, no pattern matches from
    inside a stretch or from inside a token of another kind, and a tag or a
    project token ends at a blank or at the end of the line), every order
    of the four steps gives the result of [parse_task]: each token, once
    matched, is taken out before the next is sought, and no step sees
    another token's text as its own.  On other lines the result may depend
    on the order, which is tag, project, priority, date in the source. *)
Theorem parse_order_independent (text : str) (l : list piece) (order : list matcher) :
  strip text = text_of l -> orderly l -> Permutation order source_order ->
  parse_in_order order text = parse_task text.
Proof.
  intros Ht Hwf Hp. rewrite parse_task_source_order.
  rewrite (parse_in_order_steps order text l), (parse_in_order_steps source_order text l);
    auto using source_order_NoDup.
  - now rewrite (steps_on_perm order source_order l Hp).
  - apply (Permutation_NoDup (Permutation_sym Hp)), source_order_NoDup.
Qed.

Lemma plain_lit_check (s : str) :
  forallb (fun a => negb (marker a)) s = true -> plain s.
Proof. intros H. apply List.Forall_forall. now apply forallb_forall. Defined.

Lemma all_check (c : ascii -> bool) (s : str) : forallb c s = true -> all c s.
Proof. intros H. apply List.Forall_forall. now apply forallb_forall. Defined.

Lemma help_line_well_formed : well_formed help_line_pieces.
Proof.
  simpl. repeat split; try (apply plain_lit_check; reflexivity).
  - exists (lit "FGR"). repeat split; [discriminate | apply all_check; reflexivity].
  - exists "e"%char, (lit " "), (lit "Sellout").
    repeat split; auto using all_check; discriminate.
  - exists [], "U"%char, [], "2"%char.
    repeat split; auto using all_check. simpl. auto.
  - exists [], (lit "150226"). repeat split; auto using all_check.
Defined.

Lemma reverse_order_perm : Permutation reverse_order source_order.
Proof.
  change (Permutation (rev source_order) source_order).
  apply Permutation_sym, Permutation_rev.
Defined.

Lemma help_line_orderly : orderly help_line_pieces.
Proof. exact (well_formed_orderly help_line_pieces help_line_well_formed). Defined.

(** C6 at the line of the help text, the steps taken last to first. *)
Lemma parse_order_independent_witness :
  strip help_line = text_of help_line_pieces /\
  orderly help_line_pieces /\
  Permutation reverse_order source_order /\
  parse_in_order reverse_order help_line = parse_task help_line.
Proof.
  split; [reflexivity|]. split; [exact help_line_orderly|].
  split; [exact reverse_order_perm|].
  exact (parse_order_independent help_line help_line_pieces reverse_order
           eq_refl help_line_orderly reverse_order_perm).
Defined.

(** ** Lines with marker characters that start no token *)

Lemma removes_nil (ks : list matcher) : removes ks [] = [].
Proof. induction ks as [|k ks IH]; [reflexivity | exact IH]. Qed.

(** One stretch is a line whose tokens do not interfere when no pattern
    matches anywhere in it. *)
Lemma stretch_orderly (s : str) :
  (forall k, silent (pattern k) s []) -> orderly [Plain s].
Proof.
  intros H. simpl. split; [|exact I]. intros k ks. rewrite removes_nil. apply H.
Qed.

Lemma stray_markers_orderly :
  orderly [Plain (lit "a | b")] /\ orderly [Plain (lit "@")] /\
  orderly [Plain (lit "precio 5|6 juan@")].
Proof.
  repeat split; try exact I; intros k ks; rewrite removes_nil;
    repeat (apply silent_cons; [destruct k; reflexivity|]); apply silent_nil.
Qed.

(** * Tables under the statements of the handlers *)

Lemma ids_inj (l : list row) (r1 r2 : row) :
  List.NoDup (map row_id l) -> In r1 l -> In r2 l -> row_id r1 = row_id r2 -> r1 = r2.
Proof.
  induction l as [|x l IH]; simpl; [tauto|].
  intros Hnd H1 H2 He. inversion Hnd as [|? ? Hx Hnd']; subst.
  destruct H1 as [->|H1], H2 as [->|H2]; auto.
  - exfalso. apply Hx. rewrite He. now apply in_map.
  - exfalso. apply Hx. rewrite <- He. now apply in_map.
Qed.

Lemma has_id_owner (t : table) (rid uid : Z) (r : row) :
  table_ok t -> has_id t rid uid -> In r (rows t) -> row_id r = rid -> user_id r = uid.
Proof.
  intros Ht (r0 & H0 & Hi & Hu) Hr He.
  rewrite (ids_inj (rows t) r r0 (ids_unique t Ht) Hr H0); congruence.
Qed.

(** ** Updates *)

Lemma keeps_set_done (b : bool) : keeps (set_done b).
Proof. intros r. reflexivity. Qed.

Lemma keeps_set_field (f : db_field) (v : option str) : keeps (set_field f v).
Proof. intros r. destruct f; try reflexivity. now destruct v. Qed.

Lemma key_eq (r r' : row) :
  key r' = key r -> row_id r' = row_id r /\ user_id r' = user_id r /\ task_id r' = task_id r.
Proof. unfold key. intros [= -> -> ->]. auto. Qed.

Section Update.
Variable f : row -> row.
Variable rid : Z.
Hypothesis Hf : keeps f.

Lemma update_key (r : row) : key (updated f rid r) = key r.
Proof. unfold updated. destruct (row_id r =? rid); [apply Hf | reflexivity]. Qed.

Lemma update_rows (t : table) : rows (sb_update f rid t) = map (updated f rid) (rows t).
Proof. reflexivity. Qed.

Lemma update_In (t : table) (r' : row) :
  In r' (rows (sb_update f rid t)) ->
  exists r, In r (rows t) /\ key r' = key r.
Proof.
  rewrite update_rows, in_map_iff. intros (r & <- & Hr). exists r.
  split; [exact Hr | apply update_key].
Qed.

Lemma update_In_back (t : table) (r : row) :
  In r (rows t) -> exists r', In r' (rows (sb_update f rid t)) /\ key r' = key r.
Proof.
  intros Hr. exists (updated f rid r). split; [now apply in_map | apply update_key].
Qed.

Lemma update_ids (t : table) : map row_id (rows (sb_update f rid t)) = map row_id (rows t).
Proof.
  rewrite update_rows, map_map. apply map_ext. intros r.
  now destruct (key_eq _ _ (update_key r)) as (-> & _).
Qed.

Lemma table_ok_update (t : table) : table_ok t -> table_ok (sb_update f rid t).
Proof.
  intros [Hu Hi Hr Hn]. split.
  - now rewrite update_ids.
  - intros r' H'. destruct (update_In t r' H') as (r & Hin & Hk).
    apply key_eq in Hk as (-> & _). now apply Hi.
  - intros r' H'. destruct (update_In t r' H') as (r & Hin & Hk).
    apply key_eq in Hk as (_ & _ & ->). now apply Hr.
  - intros r1' r2' H1 H2.
    destruct (update_In t r1' H1) as (r1 & Hin1 & Hk1).
    destruct (update_In t r2' H2) as (r2 & Hin2 & Hk2).
    apply key_eq in Hk1 as (-> & -> & ->). apply key_eq in Hk2 as (-> & -> & ->).
    now apply Hn.
Qed.

Lemma has_id_update (t : table) (i uid : Z) :
  has_id t i uid <-> has_id (sb_update f rid t) i uid.
Proof.
  split.
  - intros (r & Hr & Hi & Hu). destruct (update_In_back t r Hr) as (r' & Hr' & Hk).
    apply key_eq in Hk as (Hk1 & Hk2 & _). exists r'. repeat split; congruence.
  - intros (r' & Hr' & Hi & Hu). destruct (update_In t r' Hr') as (r & Hr & Hk).
    apply key_eq in Hk as (Hk1 & Hk2 & _). exists r. repeat split; congruence.
Qed.

Lemma slot_ok_update (t : table) (uid : Z) (u : undo) :
  slot_ok t uid u -> slot_ok (sb_update f rid t) uid u.
Proof.
  destruct u as [i|i|ids|d|i fl v]; simpl;
    try (intros H; now apply (proj1 (has_id_update t i uid))).
  - intros H i Hi. now apply (proj1 (has_id_update t i uid)), H.
  - intros (Hu & Hlt & Hfresh & Hrg & Hnum). repeat split; auto; try lia.
    + intros r' H'. destruct (update_In t r' H') as (r & Hr & Hk).
      apply key_eq in Hk as (-> & _). now apply Hfresh.
    + intros Hlt99 r' H'. destruct (update_In t r' H') as (r & Hr & Hk).
      apply key_eq in Hk as (_ & -> & ->). now apply Hnum.
Qed.

Lemma owner_rows_update (t : table) (uid : Z) :
  (forall r, In r (rows t) -> row_id r = rid -> user_id r <> uid) ->
  owner_rows uid (sb_update f rid t) = owner_rows uid t.
Proof.
  unfold owner_rows. rewrite update_rows. intros H.
  induction (rows t) as [|r l IH]; [reflexivity|]. simpl.
  assert (IH' : List.filter (eq_user_id uid) (map (updated f rid) l) = List.filter (eq_user_id uid) l).
  { apply IH. intros r0 H0. apply H. now right. }
  rewrite IH'. unfold updated. destruct (Z.eqb_spec (row_id r) rid) as [He|Hne];
    [|reflexivity].
  pose proof (H r (or_introl eq_refl) He) as Hu.
  destruct (key_eq _ _ (Hf r)) as (_ & Hfu & _).
  unfold eq_user_id. rewrite Hfu.
  destruct (Z.eqb_spec (user_id r) uid); [contradiction | reflexivity].
Qed.
End Update.

Lemma mark_all_next_id (b : bool) (ids : list Z) (t : table) :
  next_id (fold_left (mark_done b) ids t) = next_id t.
Proof. revert t. induction ids as [|i ids IH]; intros t; simpl; [reflexivity|]. now rewrite IH. Qed.

Lemma table_ok_mark_all (b : bool) (ids : list Z) (t : table) :
  table_ok t -> table_ok (fold_left (mark_done b) ids t).
Proof.
  revert t. induction ids as [|i ids IH]; intros t H; simpl; [exact H|].
  apply IH. apply table_ok_update; [apply keeps_set_done | exact H].
Qed.

Lemma has_id_mark_all (b : bool) (ids : list Z) (t : table) (i uid : Z) :
  has_id t i uid <-> has_id (fold_left (mark_done b) ids t) i uid.
Proof.
  revert t. induction ids as [|j ids IH]; intros t; simpl; [tauto|].
  rewrite <- IH. apply has_id_update, keeps_set_done.
Qed.

Lemma slot_ok_mark_all (b : bool) (ids : list Z) (t : table) (uid : Z) (u : undo) :
  slot_ok t uid u -> slot_ok (fold_left (mark_done b) ids t) uid u.
Proof.
  revert t. induction ids as [|j ids IH]; intros t H; simpl; [exact H|].
  apply IH. apply slot_ok_update; [apply keeps_set_done | exact H].
Qed.

Lemma owner_rows_mark_all (b : bool) (ids : list Z) (t : table) (uid v : Z) :
  table_ok t -> v <> uid -> (forall i, In i ids -> has_id t i v) ->
  owner_rows uid (fold_left (mark_done b) ids t) = owner_rows uid t.
Proof.
  revert t. induction ids as [|j ids IH]; intros t Ht Hv Hids; simpl; [reflexivity|].
  rewrite IH; auto.
  - apply owner_rows_update; [apply keeps_set_done|].
    intros r Hr He Hu. apply Hv. rewrite <- Hu.
    symmetry. apply (has_id_owner t j v r Ht); auto. apply Hids. now left.
  - apply table_ok_update; [apply keeps_set_done | exact Ht].
  - intros i Hi. apply (proj1 (has_id_update _ _ (keeps_set_done b) t i v)).
    apply Hids. now right.
Qed.

(** ** Inserts *)

Lemma table_ok_append (t : table) (r : row) (n' : Z) :
  table_ok t -> next_id t <= n' -> row_id r < n' ->
  (forall r0, In r0 (rows t) -> row_id r0 <> row_id r) ->
  1 <= task_id r <= 99 ->
  (task_id r < 99 ->
   forall r0, In r0 (rows t) -> user_id r0 = user_id r -> task_id r0 <> task_id r) ->
  table_ok {| rows := rows t ++ [r]; next_id := n' |}.
Proof.
  intros [Hu Hi Hr Hn] Hle Hlt Hfresh Hrange Hnum. split; simpl.
  - rewrite map_app. simpl. apply List.NoDup_app.
    + exact Hu.
    + repeat constructor. intros [].
    + intros x Hx [<-|[]]. apply in_map_iff in Hx as (r0 & He & H0).
      now apply (Hfresh r0 H0).
  - intros r0 H0. apply in_app_or in H0 as [H0|[<-|[]]]; [|exact Hlt].
    specialize (Hi r0 H0). lia.
  - intros r0 H0. apply in_app_or in H0 as [H0|[<-|[]]]; auto.
  - intros r1 r2 H1 H2 Hus Hts Hlt99.
    apply in_app_or in H1 as [H1|[<-|[]]]; apply in_app_or in H2 as [H2|[<-|[]]]; auto.
    + exfalso. apply (Hnum ltac:(lia) r1 H1 Hus Hts).
    + exfalso. apply (Hnum Hlt99 r2 H2); congruence.
Qed.

Lemma has_id_append (t : table) (r : row) (n' i uid : Z) :
  has_id t i uid -> has_id {| rows := rows t ++ [r]; next_id := n' |} i uid.
Proof.
  intros (r0 & H0 & Hi & Hu). exists r0. simpl. split; [|auto].
  apply in_or_app. now left.
Qed.

(** The slot of another owner beside a table that gained a row. *)
Lemma slot_ok_append (t : table) (r : row) (n' w : Z) (u : undo) :
  slot_ok t w u -> next_id t <= n' -> user_id r <> w ->
  (forall d, u = UDelete d -> row_id r <> row_id (d_row d)) ->
  slot_ok {| rows := rows t ++ [r]; next_id := n' |} w u.
Proof.
  intros H Hle Hw Hd. destruct u as [i|i|ids|d|i fl v]; simpl in *;
    try (now apply has_id_append).
  - intros i Hi. now apply has_id_append, H.
  - destruct H as (Hu & Hlt & Hfresh & Hrg & Hnum). repeat split; auto; try lia.
    + intros r0 H0. apply in_app_or in H0 as [H0|[<-|[]]]; [now apply Hfresh|].
      now apply Hd.
    + intros Hlt99 r0 H0 Hu0. apply in_app_or in H0 as [H0|[<-|[]]]; [now apply Hnum|].
      contradiction.
Qed.

Lemma owner_rows_append (t : table) (r : row) (n' uid : Z) :
  user_id r <> uid ->
  owner_rows uid {| rows := rows t ++ [r]; next_id := n' |} = owner_rows uid t.
Proof.
  intros H. unfold owner_rows. simpl. rewrite List.filter_app. simpl.
  unfold eq_user_id at 2. destruct (Z.eqb_spec (user_id r) uid); [contradiction|].
  apply app_nil_r.
Qed.

(** ** Deletes *)

Lemma delete_In (rid : Z) (t : table) (r : row) :
  In r (rows (sb_delete rid t)) <-> In r (rows t) /\ row_id r <> rid.
Proof.
  unfold sb_delete. simpl. rewrite List.filter_In, negb_true_iff, Z.eqb_neq. tauto.
Qed.

Lemma NoDup_map_filter {A B} (f : A -> B) (p : A -> bool) (l : list A) :
  List.NoDup (map f l) -> List.NoDup (map f (List.filter p l)).
Proof.
  induction l as [|x l IH]; simpl; [auto|].
  intros H. inversion H as [|? ? Hx Hnd]; subst.
  destruct (p x); simpl; [|auto]. constructor; [|auto].
  intros Hin. apply Hx. apply in_map_iff in Hin as (y & He & Hy).
  apply List.filter_In in Hy as [Hy _]. rewrite <- He. now apply in_map.
Qed.

Lemma table_ok_delete (rid : Z) (t : table) : table_ok t -> table_ok (sb_delete rid t).
Proof.
  intros [Hu Hi Hr Hn]. split.
  - unfold sb_delete. simpl. now apply NoDup_map_filter.
  - intros r H. apply delete_In in H as [H _]. now apply Hi.
  - intros r H. apply delete_In in H as [H _]. now apply Hr.
  - intros r1 r2 H1 H2. apply delete_In in H1 as [H1 _]. apply delete_In in H2 as [H2 _].
    now apply Hn.
Qed.

Lemma has_id_delete (rid : Z) (t : table) (i uid : Z) :
  has_id t i uid -> i <> rid -> has_id (sb_delete rid t) i uid.
Proof.
  intros (r & Hr & Hi & Hu) Hne. exists r. split; [|auto].
  apply delete_In. split; [exact Hr | congruence].
Qed.

(** The slot of another owner beside a table that lost the rows with the
    id of a row of [v]. *)
Lemma slot_ok_delete (rid : Z) (t : table) (v w : Z) (u : undo) :
  table_ok t -> has_id t rid v -> v <> w ->
  slot_ok t w u -> slot_ok (sb_delete rid t) w u.
Proof.
  intros Ht Hv Hvw H.
  assert (Hne : forall i, has_id t i w -> i <> rid).
  { intros i (r & Hr & Hi & Hu) He. apply Hvw. rewrite <- Hu. symmetry.
    apply (has_id_owner t rid v r Ht Hv Hr). congruence. }
  destruct u as [i|i|ids|d|i fl x]; simpl in *; try (apply has_id_delete; auto).
  - intros i Hi. apply has_id_delete; auto.
  - destruct H as (Hu & Hlt & Hfresh & Hrg & Hnum). repeat split; auto; try lia.
    + intros r H0. apply delete_In in H0 as [H0 _]. now apply Hfresh.
    + intros Hlt99 r H0. apply delete_In in H0 as [H0 _]. now apply Hnum.
Qed.

Lemma owner_rows_delete (rid : Z) (t : table) (uid : Z) :
  (forall r, In r (rows t) -> row_id r = rid -> user_id r <> uid) ->
  owner_rows uid (sb_delete rid t) = owner_rows uid t.
Proof.
  unfold owner_rows, sb_delete. simpl. intros H.
  induction (rows t) as [|r l IH]; [reflexivity|]. simpl.
  assert (IH' : List.filter (eq_user_id uid) (List.filter (fun r => negb (row_id r =? rid)) l)
                = List.filter (eq_user_id uid) l).
  { apply IH. intros r0 H0. apply H. now right. }
  destruct (Z.eqb_spec (row_id r) rid) as [He|Hne]; simpl.
  - rewrite IH'. pose proof (H r (or_introl eq_refl) He) as Hu.
    unfold eq_user_id. destruct (Z.eqb_spec (user_id r) uid); [contradiction | reflexivity].
  - now rewrite IH'.
Qed.

(** * Every command keeps the state consistent *)

Lemma consistent_set (st : state) (t' : table) (v : Z) (u : undo) :
  consistent st -> table_ok t' -> slot_ok t' v u ->
  (forall w u', w <> v -> bot_data st !! w = Some u' -> slot_ok t' w u') ->
  (forall d, u = UDelete d -> forall w d', w <> v ->
     bot_data st !! w = Some (UDelete d') -> row_id (d_row d) <> row_id (d_row d')) ->
  consistent {| db := t'; bot_data := <[v:=u]> (bot_data st) |}.
Proof.
  intros [Ht Hs Hd] Ht' Hu Ho Hdel. split; simpl.
  - exact Ht'.
  - intros w u'. destruct (decide (v = w)) as [<-|Hne].
    + rewrite lookup_insert_eq. now intros [= <-].
    + rewrite lookup_insert_ne by exact Hne. apply Ho. congruence.
  - intros u1 u2 d1 d2 Hne.
    destruct (decide (v = u1)) as [<-|H1], (decide (v = u2)) as [<-|H2];
      rewrite ?lookup_insert_eq, ?lookup_insert_ne by assumption.
    + contradiction.
    + intros [= ->] H. apply (Hdel d1 eq_refl u2 d2); [congruence | exact H].
    + intros H [= ->] He. apply (Hdel d2 eq_refl u1 d1); [congruence | exact H | congruence].
    + now apply Hd.
Qed.

Lemma consistent_pop (st : state) (t' : table) (v : Z) :
  consistent st -> table_ok t' ->
  (forall w u', w <> v -> bot_data st !! w = Some u' -> slot_ok t' w u') ->
  consistent {| db := t'; bot_data := delete v (bot_data st) |}.
Proof.
  intros [Ht Hs Hd] Ht' Ho. split; simpl.
  - exact Ht'.
  - intros w u'. destruct (decide (v = w)) as [<-|Hne].
    + now rewrite lookup_delete_eq.
    + rewrite lookup_delete_ne by exact Hne. apply Ho. congruence.
  - intros u1 u2 d1 d2 Hne.
    destruct (decide (v = u1)) as [<-|H1]; [now rewrite lookup_delete_eq|].
    destruct (decide (v = u2)) as [<-|H2]; [now rewrite lookup_delete_eq|].
    rewrite !lookup_delete_ne by assumption. now apply Hd.
Qed.

(** ** The rows the handlers select *)

Lemma select_head (p : row -> bool) (t : table) (d : rowdict) (l : list rowdict) :
  sb_select p t = d :: l -> In (d_row d) (rows t) /\ p (d_row d) = true /\ d_score d = None.
Proof.
  unfold sb_select. intros H.
  assert (Hin : In d (map fetched (List.filter p (rows t)))) by (rewrite H; now left).
  apply in_map_iff in Hin as (r & <- & Hr). apply List.filter_In in Hr as [Hr Hp].
  auto.
Qed.

Lemma active_task_spec (uid n : Z) (r : row) :
  active_task uid n r = true <-> user_id r = uid /\ task_id r = n /\ done r = false.
Proof.
  unfold active_task, eq_user_id, eq_task_id, eq_done.
  rewrite !andb_true_iff, !Z.eqb_eq. destruct (done r); simpl; intuition congruence.
Qed.

Lemma select_active (uid n : Z) (t : table) (d : rowdict) (l : list rowdict) :
  sb_select (active_task uid n) t = d :: l ->
  In (d_row d) (rows t) /\ user_id (d_row d) = uid /\ task_id (d_row d) = n /\
  done (d_row d) = false /\ has_id t (row_id (d_row d)) uid.
Proof.
  intros H. apply select_head in H as (Hin & Hp & _).
  apply active_task_spec in Hp as (Hu & Hn & Hd).
  repeat split; auto. now exists (d_row d).
Qed.

Lemma score_rows_rows (today : date) (l l' : list rowdict) :
  score_rows today l = Ok l' -> map d_row l' = map d_row l.
Proof.
  revert l'. induction l as [|d l IH]; simpl; intros l'.
  - now intros [= <-].
  - destruct (calc_total_score _ _ _ _); [|discriminate]. simpl.
    destruct (score_rows today l) as [l0|]; [|discriminate]. simpl.
    intros [= <-]. simpl. now rewrite (IH l0 eq_refl).
Qed.

Lemma sort_desc_In {A} (key : A -> Z) (l : list A) (x : A) :
  In x (sort_desc key l) <-> In x l.
Proof.
  assert (Hi : forall y l0, In x (insert_desc key y l0) <-> x = y \/ In x l0).
  { intros y l0. induction l0 as [|z l0 IH]; simpl; [intuition|].
    destruct (key z <=? key y); simpl; [intuition|]. rewrite IH. intuition. }
  induction l as [|y l IH]; simpl; [tauto|]. rewrite Hi, IH. intuition.
Qed.

Lemma get_tasks_rows ilike (today : date) (t : table) (uid : Z) (tg pj : option str)
    (tasks : list rowdict) :
  get_tasks ilike today t uid tg pj = Ok tasks ->
  forall d, In d tasks ->
    In (d_row d) (rows t) /\ user_id (d_row d) = uid /\ done (d_row d) = false.
Proof.
  unfold get_tasks. cbv zeta.
  match goal with |- context [sb_select ?q t] => set (q3 := q) end.
  assert (H3 : forall r, q3 r = true -> eq_user_id uid r && eq_done false r = true).
  { intros r. unfold q3. destruct pj as [[|? ?]|], tg as [[|? ?]|];
      rewrite ?andb_true_iff; tauto. }
  destruct (score_rows today (sb_select q3 t)) as [ws|] eqn:Hws; [|discriminate].
  simpl. intros [= <-] d Hd. apply sort_desc_In in Hd.
  apply score_rows_rows in Hws.
  assert (Hin : In (d_row d) (map d_row (sb_select q3 t))).
  { rewrite <- Hws. now apply in_map. }
  unfold sb_select in Hin. rewrite map_map in Hin. simpl in Hin.
  rewrite map_id in Hin. apply List.filter_In in Hin as [Hin Hq].
  apply H3 in Hq. unfold eq_user_id, eq_done in Hq.
  apply andb_true_iff in Hq as [Hu Hdn]. apply Z.eqb_eq in Hu.
  split; [exact Hin|]. split; [exact Hu|]. now destruct (done (d_row d)).
Qed.

Lemma state_eta (st : state) : {| db := db st; bot_data := bot_data st |} = st.
Proof. now destruct st. Qed.

Lemma others_update (st : state) (f : row -> row) (rid v : Z) :
  keeps f -> consistent st ->
  forall w u', w <> v -> bot_data st !! w = Some u' ->
    slot_ok (sb_update f rid (db st)) w u'.
Proof.
  intros Hf Hc w u' _ Hw. apply slot_ok_update; [exact Hf|].
  now apply (slots_consistent st Hc).
Qed.

Lemma others_mark_all (st : state) (b : bool) (ids : list Z) (v : Z) :
  consistent st ->
  forall w u', w <> v -> bot_data st !! w = Some u' ->
    slot_ok (fold_left (mark_done b) ids (db st)) w u'.
Proof.
  intros Hc w u' _ Hw. apply slot_ok_mark_all. now apply (slots_consistent st Hc).
Qed.

Lemma cmd_done_consistent ilike (today : date) (v : Z) (args : list str) (st : state) :
  consistent st -> consistent (fst (cmd_done ilike today v args st)).
Proof.
  intros Hc. pose proof (table_consistent st Hc) as Ht.
  unfold cmd_done. destruct args as [|a0 args]; [exact Hc|].
  destruct (str_eqb _ _).
  - destruct (get_tasks _ _ _ _ _ _) as [[|d l]|e] eqn:Hg; try exact Hc.
    pose proof (get_tasks_rows _ _ _ _ _ _ _ Hg) as Hrows. cbv zeta; cbn [fst].
    apply (consistent_set st); cbn [db set_db];
      [exact Hc | now apply table_ok_mark_all | | now apply others_mark_all | discriminate].
    intros rid Hrid. apply in_map_iff in Hrid as (d0 & <- & Hd0).
    apply (proj1 (has_id_mark_all _ _ _ _ _)).
    destruct (Hrows d0 Hd0) as (Hin & Hu & _). now exists (d_row d0).
  - destruct (int a0) as [n|e]; [|exact Hc].
    destruct (sb_select _ _) as [|row0 l] eqn:Hs; [exact Hc|].
    apply select_active in Hs as (_ & _ & _ & _ & Hid). cbv zeta; cbn [fst].
    apply (consistent_set st); cbn [db set_db];
      [exact Hc | now apply table_ok_update; [apply keeps_set_done|]
      | | now apply others_update; [apply keeps_set_done|] | discriminate].
    now apply (proj1 (has_id_update _ _ (keeps_set_done true) _ _ _)).
Qed.

Lemma cmd_del_consistent (v : Z) (args : list str) (st : state) :
  consistent st -> consistent (fst (cmd_del v args st)).
Proof.
  intros Hc. pose proof (table_consistent st Hc) as Ht.
  unfold cmd_del. destruct args as [|a0 args]; [exact Hc|].
  destruct (int a0) as [n|e]; [|exact Hc].
  destruct (sb_select _ _) as [|row0 l] eqn:Hs; [exact Hc|].
  apply select_active in Hs as (Hin & Hu & Hn & _ & Hid). cbv zeta; cbn [fst].
  set (r := d_row row0) in *.
  apply (consistent_set st); cbn [db set_db]; [exact Hc | now apply table_ok_delete | | |].
  - simpl. split; [exact Hu|]. split; [now apply (ids_issued _ Ht)|].
    split; [|split; [now apply (numbers_in_range _ Ht)|]].
    + intros r0 H0. apply delete_In in H0 as [_ H0]. exact H0.
    + intros Hlt r0 H0 Hu0 He. apply delete_In in H0 as [H0 Hne]. apply Hne.
      apply (numbers_unique _ Ht r0 r H0 Hin); [congruence | exact He | rewrite He; exact Hlt].
  - intros w u' Hw Hl. apply (slot_ok_delete _ _ v w); auto.
    now apply (slots_consistent st Hc).
  - intros d [= <-] w d' Hw Hl He.
    destruct (slots_consistent st Hc w _ Hl) as (_ & _ & Hfresh & _).
    apply (Hfresh r Hin). exact He.
Qed.

Lemma cmd_edit_consistent (v : Z) (args : list str) (st : state) :
  consistent st -> consistent (fst (cmd_edit v args st)).
Proof.
  intros Hc. pose proof (table_consistent st Hc) as Ht.
  unfold cmd_edit. destruct args as [|a0 [|a1 [|a2 rest]]]; try exact Hc.
  all: destruct (int a0) as [n|e]; [|exact Hc].
  all: destruct (sb_select _ _) as [|row0 l] eqn:Hs; [exact Hc|].
  all: destruct (field_lookup _ _) as [fl|]; [|exact Hc].
  all: apply select_active in Hs as (_ & _ & _ & _ & Hid); cbv zeta; cbn [fst].
  all: unfold set_db, set_undo; cbn [db bot_data]; apply (consistent_set st);
      [exact Hc | now apply table_ok_update; [apply keeps_set_field|]
      | | now apply others_update; [apply keeps_set_field|] | discriminate].
  all: now apply (proj1 (has_id_update _ _ (keeps_set_field _ _) _ _ _)).
Qed.

Lemma cmd_undo_consistent (v : Z) (st : state) :
  consistent st -> consistent (fst (cmd_undo v st)).
Proof.
  intros Hc. pose proof (table_consistent st Hc) as Ht.
  unfold cmd_undo. destruct (bot_data st !! v) as [u|] eqn:Hv; [|exact Hc].
  pose proof (slots_consistent st Hc v u Hv) as Hu.
  assert (Hsame : forall w u', w <> v -> bot_data st !! w = Some u' ->
                    slot_ok (db st) w u').
  { intros w u' _ Hw. now apply (slots_consistent st Hc). }
  destruct u as [i|i|ids|d|i fl x]; cbv zeta; cbn [fst].
  - now apply (consistent_pop st).
  - apply (consistent_pop st); cbn [db set_db];
      [exact Hc | now apply table_ok_update; [apply keeps_set_done|]
      | now apply others_update; [apply keeps_set_done|]].
  - apply (consistent_pop st); cbn [db set_db];
      [exact Hc | now apply table_ok_mark_all | now apply others_mark_all].
  - simpl in Hu. destruct Hu as (Hud & Hlt & Hfresh & Hrg & Hnum).
    unfold sb_insert. simpl d_score. cbv iota.
    destruct (existsb _ _) eqn:Hex; cbv zeta; cbn [fst]; [now apply (consistent_pop st)|].
    apply (consistent_pop st); cbn [db set_db]; [exact Hc | |].
    + cbn [d_row]. apply table_ok_append; auto; try lia.
      intros Hlt99 r0 H0 Hu0. apply Hnum; auto. congruence.
    + cbn [d_row]. intros w u' Hw Hl.
      apply slot_ok_append;
        [apply (slots_consistent st Hc w u' Hl) | apply Z.le_refl | congruence |].
      intros d' ->. apply (deleted_distinct st Hc v w d d'); auto.
  - apply (consistent_pop st); cbn [db set_db];
      [exact Hc | now apply table_ok_update; [apply keeps_set_field|]
      | now apply others_update; [apply keeps_set_field|]].
Qed.

Lemma handle_message_consistent (today : date) (v : Z) (text : str) (st : state) :
  consistent st -> consistent (fst (handle_message today v text st)).
Proof.
  intros Hc. pose proof (table_consistent st Hc) as Ht.
  unfold handle_message. destruct (strip text) as [|a s]; [exact Hc|].
  set (p := parse_task (a :: s)). destruct (p_title p) as [|c ttl] eqn:Ep; [exact Hc|].
  unfold sb_insert_new. cbv zeta.
  match goal with |- consistent (fst (match ?sc with Ok _ => (?st1, _) | Raise _ => _ end)) =>
    assert (H1 : consistent st1); [|destruct sc; exact H1] end.
  destruct (next_available_id_smallest (db st) v) as (Hrg & _ & Hfree).
  unfold set_undo, set_db. simpl.
  apply (consistent_set st); cbn [db set_db]; [exact Hc | | | |discriminate].
  - apply table_ok_append; simpl; auto; try lia.
    + intros r0 H0. pose proof (ids_issued _ Ht r0 H0). lia.
    + intros Hlt r0 H0 Hu0 He. destruct Hfree as [Hfree|[Hfree _]]; [|lia].
      apply Hfree. now exists r0.
  - simpl. eexists. split; [apply in_or_app; right; left; reflexivity|]. auto.
  - intros w u' Hw Hl.
    apply slot_ok_append; cbn [row_id user_id n_user_id];
      [now apply (slots_consistent st Hc) | lia | congruence |].
    intros d' ->. destruct (slots_consistent st Hc w _ Hl) as (_ & Hlt & _). lia.
Qed.

Lemma handle_consistent ilike (today : date) (v : Z) (c : command) (st : state) :
  consistent st -> consistent (fst (handle ilike today v c st)).
Proof.
  destruct c; simpl;
    auto using handle_message_consistent, cmd_done_consistent, cmd_del_consistent,
      cmd_edit_consistent, cmd_undo_consistent.
Qed.

Lemma start_consistent : consistent start.
Proof.
  split; simpl.
  - split; simpl; [constructor | | |]; intros; contradiction.
  - intros uid u H. rewrite lookup_empty in H. discriminate.
  - intros u1 u2 d1 d2 _ H. rewrite lookup_empty in H. discriminate.
Qed.

Lemma session_consistent ilike (today : date) (l : list (Z * command)) (st : state) :
  consistent st -> consistent (session ilike today l st).
Proof.
  revert st. induction l as [|[v c] l IH]; intros st H; simpl; [exact H|].
  apply IH. now apply handle_consistent.
Qed.

(** * Commands one after the other *)

Lemma table_ext (t1 t2 : table) :
  rows t1 = rows t2 -> next_id t1 = next_id t2 -> t1 = t2.
Proof. destruct t1, t2. simpl. now intros -> ->. Qed.

(** An update and the update that writes the old value back. *)
Lemma update_restore (f g : row -> row) (rid : Z) (t : table) (r0 : row) :
  List.NoDup (map row_id (rows t)) -> In r0 (rows t) -> row_id r0 = rid ->
  row_id (f r0) = rid -> g (f r0) = r0 ->
  sb_update g rid (sb_update f rid t) = t.
Proof.
  intros Hnd H0 Hi Hfi Hg. apply table_ext; [|reflexivity].
  unfold sb_update. simpl. rewrite List.map_map.
  transitivity (map (fun r : row => r) (rows t)); [|apply List.map_id].
  apply List.map_ext_in. intros r Hr.
  destruct (Z.eqb_spec (row_id r) rid) as [He|Hne].
  - assert (r = r0) as -> by (apply (ids_inj (rows t)); auto; congruence).
    rewrite Hfi, Z.eqb_refl. exact Hg.
  - apply Z.eqb_neq in Hne. now rewrite Hne.
Qed.

Lemma mark_all_rows (b : bool) (ids : list Z) (t : table) :
  rows (fold_left (mark_done b) ids t) =
  map (fun r => if existsb (Z.eqb (row_id r)) ids then set_done b r else r) (rows t).
Proof.
  revert t. induction ids as [|i ids IH]; intros t.
  - simpl. symmetry. apply List.map_id.
  - cbn [fold_left]. rewrite IH. unfold mark_done, sb_update. cbn [rows].
    rewrite List.map_map. apply List.map_ext. intros r. cbn [existsb].
    destruct (row_id r =? i); simpl; [|reflexivity].
    now destruct (existsb _ ids).
Qed.

Lemma mark_all_restore (ids : list Z) (t : table) :
  (forall r, In r (rows t) -> In (row_id r) ids -> done r = false) ->
  fold_left (mark_done false) ids (fold_left (mark_done true) ids t) = t.
Proof.
  intros H. apply table_ext; [|now rewrite !mark_all_next_id].
  rewrite !mark_all_rows, List.map_map.
  transitivity (map (fun r : row => r) (rows t)); [|apply List.map_id].
  apply List.map_ext_in. intros r Hr.
  destruct (existsb (Z.eqb (row_id r)) ids) eqn:E; simpl; rewrite E; [|reflexivity].
  apply existsb_exists in E as (i & Hi & He). apply Z.eqb_eq in He. subst i.
  specialize (H r Hr Hi). destruct r. simpl in *. now subst.
Qed.

Lemma set_field_restore (fl : db_field) (v : option str) (r : row) :
  set_field fl (get_field fl r) (set_field fl v r) = r \/
  (fl = Title /\ v = None).
Proof. destruct fl, r; simpl; auto. destruct v; auto. Qed.

Lemma fresh_id (t : table) (i : Z) :
  (forall r, In r (rows t) -> row_id r <> i) ->
  existsb (fun r => row_id r =? i) (rows t) = false.
Proof.
  intros H. destruct (existsb _ _) eqn:E; [|reflexivity].
  apply existsb_exists in E as (r & Hr & He). apply Z.eqb_eq in He.
  now destruct (H r Hr).
Qed.

(** ** [all] is no number *)

Lemma lower_letter (c : ascii) :
  lower_char c = "a"%char \/ lower_char c = "l"%char ->
  is_space c = false /\ is_digit c = false /\
  Ascii.eqb c "-" = false /\ Ascii.eqb c "+" = false.
Proof.
  destruct c as [[] [] [] [] [] [] [] []]; vm_compute;
    intros [H|H]; solve [discriminate H | auto].
Qed.

Lemma int_all (a : str) : str_eqb (lower a) (lit "all") = true -> int a = Raise ValueError.
Proof.
  intros H. apply str_eqb_eq in H. destruct a as [|c1 [|c2 [|c3 [|c4 a]]]]; try discriminate H.
  injection H as H1 H2 H3.
  destruct (lower_letter c1 (or_introl H1)) as (S1 & D1 & M1 & P1).
  destruct (lower_letter c3 (or_intror H3)) as (S3 & _).
  unfold int, strip, lstrip, rstrip. cbn [drop_while]. rewrite S1.
  cbn [rev app drop_while]. rewrite S3. cbn [rev app]. rewrite M1, P1.
  unfold int_unsigned. now rewrite D1.
Qed.

Lemma int_not_all (a : str) (n : Z) : int a = Ok n -> str_eqb (lower a) (lit "all") = false.
Proof.
  intros H. destruct (str_eqb _ _) eqn:E; [|reflexivity].
  rewrite (int_all a E) in H. discriminate H.
Qed.

(** ** The branches of the handlers *)

Lemma cmd_done_completed ilike (today : date) (v : Z) (args : list str) (st st1 : state)
    (ttl : str) :
  cmd_done ilike today v args st = (st1, Replied (Completed ttl)) ->
  exists a rest n row0 l,
    args = a :: rest /\ int a = Ok n /\
    sb_select (active_task v n) (db st) = row0 :: l /\
    ttl = title (d_row row0) /\
    st1 = {| db := sb_update (set_done true) (row_id (d_row row0)) (db st);
             bot_data := <[v := UDone (row_id (d_row row0))]> (bot_data st) |}.
Proof.
  unfold cmd_done. destruct args as [|a rest]; [discriminate|].
  destruct (str_eqb _ _).
  - destruct (get_tasks _ _ _ _ _ _) as [[|d l]|e]; discriminate.
  - destruct (int a) as [n|e] eqn:Ei; [|discriminate].
    destruct (sb_select _ _) as [|row0 l] eqn:Hs; [discriminate|].
    cbv zeta. intros [= <- <-]. now exists a, rest, n, row0, l.
Qed.

Lemma cmd_done_all_completed ilike (today : date) (v : Z) (args : list str)
    (st st1 : state) (k : nat) :
  cmd_done ilike today v args st = (st1, Replied (AllCompleted k)) ->
  exists tasks,
    get_tasks ilike today (db st) v None None = Ok tasks /\ k = length tasks /\
    st1 = {| db := fold_left (mark_done true) (map (fun t => row_id (d_row t)) tasks) (db st);
             bot_data := <[v := UDoneAll (map (fun t => row_id (d_row t)) tasks)]>
                           (bot_data st) |}.
Proof.
  unfold cmd_done. destruct args as [|a rest]; [discriminate|].
  destruct (str_eqb _ _).
  - destruct (get_tasks _ _ _ _ _ _) as [[|d l]|e] eqn:Hg; try discriminate.
    cbv zeta. intros [= <- <-]. now exists (d :: l).
  - destruct (int a); [|discriminate]. destruct (sb_select _ _); discriminate.
Qed.

Lemma cmd_del_deleted (v : Z) (args : list str) (st st1 : state) (ttl : str) :
  cmd_del v args st = (st1, Replied (Deleted ttl)) ->
  exists a rest n row0 l,
    args = a :: rest /\ int a = Ok n /\
    sb_select (active_task v n) (db st) = row0 :: l /\
    ttl = title (d_row row0) /\
    st1 = {| db := sb_delete (row_id (d_row row0)) (db st);
             bot_data := <[v := UDelete row0]> (bot_data st) |}.
Proof.
  unfold cmd_del. destruct args as [|a rest]; [discriminate|].
  destruct (int a) as [n|e] eqn:Ei; [|discriminate].
  destruct (sb_select _ _) as [|row0 l] eqn:Hs; [discriminate|].
  cbv zeta. intros [= <- <-]. now exists a, rest, n, row0, l.
Qed.

Lemma handle_message_created (today : date) (v : Z) (text : str) (st st1 : state)
    (n : Z) (p : parsed) :
  handle_message today v text st = (st1, Replied (Created n p)) ->
  p = parse_task (strip text) /\ n = next_available_id (db st) v /\
  exists r,
    row_id r = next_id (db st) /\ user_id r = v /\ task_id r = n /\
    title r = p_title p /\ tag r = p_tag p /\ project r = p_project p /\
    priority_str r = p_priority_str p /\ date_str r = p_date_str p /\ done r = false /\
    st1 = {| db := {| rows := rows (db st) ++ [r]; next_id := next_id (db st) + 1 |};
             bot_data := <[v := UCreate (row_id r)]> (bot_data st) |}.
Proof.
  unfold handle_message. destruct (strip text) as [|a s]; [discriminate|].
  set (p0 := parse_task (a :: s)). destruct (p_title p0) as [|c ttl] eqn:Ep; [discriminate|].
  unfold sb_insert_new. cbv zeta.
  destruct (calc_total_score _ _ _ _); [|discriminate].
  intros [= <- <- <-]. split; [reflexivity|]. split; [reflexivity|].
  exists {| row_id := next_id (db st); user_id := v;
            task_id := next_available_id (db st) v; title := p_title p0;
            tag := p_tag p0; project := p_project p0;
            priority_str := p_priority_str p0; date_str := p_date_str p0;
            done := false |}.
  cbn [row_id user_id task_id title tag project priority_str date_str done].
  rewrite Ep. repeat split.
Qed.

(** ** Words *)

Lemma split_from_app_run (cur w s : str) :
  all non_space w -> split_from cur (w ++ s) = split_from (cur ++ w) s.
Proof.
  revert cur. induction w as [|a w IH]; intros cur Hw; simpl.
  - now rewrite app_nil_r.
  - apply all_cons_inv in Hw as [Ha Hw]. rewrite (non_space_true a Ha).
    rewrite (IH _ Hw), <- app_assoc. reflexivity.
Qed.

Lemma split_from_words (cur s : str) :
  all non_space cur ->
  Forall (fun w => w <> [] /\ all non_space w) (split_from cur s).
Proof.
  revert cur. induction s as [|a s IH]; intros cur Hc; simpl.
  - destruct cur; constructor; [|constructor]. split; [discriminate | exact Hc].
  - destruct (is_space a) eqn:Ea.
    + destruct cur.
      * apply IH. constructor.
      * constructor; [split; [discriminate | exact Hc]|]. apply IH. constructor.
    + apply IH. apply List.Forall_app. split; [exact Hc|].
      constructor; [|constructor]. unfold non_space. now rewrite Ea.
Qed.

Lemma split_join (l : list str) :
  Forall (fun w => w <> [] /\ all non_space w) l -> str_split (join (lit " ") l) = l.
Proof.
  unfold str_split. induction 1 as [|x l [Hne Hx] Hl IH]; [reflexivity|].
  destruct l as [|y l].
  - simpl. rewrite <- (app_nil_r x) at 1. rewrite split_from_app_run by exact Hx.
    simpl. now destruct x.
  - rewrite join_cons by discriminate. rewrite split_from_app_run by exact Hx.
    change (lit " " ++ join (lit " ") (y :: l))
      with (" "%char :: join (lit " ") (y :: l)).
    cbn [app split_from]. change (is_space " ") with true. cbv iota.
    rewrite IH. now destruct x.
Qed.

(** ** Digits *)

Lemma digit_value_range (a : ascii) : is_digit a = true -> 0 <= digit_value a <= 9.
Proof.
  unfold is_digit, digit_value. cbv zeta. rewrite andb_true_iff, !N.leb_le. lia.
Qed.

(** * Properties of the handlers beyond the specification *)

(** X1.  Every sequence of commands, of any users, takes a consistent state
    to a consistent state: ids stay unique, task numbers stay in 1..99 with
    none below 99 twice for one owner, and every undo slot keeps fitting
    the table. *)
Theorem commands_keep_consistency ilike (today : date) (l : list (Z * command))
    (st : state) :
  consistent st -> consistent (session ilike today l st).
Proof. apply session_consistent. Qed.

(** X2.  In every state reached from the empty one, a task number is in
    1..99, two rows of one owner that share a number below 99 are the same
    row, and so are two rows with the same id. *)
Theorem reachable_task_numbers ilike (today : date) (l : list (Z * command))
    (r1 r2 : row) :
  let t := db (session ilike today l start) in
  In r1 (rows t) -> In r2 (rows t) ->
  1 <= task_id r1 <= 99 /\
  (user_id r1 = user_id r2 -> task_id r1 = task_id r2 -> task_id r1 < 99 -> r1 = r2) /\
  (row_id r1 = row_id r2 -> r1 = r2).
Proof.
  intros t H1 H2.
  pose proof (table_consistent _ (session_consistent ilike today l start start_consistent))
    as Ht. fold t in Ht.
  split; [now apply (numbers_in_range t Ht)|].
  assert (Hid : row_id r1 = row_id r2 -> r1 = r2).
  { apply (ids_inj (rows t)); auto. apply (ids_unique t Ht). }
  split; [|exact Hid].
  intros Hu Hn Hlt. apply Hid. now apply (numbers_unique t Ht).
Qed.

(** X3.  A command of the user [v] changes neither the rows nor the undo
    slot of another user [uid]. *)
Theorem other_users_untouched ilike (today : date) (v uid : Z) (c : command)
    (st : state) :
  consistent st -> v <> uid ->
  owner_rows uid (db (fst (handle ilike today v c st))) = owner_rows uid (db st) /\
  bot_data (fst (handle ilike today v c st)) !! uid = bot_data st !! uid.
Proof.
  intros Hc Hv. split; [|now apply handle_other_slot].
  pose proof (table_consistent st Hc) as Ht.
  assert (Hup : forall f rid, keeps f -> has_id (db st) rid v ->
            owner_rows uid (sb_update f rid (db st)) = owner_rows uid (db st)).
  { intros f rid Hf Hid. apply owner_rows_update; [exact Hf|].
    intros r Hr He Hu. apply Hv. rewrite <- Hu. symmetry.
    now apply (has_id_owner (db st) rid v r Ht). }
  destruct c as [text|args|args|args|]; cbn [handle].
  - unfold handle_message. destruct (strip text) as [|a s]; [reflexivity|].
    destruct (p_title _); [reflexivity|]. unfold sb_insert_new. cbv zeta.
    destruct (calc_total_score _ _ _ _); cbn [fst db set_undo set_db];
      now apply owner_rows_append.
  - unfold cmd_done. destruct args as [|a rest]; [reflexivity|].
    destruct (str_eqb _ _).
    + destruct (get_tasks _ _ _ _ _ _) as [[|d l]|e] eqn:Hg; try reflexivity.
      cbv zeta. cbn [fst db set_undo set_db].
      apply (owner_rows_mark_all true _ (db st) uid v Ht Hv).
      intros i Hi. apply in_map_iff in Hi as (d0 & <- & Hd0).
      destruct (get_tasks_rows _ _ _ _ _ _ _ Hg d0 Hd0) as (Hin & Hu & _).
      now exists (d_row d0).
    + destruct (int a) as [n|e]; [|reflexivity].
      destruct (sb_select _ _) as [|row0 l] eqn:Hs; [reflexivity|].
      apply select_active in Hs as (_ & _ & _ & _ & Hid).
      cbv zeta. cbn [fst db set_undo set_db]. apply Hup; [apply keeps_set_done | exact Hid].
  - unfold cmd_del. destruct args as [|a rest]; [reflexivity|].
    destruct (int a) as [n|e]; [|reflexivity].
    destruct (sb_select _ _) as [|row0 l] eqn:Hs; [reflexivity|].
    apply select_active in Hs as (_ & _ & _ & _ & Hid).
    cbv zeta. cbn [fst db set_undo set_db]. apply owner_rows_delete.
    intros r Hr He Hu. apply Hv. rewrite <- Hu. symmetry.
    now apply (has_id_owner (db st) _ v r Ht Hid).
  - unfold cmd_edit. destruct args as [|a0 [|a1 [|a2 rest]]]; try reflexivity.
    destruct (int a0) as [n|e]; [|reflexivity].
    destruct (sb_select _ _) as [|row0 l] eqn:Hs; [reflexivity|].
    destruct (field_lookup _ _) as [fl|]; [|reflexivity].
    apply select_active in Hs as (_ & _ & _ & _ & Hid).
    cbv zeta. cbn [fst db set_undo set_db]. apply Hup; [apply keeps_set_field | exact Hid].
  - unfold cmd_undo. destruct (bot_data st !! v) as [u|] eqn:Hs; [|reflexivity].
    pose proof (slots_consistent st Hc v u Hs) as Hu.
    destruct u as [i|i|ids|d|i fl x]; cbv zeta; cbn [fst db set_db]; simpl in Hu.
    + reflexivity.
    + apply Hup; [apply keeps_set_done | exact Hu].
    + now apply (owner_rows_mark_all false _ (db st) uid v Ht Hv).
    + destruct Hu as (Hud & _). unfold sb_insert. cbn [d_score d_row db].
      destruct (existsb _ _); cbn [fst db set_db]; [reflexivity|].
      apply owner_rows_append. congruence.
    + apply Hup; [apply keeps_set_field | exact Hu].
Qed.

(** X4.  [/done n] followed by [/undo] of the same user gives back the
    table as it was, with the user's undo slot empty. *)
Theorem done_then_undo_restores ilike (today : date) (v : Z) (args : list str)
    (st st1 : state) (ttl : str) :
  consistent st ->
  cmd_done ilike today v args st = (st1, Replied (Completed ttl)) ->
  cmd_undo v st1 =
    ({| db := db st; bot_data := delete v (bot_data st) |}, Replied TaskRestored).
Proof.
  intros Hc H. apply cmd_done_completed in H
    as (a & rest & n & row0 & l & _ & _ & Hs & _ & ->).
  apply select_active in Hs as (Hin & _ & _ & Hd & _).
  unfold cmd_undo. cbn [bot_data db]. rewrite lookup_insert_eq. cbv zeta.
  cbn [db bot_data set_db]. rewrite delete_insert_eq. unfold mark_done.
  rewrite (update_restore (set_done true) (set_done false) _ (db st) (d_row row0));
    auto.
  - apply (ids_unique _ (table_consistent st Hc)).
  - destruct (d_row row0). simpl in *. now subst.
Qed.

(** X5.  [/done all] followed by [/undo] of the same user gives back the
    table as it was, and reports as many tasks as were completed. *)
Theorem done_all_then_undo_restores ilike (today : date) (v : Z) (args : list str)
    (st st1 : state) (k : nat) :
  consistent st ->
  cmd_done ilike today v args st = (st1, Replied (AllCompleted k)) ->
  cmd_undo v st1 =
    ({| db := db st; bot_data := delete v (bot_data st) |}, Replied (AllRestored k)).
Proof.
  intros Hc H. apply cmd_done_all_completed in H as (tasks & Hg & -> & ->).
  unfold cmd_undo. cbn [bot_data db]. rewrite lookup_insert_eq.
  cbv zeta. cbn [db bot_data set_db]. rewrite delete_insert_eq.
  rewrite List.length_map. rewrite mark_all_restore; [reflexivity|].
  intros r Hr Hi. apply in_map_iff in Hi as (d0 & He & Hd0).
  destruct (get_tasks_rows _ _ _ _ _ _ _ Hg d0 Hd0) as (Hin & _ & Hdn).
  rewrite (ids_inj (rows (db st)) r (d_row d0)); auto.
  apply (ids_unique _ (table_consistent st Hc)).
Qed.

(** X6.  [/edit n field value] followed by [/undo] of the same user gives
    back the table as it was. *)
Theorem edit_then_undo_restores (v : Z) (args : list str) (st st1 : state)
    (n : Z) (field value : str) :
  consistent st ->
  cmd_edit v args st = (st1, Replied (Updated n field value)) ->
  cmd_undo v st1 =
    ({| db := db st; bot_data := delete v (bot_data st) |}, Replied EditReverted).
Proof.
  intros Hc. unfold cmd_edit. destruct args as [|a0 [|a1 [|a2 rest]]]; try discriminate.
  destruct (int a0) as [m|e]; [|discriminate].
  destruct (sb_select _ _) as [|row0 l] eqn:Hs; [discriminate|].
  destruct (field_lookup _ _) as [fl|]; [|discriminate].
  apply select_active in Hs as (Hin & _ & _ & _ & _).
  cbv zeta. intros [= <- _ _ _].
  unfold cmd_undo. cbn [bot_data db set_undo set_db]. rewrite lookup_insert_eq.
  cbv zeta. cbn [db bot_data set_db]. rewrite delete_insert_eq.
  match goal with |- context [set_field fl (Some ?s)] => set (stored := s) end.
  rewrite (update_restore (set_field fl (Some stored)) _ _ (db st) (d_row row0)); auto.
  - apply (ids_unique _ (table_consistent st Hc)).
  - now destruct (key_eq _ _ (keeps_set_field fl (Some stored) (d_row row0))).
  - destruct (set_field_restore fl (Some stored) (d_row row0)) as [H|[_ H]];
      [exact H | discriminate H].
Qed.

(** X7.  In a consistent state [/undo] raises no exception: the row a
    deletion put into the undo slot can always be inserted again. *)
Theorem undo_never_raises (v : Z) (st : state) (e : exn) :
  consistent st -> snd (cmd_undo v st) <> Raised e.
Proof.
  intros Hc. unfold cmd_undo. destruct (bot_data st !! v) as [u|] eqn:Hs; [|discriminate].
  pose proof (slots_consistent st Hc v u Hs) as Hu.
  destruct u as [i|i|ids|d|i fl x]; try discriminate.
  simpl in Hu. destruct Hu as (_ & _ & Hfresh & _).
  cbv zeta. unfold sb_insert. cbn [d_score d_row db].
  rewrite (fresh_id (db st) _ Hfresh). discriminate.
Qed.

(** X8.  [/undo] after a task was created does not take the task back: the
    handler has no branch for the action [create], so the row stays, the
    undo slot is emptied, and no reply is sent. *)
Theorem undo_keeps_created_task (today : date) (v : Z) (text : str) (st st1 : state)
    (n : Z) (p : parsed) :
  handle_message today v text st = (st1, Replied (Created n p)) ->
  cmd_undo v st1 = ({| db := db st1; bot_data := delete v (bot_data st1) |}, Silent) /\
  exists r, In r (rows (db st1)) /\ user_id r = v /\ task_id r = n /\
    title r = p_title p /\ done r = false.
Proof.
  intros H. apply handle_message_created in H
    as (_ & _ & r & _ & Hu & Hn & Ht & _ & _ & _ & _ & Hd & ->).
  split.
  - unfold cmd_undo. cbn [bot_data db]. now rewrite lookup_insert_eq.
  - exists r. cbn [db rows]. split; [|auto]. apply in_or_app. right. now left.
Qed.

(** X9.  A command that is refused (usage message, id that is no number,
    task not found, nothing pending, unknown field, nothing to undo, empty
    title) leaves the table and every undo slot as they were. *)
Theorem refused_command_changes_nothing ilike (today : date) (v : Z) (c : command)
    (st : state) :
  refusal (snd (handle ilike today v c st)) -> fst (handle ilike today v c st) = st.
Proof.
  destruct c as [text|args|args|args|]; cbn [handle].
  - unfold handle_message. destruct (strip text) as [|a s]; [reflexivity|].
    destruct (p_title _); [reflexivity|]. unfold sb_insert_new. cbv zeta.
    destruct (calc_total_score _ _ _ _); simpl; contradiction.
  - unfold cmd_done. destruct args as [|a rest]; [reflexivity|].
    destruct (str_eqb _ _).
    + destruct (get_tasks _ _ _ _ _ _) as [[|d l]|e]; try reflexivity.
      simpl. contradiction.
    + destruct (int a); [|reflexivity]. destruct (sb_select _ _); [reflexivity|].
      simpl. contradiction.
  - unfold cmd_del. destruct args as [|a rest]; [reflexivity|].
    destruct (int a); [|reflexivity]. destruct (sb_select _ _); [reflexivity|].
    simpl. contradiction.
  - unfold cmd_edit. destruct args as [|a0 [|a1 [|a2 rest]]]; try reflexivity.
    destruct (int a0); [|reflexivity]. destruct (sb_select _ _); [reflexivity|].
    destruct (field_lookup _ _); [|reflexivity]. simpl. contradiction.
  - unfold cmd_undo. destruct (bot_data st !! v) as [u|]; [|reflexivity].
    destruct u; simpl; try contradiction.
    destruct (sb_insert _ _); simpl; contradiction.
Qed.

(** X10.  When [/done n] has completed a task with a number below 99, the
    same command again finds no task and changes nothing. *)
Theorem done_twice_not_found ilike (today : date) (v : Z) (args : list str)
    (st st1 : state) (ttl : str) :
  consistent st ->
  cmd_done ilike today v args st = (st1, Replied (Completed ttl)) ->
  exists a rest n, args = a :: rest /\ int a = Ok n /\
    (n < 99 -> cmd_done ilike today v args st1 = (st1, Replied (NotFound n))).
Proof.
  intros Hc H. pose proof (table_consistent st Hc) as Ht.
  apply cmd_done_completed in H as (a & rest & n & row0 & l & -> & Ei & Hs & _ & ->).
  apply select_active in Hs as (Hin & Hu & Hn & _ & _).
  exists a, rest, n. split; [reflexivity|]. split; [exact Ei|]. intros Hlt.
  unfold cmd_done. rewrite (int_not_all a n Ei), Ei. cbn [db].
  rewrite unresolved_select; [reflexivity|].
  intros r Hr Hru Hrn. apply in_map_iff in Hr as (r0 & <- & H0).
  destruct (Z.eqb_spec (row_id r0) (row_id (d_row row0))) as [He|Hne]; [reflexivity|].
  exfalso. apply Hne. apply (numbers_unique _ Ht r0 (d_row row0) H0 Hin); congruence.
Qed.

(** X11.  When [/del n] has deleted a task with a number below 99, the
    number is free again: the next task of the user gets a number that is
    at most [n]. *)
Theorem delete_frees_number (v : Z) (args : list str) (st st1 : state) (ttl : str) :
  consistent st ->
  cmd_del v args st = (st1, Replied (Deleted ttl)) ->
  exists a rest n, args = a :: rest /\ int a = Ok n /\ 1 <= n <= 99 /\
    (n < 99 -> next_available_id (db st1) v <= n).
Proof.
  intros Hc H. pose proof (table_consistent st Hc) as Ht.
  apply cmd_del_deleted in H as (a & rest & n & row0 & l & -> & Ei & Hs & _ & ->).
  apply select_active in Hs as (Hin & Hu & Hn & _ & _).
  exists a, rest, n. split; [reflexivity|]. split; [exact Ei|].
  split; [rewrite <- Hn; now apply (numbers_in_range _ Ht)|]. intros Hlt. cbn [db].
  destruct (next_available_id_smallest (sb_delete (row_id (d_row row0)) (db st)) v)
    as (Hr & Hbelow & _).
  destruct (Z_le_gt_dec (next_available_id (sb_delete (row_id (d_row row0)) (db st)) v) n)
    as [Hle|Hgt]; [exact Hle|].
  exfalso. assert (Hn1 : 1 <= n) by (rewrite <- Hn; now apply (numbers_in_range _ Ht)).
  destruct (Hbelow n ltac:(lia)) as (r & Hr0 & Hru & Hrn).
  apply delete_In in Hr0 as [Hr0 Hne]. apply Hne.
  apply (numbers_unique _ Ht r (d_row row0) Hr0 Hin); congruence.
Qed.

(** X12.  A completed task keeps its number taken: after [/done n] with a
    number below 99, the next task of the user does not get the number
    [n]. *)
Theorem completed_number_stays_taken ilike (today : date) (v : Z) (args : list str)
    (st st1 : state) (ttl : str) :
  cmd_done ilike today v args st = (st1, Replied (Completed ttl)) ->
  exists a rest n, args = a :: rest /\ int a = Ok n /\
    (n < 99 -> next_available_id (db st1) v <> n).
Proof.
  intros H.
  apply cmd_done_completed in H as (a & rest & n & row0 & l & -> & Ei & Hs & _ & ->).
  apply select_active in Hs as (Hin & Hu & Hn & _ & _).
  exists a, rest, n. split; [reflexivity|]. split; [exact Ei|]. intros Hlt He. cbn [db] in He.
  destruct (next_available_id_smallest (sb_update (set_done true) (row_id (d_row row0)) (db st)) v)
    as (_ & _ & Hfree).
  rewrite He in Hfree.
  destruct Hfree as [Hfree|[H99 _]]; [|lia]. apply Hfree.
  destruct (update_In_back (set_done true) (row_id (d_row row0)) (keeps_set_done true)
              (db st) (d_row row0) Hin) as (r' & Hr' & Hk).
  apply key_eq in Hk as (_ & Hku & Hkn). exists r'. split; [exact Hr'|]. split; congruence.
Qed.

(** X13.  A task created with a number below 99 is the one task of the user
    that the number selects, so [/done n] right after the creation
    completes exactly that task. *)
Theorem created_task_is_found ilike (today : date) (v : Z) (text : str) (st st1 : state)
    (n : Z) (p : parsed) :
  handle_message today v text st = (st1, Replied (Created n p)) -> n < 99 ->
  (exists r, sb_select (active_task v n) (db st1) = [fetched r] /\
     title r = p_title p /\ tag r = p_tag p /\ project r = p_project p /\
     priority_str r = p_priority_str p /\ date_str r = p_date_str p) /\
  (forall a rest, int a = Ok n ->
     snd (cmd_done ilike today v (a :: rest) st1) = Replied (Completed (p_title p))).
Proof.
  intros H Hlt. apply handle_message_created in H
    as (_ & Hnx & r & _ & Hu & Hn & Ht & Htg & Hpj & Hpr & Hdt & Hd & ->).
  assert (Hsel : sb_select (active_task v n)
            {| rows := rows (db st) ++ [r]; next_id := next_id (db st) + 1 |} = [fetched r]).
  { unfold sb_select. cbn [rows]. rewrite List.filter_app, filter_none.
    - simpl. assert (Hr : active_task v n r = true) by (apply active_task_spec; auto).
      now rewrite Hr.
    - intros x Hx. destruct (active_task v n x) eqn:E; [|reflexivity].
      apply active_task_spec in E as (Hxu & Hxn & _).
      destruct (next_available_id_smallest (db st) v) as (_ & _ & [Hfree|[H99 _]]);
        [|lia]. exfalso. apply Hfree. exists x. split; [exact Hx|]. split; congruence. }
  split.
  - exists r. cbn [db]. auto 10.
  - intros a rest Ei. unfold cmd_done. rewrite (int_not_all a n Ei), Ei. cbn [db].
    rewrite Hsel. cbv zeta. cbn [snd d_row fetched]. now rewrite Ht.
Qed.

(** X14.  A text message never ends in an exception: a blank text gets no
    reply, a text that leaves no title is refused, and any other text
    creates a task under the next free number of the user. *)
Theorem text_message_outcome (today : date) (v : Z) (text : str) (st : state) :
  match snd (handle_message today v text st) with
  | Silent => strip text = []
  | Replied TitleRequired =>
      strip text <> [] /\ p_title (parse_task (strip text)) = []
  | Replied (Created n p) =>
      p = parse_task (strip text) /\ p_title p <> [] /\
      n = next_available_id (db st) v
  | _ => False
  end.
Proof.
  unfold handle_message. destruct (strip text) as [|a s] eqn:Es; [reflexivity|].
  set (p := parse_task (a :: s)). destruct (p_title p) as [|c ttl] eqn:Ep.
  - simpl. split; [discriminate | reflexivity].
  - unfold sb_insert_new. cbv zeta.
    assert (Hs : scorable (p_priority_str p)).
    { destruct (p_priority_str p) as [pr|] eqn:Epr; [|now left].
      apply priority_code_scorable. now apply (parse_task_priority_code (a :: s)). }
    unfold calc_total_score. destruct (scorable_value _ Hs) as (pv & ->).
    simpl. rewrite Ep. repeat split. discriminate.
Qed.

(** X15.  The title [parse_task] returns is normalised: collapsing its
    blanks and trimming it again gives the same title. *)
Theorem parse_task_title_normalised (text : str) :
  strip (sub_spaces false (p_title (parse_task text))) = p_title (parse_task text).
Proof.
  destruct (parse_task_parse_of text) as (r1 & r2 & r3 & r4 & _ & _ & _ & _ & _ & H).
  rewrite title_words, H. rewrite split_join; [reflexivity|].
  apply split_from_words. constructor.
Qed.

(** X16.  Whenever [calc_total_score] returns, the score is between -1 and
    16. *)
Theorem calc_total_score_bounds (today : date) (tag priority_str date_str : option str)
    (sc : Z) :
  calc_total_score today tag priority_str date_str = Ok sc -> -1 <= sc <= 16.
Proof.
  unfold calc_total_score.
  set (tv := match tag with
             | None => 0
             | Some [] => 0
             | Some t => dict_get TAG_VALUES t 0
             end).
  assert (Ht : 0 <= tv <= 3).
  { unfold tv. destruct tag as [[|a t]|]; try lia.
    unfold dict_get, TAG_VALUES. repeat destruct (str_eqb _ _); lia. }
  assert (Hd : 0 <= calc_date_value today date_str <= 3).
  { unfold calc_date_value. destruct date_str as [[|a s]|]; try lia.
    destruct (strptime_ddmmyy _); [|lia]. cbv zeta.
    repeat destruct (_ <=? _); lia. }
  destruct (calc_priority_value priority_str) as [pv|e] eqn:Hp; [|discriminate].
  assert (Hpv : -1 <= pv <= 10).
  { unfold calc_priority_value in Hp.
    destruct priority_str as [[|c0 [|c1 rest]]|]; try discriminate Hp;
      try (injection Hp as <-; lia).
    unfold int_char in Hp. destruct (is_digit c1) eqn:Hdg; [|discriminate Hp].
    pose proof (digit_value_range c1 Hdg). simpl in Hp. injection Hp as <-.
    destruct (Ascii.eqb c0 "U"); lia. }
  simpl. intros [= <-]. lia.
Qed.

(** * The properties of the handlers at concrete inputs *)

Lemma after_lavar_ropa_consistent : consistent after_lavar_ropa.
Proof. exact (handle_message_consistent feb_10_2026 7 _ start start_consistent). Defined.

Lemma after_lavar_ropa_created :
  handle_message feb_10_2026 7 (lit "Lavar ropa |pU2") start
  = (after_lavar_ropa, Replied (Created 1 (parse_task (lit "Lavar ropa |pU2")))).
Proof. vm_compute. reflexivity. Defined.

Lemma after_lavar_ropa_done :
  cmd_done no_ilike feb_10_2026 7 [lit "1"] after_lavar_ropa
  = (fst (cmd_done no_ilike feb_10_2026 7 [lit "1"] after_lavar_ropa),
     Replied (Completed (lit "Lavar ropa"))).
Proof. vm_compute. reflexivity. Defined.

Lemma after_lavar_ropa_done_all :
  cmd_done no_ilike feb_10_2026 7 [lit "all"] after_lavar_ropa
  = (fst (cmd_done no_ilike feb_10_2026 7 [lit "all"] after_lavar_ropa),
     Replied (AllCompleted 1)).
Proof. vm_compute. reflexivity. Defined.

Lemma after_lavar_ropa_edit :
  cmd_edit 7 [lit "1"; lit "title"; lit "Planchar"] after_lavar_ropa
  = (fst (cmd_edit 7 [lit "1"; lit "title"; lit "Planchar"] after_lavar_ropa),
     Replied (Updated 1 (lit "title") (lit "Planchar"))).
Proof. vm_compute. reflexivity. Defined.

Lemma after_lavar_ropa_del :
  cmd_del 7 [lit "1"] after_lavar_ropa
  = (fst (cmd_del 7 [lit "1"] after_lavar_ropa), Replied (Deleted (lit "Lavar ropa"))).
Proof. vm_compute. reflexivity. Defined.

Lemma after_del_consistent : consistent (fst (cmd_del 7 [lit "1"] after_lavar_ropa)).
Proof. exact (cmd_del_consistent 7 _ _ after_lavar_ropa_consistent). Defined.

(** X1 at the empty state, for an owner who writes a task, completes it,
    and takes the completion back. *)
Lemma commands_keep_consistency_witness :
  consistent start /\
  consistent (session no_ilike feb_10_2026
                [(7, Text (lit "Lavar ropa |pU2")); (7, Done [lit "1"]); (7, Undo)] start).
Proof.
  split; [exact start_consistent|].
  exact (commands_keep_consistency no_ilike feb_10_2026 _ start start_consistent).
Defined.

Lemma lavar_ropa_stored :
  In (task 1 7 1 "Lavar ropa" None (Some "U2"%string) None false)
     (rows (db (session no_ilike feb_10_2026 [(7, Text (lit "Lavar ropa |pU2"))] start))).
Proof. vm_compute. left. reflexivity. Defined.

(** X2 at the row of an owner who wrote one task. *)
Lemma reachable_task_numbers_witness :
  let r := task 1 7 1 "Lavar ropa" None (Some "U2"%string) None false in
  let t := db (session no_ilike feb_10_2026 [(7, Text (lit "Lavar ropa |pU2"))] start) in
  In r (rows t) /\
  (1 <= task_id r <= 99 /\
   (user_id r = user_id r -> task_id r = task_id r -> task_id r < 99 -> r = r) /\
   (row_id r = row_id r -> r = r)).
Proof.
  intros r t. split; [exact lavar_ropa_stored|].
  exact (reachable_task_numbers no_ilike feb_10_2026
           [(7, Text (lit "Lavar ropa |pU2"))] r r lavar_ropa_stored lavar_ropa_stored).
Defined.

Lemma seven_not_eight : (7 : Z) <> 8.
Proof. discriminate. Defined.

(** X3 at the owner 7 completing a task, seen from the owner 8. *)
Lemma other_users_untouched_witness :
  consistent after_lavar_ropa /\ (7 : Z) <> 8 /\
  owner_rows 8 (db (fst (handle no_ilike feb_10_2026 7 (Done [lit "1"]) after_lavar_ropa)))
    = owner_rows 8 (db after_lavar_ropa) /\
  bot_data (fst (handle no_ilike feb_10_2026 7 (Done [lit "1"]) after_lavar_ropa)) !! 8
    = bot_data after_lavar_ropa !! 8.
Proof.
  split; [exact after_lavar_ropa_consistent|]. split; [exact seven_not_eight|].
  exact (other_users_untouched no_ilike feb_10_2026 7 8 (Done [lit "1"]) after_lavar_ropa
           after_lavar_ropa_consistent seven_not_eight).
Defined.

(** X4 at the one task of the owner 7. *)
Lemma done_then_undo_restores_witness :
  consistent after_lavar_ropa /\
  cmd_undo 7 (fst (cmd_done no_ilike feb_10_2026 7 [lit "1"] after_lavar_ropa))
  = ({| db := db after_lavar_ropa; bot_data := delete 7 (bot_data after_lavar_ropa) |},
     Replied TaskRestored).
Proof.
  split; [exact after_lavar_ropa_consistent|].
  exact (done_then_undo_restores no_ilike feb_10_2026 7 [lit "1"] after_lavar_ropa _ _
           after_lavar_ropa_consistent after_lavar_ropa_done).
Defined.

(** X5 at the one task of the owner 7. *)
Lemma done_all_then_undo_restores_witness :
  consistent after_lavar_ropa /\
  cmd_undo 7 (fst (cmd_done no_ilike feb_10_2026 7 [lit "all"] after_lavar_ropa))
  = ({| db := db after_lavar_ropa; bot_data := delete 7 (bot_data after_lavar_ropa) |},
     Replied (AllRestored 1)).
Proof.
  split; [exact after_lavar_ropa_consistent|].
  exact (done_all_then_undo_restores no_ilike feb_10_2026 7 [lit "all"] after_lavar_ropa
           _ _ after_lavar_ropa_consistent after_lavar_ropa_done_all).
Defined.

(** X6 at a new title for the one task of the owner 7. *)
Lemma edit_then_undo_restores_witness :
  consistent after_lavar_ropa /\
  cmd_undo 7 (fst (cmd_edit 7 [lit "1"; lit "title"; lit "Planchar"] after_lavar_ropa))
  = ({| db := db after_lavar_ropa; bot_data := delete 7 (bot_data after_lavar_ropa) |},
     Replied EditReverted).
Proof.
  split; [exact after_lavar_ropa_consistent|].
  exact (edit_then_undo_restores 7 [lit "1"; lit "title"; lit "Planchar"]
           after_lavar_ropa _ _ _ _ after_lavar_ropa_consistent after_lavar_ropa_edit).
Defined.

(** X7 at the state after the owner 7 deleted the task. *)
Lemma undo_never_raises_witness :
  consistent (fst (cmd_del 7 [lit "1"] after_lavar_ropa)) /\
  snd (cmd_undo 7 (fst (cmd_del 7 [lit "1"] after_lavar_ropa))) <> Raised APIError.
Proof.
  split; [exact after_del_consistent|].
  exact (undo_never_raises 7 _ APIError after_del_consistent).
Defined.

(** X8 at the first task of the owner 7. *)
Lemma undo_keeps_created_task_witness :
  handle_message feb_10_2026 7 (lit "Lavar ropa |pU2") start
  = (after_lavar_ropa, Replied (Created 1 (parse_task (lit "Lavar ropa |pU2")))) /\
  (cmd_undo 7 after_lavar_ropa
   = ({| db := db after_lavar_ropa; bot_data := delete 7 (bot_data after_lavar_ropa) |},
      Silent) /\
   exists r, In r (rows (db after_lavar_ropa)) /\ user_id r = 7 /\ task_id r = 1 /\
     title r = p_title (parse_task (lit "Lavar ropa |pU2")) /\ done r = false).
Proof.
  split; [exact after_lavar_ropa_created|].
  exact (undo_keeps_created_task feb_10_2026 7 _ start _ _ _ after_lavar_ropa_created).
Defined.

Lemma done_without_id_refused :
  refusal (snd (handle no_ilike feb_10_2026 7 (Done []) after_lavar_ropa)).
Proof. exact I. Defined.

(** X9 at [/done] without an id. *)
Lemma refused_command_changes_nothing_witness :
  refusal (snd (handle no_ilike feb_10_2026 7 (Done []) after_lavar_ropa)) /\
  fst (handle no_ilike feb_10_2026 7 (Done []) after_lavar_ropa) = after_lavar_ropa.
Proof.
  split; [exact done_without_id_refused|].
  exact (refused_command_changes_nothing no_ilike feb_10_2026 7 (Done []) after_lavar_ropa
           done_without_id_refused).
Defined.

(** X10 at the one task of the owner 7. *)
Lemma done_twice_not_found_witness :
  consistent after_lavar_ropa /\
  exists a rest n, [lit "1"] = a :: rest /\ int a = Ok n /\
    (n < 99 ->
     cmd_done no_ilike feb_10_2026 7 [lit "1"]
       (fst (cmd_done no_ilike feb_10_2026 7 [lit "1"] after_lavar_ropa))
     = (fst (cmd_done no_ilike feb_10_2026 7 [lit "1"] after_lavar_ropa),
        Replied (NotFound n))).
Proof.
  split; [exact after_lavar_ropa_consistent|].
  exact (done_twice_not_found no_ilike feb_10_2026 7 [lit "1"] after_lavar_ropa _ _
           after_lavar_ropa_consistent after_lavar_ropa_done).
Defined.

(** X11 at the one task of the owner 7. *)
Lemma delete_frees_number_witness :
  consistent after_lavar_ropa /\
  exists a rest n, [lit "1"] = a :: rest /\ int a = Ok n /\ 1 <= n <= 99 /\
    (n < 99 -> next_available_id (db (fst (cmd_del 7 [lit "1"] after_lavar_ropa))) 7 <= n).
Proof.
  split; [exact after_lavar_ropa_consistent|].
  exact (delete_frees_number 7 [lit "1"] after_lavar_ropa _ _
           after_lavar_ropa_consistent after_lavar_ropa_del).
Defined.

(** X12 at the one task of the owner 7. *)
Lemma completed_number_stays_taken_witness :
  cmd_done no_ilike feb_10_2026 7 [lit "1"] after_lavar_ropa
  = (fst (cmd_done no_ilike feb_10_2026 7 [lit "1"] after_lavar_ropa),
     Replied (Completed (lit "Lavar ropa"))) /\
  exists a rest n, [lit "1"] = a :: rest /\ int a = Ok n /\
    (n < 99 ->
     next_available_id (db (fst (cmd_done no_ilike feb_10_2026 7 [lit "1"] after_lavar_ropa))) 7
     <> n).
Proof.
  split; [exact after_lavar_ropa_done|].
  exact (completed_number_stays_taken no_ilike feb_10_2026 7 [lit "1"] after_lavar_ropa _ _
           after_lavar_ropa_done).
Defined.

Lemma one_below_99 : 1 < 99.
Proof. reflexivity. Defined.

(** X13 at the first task of the owner 7. *)
Lemma created_task_is_found_witness :
  let p := parse_task (lit "Lavar ropa |pU2") in
  handle_message feb_10_2026 7 (lit "Lavar ropa |pU2") start
  = (after_lavar_ropa, Replied (Created 1 p)) /\ 1 < 99 /\
  (exists r, sb_select (active_task 7 1) (db after_lavar_ropa) = [fetched r] /\
     title r = p_title p /\ tag r = p_tag p /\ project r = p_project p /\
     priority_str r = p_priority_str p /\ date_str r = p_date_str p) /\
  (forall a rest, int a = Ok 1 ->
     snd (cmd_done no_ilike feb_10_2026 7 (a :: rest) after_lavar_ropa)
     = Replied (Completed (p_title p))).
Proof.
  intros p. split; [exact after_lavar_ropa_created|]. split; [exact one_below_99|].
  exact (created_task_is_found no_ilike feb_10_2026 7 _ start _ _ _
           after_lavar_ropa_created one_below_99).
Defined.

Lemma score_of_help_line :
  calc_total_score feb_10_2026 (Some (lit "FGR")) (Some (lit "U2")) (Some (lit "150226"))
  = Ok 8.
Proof. reflexivity. Defined.

(** X16 at the task of the help text, on 10 February 2026. *)
Lemma calc_total_score_bounds_witness :
  calc_total_score feb_10_2026 (Some (lit "FGR")) (Some (lit "U2")) (Some (lit "150226"))
  = Ok 8 /\ -1 <= 8 <= 16.
Proof.
  split; [exact score_of_help_line|].
  exact (calc_total_score_bounds feb_10_2026 _ _ _ 8 score_of_help_line).
Defined.

(** * The matcher accepts only what the pattern describes *)




(** ** The pattern of [%d%m%y] *)





(** ** Two digits *)





(** * Dates and listings as they are shown *)




(** ** The listing and the task numbers *)

Lemma filter_map_same {A} (q : A -> bool) (f : A -> A) (l : list A) :
  (forall x, q (f x) = q x) -> List.filter q (map f l) = map f (List.filter q l).
Proof.
  intros H. induction l as [|x l IH]; [reflexivity|]. simpl. rewrite H, IH.
  now destruct (q x).
Qed.

Lemma sb_select_renumber (number : row -> Z) (q : row -> bool) (t : table) :
  (forall n r, q (set_task_id n r) = q r) ->
  sb_select q (renumber number t) = map (renumbered number) (sb_select q t).
Proof.
  intros H. unfold sb_select, renumber. cbn [rows].
  rewrite filter_map_same by (intros r; apply H). now rewrite !List.map_map.
Qed.

Lemma score_rows_renumber (number : row -> Z) (today : date) (l : list rowdict) :
  score_rows today (map (renumbered number) l) =
  match score_rows today l with
  | Ok l' => Ok (map (renumbered number) l')
  | Raise e => Raise e
  end.
Proof.
  induction l as [|d l IH]; [reflexivity|]. cbn [map score_rows]. rewrite IH.
  change (tag (d_row (renumbered number d))) with (tag (d_row d)).
  change (priority_str (d_row (renumbered number d))) with (priority_str (d_row d)).
  change (date_str (d_row (renumbered number d))) with (date_str (d_row d)).
  destruct (calc_total_score today _ _ _); [|reflexivity]. cbn [bind].
  destruct (score_rows today l); reflexivity.
Qed.

Lemma insert_desc_map {A} (key : A -> Z) (f : A -> A) (x : A) (l : list A) :
  (forall y, key (f y) = key y) ->
  insert_desc key (f x) (map f l) = map f (insert_desc key x l).
Proof.
  intros H. induction l as [|y l IH]; [reflexivity|]. simpl. rewrite !H, IH.
  now destruct (key y <=? key x).
Qed.

Lemma sort_desc_map {A} (key : A -> Z) (f : A -> A) (l : list A) :
  (forall y, key (f y) = key y) ->
  sort_desc key (map f l) = map f (sort_desc key l).
Proof.
  intros H. induction l as [|x l IH]; [reflexivity|]. simpl.
  now rewrite IH, insert_desc_map.
Qed.

Lemma get_tasks_renumber ilike (number : row -> Z) (today : date) (t : table) (uid : Z)
    (tg pj : option str) :
  get_tasks ilike today (renumber number t) uid tg pj =
  match get_tasks ilike today t uid tg pj with
  | Ok l => Ok (map (renumbered number) l)
  | Raise e => Raise e
  end.
Proof.
  unfold get_tasks. cbv zeta. rewrite sb_select_renumber.
  - rewrite score_rows_renumber.
    destruct (score_rows today _) as [l|e]; [|reflexivity]. cbn [bind].
    now rewrite sort_desc_map.
  - intros n r. destruct pj as [[|? ?]|], tg as [[|? ?]|]; reflexivity.
Qed.

Lemma listing_renumber (calendar : str) (number : row -> Z) (l : list rowdict) (i : Z) :
  map (fun it => format_task calendar (snd it) (fst it)) (enumerate i (map (renumbered number) l))
  = map (fun it => format_task calendar (snd it) (fst it)) (enumerate i l).
Proof.
  revert i. induction l as [|d l IH]; intros i; [reflexivity|].
  cbn [map enumerate fst snd]. now rewrite IH.
Qed.

(** X18.  The listing of [/show] does not depend on the task numbers: it
    shows each task under its position in the listing, so the tables that
    differ only in the numbers of their tasks give the same reply. *)
Theorem cmd_show_ignores_task_numbers ilike (calendar mailbox clipboard dash : str)
    (today : date) (uid : Z) (args : list str) (number : row -> Z) (t : table) :
  cmd_show ilike calendar mailbox clipboard dash today uid args (renumber number t)
  = cmd_show ilike calendar mailbox clipboard dash today uid args t.
Proof.
  unfold cmd_show.
  match goal with |- context [let '(tag, project) := ?e in _] => destruct e as [tg pj] end.
  rewrite get_tasks_renumber.
  destruct (get_tasks ilike today t uid tg pj) as [[|d l]|e]; try reflexivity.
  cbn [bind map]. cbv zeta. do 2 f_equal. cbn [app]. do 2 f_equal.
  apply (listing_renumber calendar number (d :: l) 1).
Qed.
